(** * io.c of GNU ed (OS/2 port): stream ingest, stream emit, display

    A shallow embedding of [src/io.c].  Every C function of the file that
    the verified properties talk about is a Rocq function of the same
    name; the process-wide variables become fields of the record [ed],
    which is passed in and out explicitly.

    Conventions.
    - A C [int] or [long] is a [Z].  Signed overflow is undefined in C, so
      the model describes the executions that stay in range; line lengths
      stay in range because [resize_buffer] refuses larger buffers.
    - A [char] is a [Byte.byte]; a C buffer is the [list byte] of its
      defined cells, terminating NUL included where the code stores one.
    - A [FILE *] open for reading is an [istream], one open for writing an
      [ostream]; the operating system under [write_file] is a [world].
    - Where the C standard leaves the behaviour of a call undefined, the
      model says so: [write_file] has an [outcome], which is a return or
      [Undefined].
    - A local [line_t *] cursor is the position of the node in the ring
      [buffer_head :: lines]; the identity of a node, which is all the
      long-lived pointer [unterminated_line] is compared for, is its
      allocation number [node]. *)

From Stdlib Require Import Strings.String Strings.Byte Numbers.DecimalString.
From Stdlib Require Import ZArith List Bool Lia.
Import ListNotations.
Local Open Scope Z_scope.

(** ** Bytes and C strings *)

Definition NUL : byte := x00.
Definition NL : byte := x0a.
Definition BSLASH : byte := x5c.
Definition DOLLAR : byte := x24.
Definition TAB : byte := x09.
Definition BANG : byte := x21.

(** The bytes of a string literal, without its terminating NUL. *)
Definition bytes (s : string) : list byte := list_byte_of_string s.

(** Conversion of a [char] to [unsigned char], as an integer. *)
Definition uchar (b : byte) : Z := Z.of_N (Byte.to_N b).

(** Conversion of an [int] to the [unsigned char] that [putchar] writes. *)
Definition to_char (z : Z) : byte :=
  match Byte.of_N (Z.to_N (z mod 256)) with
  | Some b => b
  | None => NUL
  end.

Definition b2z (b : bool) : Z := if b then 1 else 0.

(** [printf( "%d", n )] and [printf( "%lu", n )] for a value in range. *)
Definition decimal (n : Z) : list byte :=
  bytes (NilZero.string_of_int (Z.to_int n)).

(** Position of the first [c] in [s], as [memchr] finds it. *)
Fixpoint index_of (c : byte) (s : list byte) : option nat :=
  match s with
  | [] => None
  | x :: r => if Byte.eqb x c then Some 0%nat
              else option_map S (index_of c r)
  end.

(** [strchr( s, c )]: the terminating NUL is part of the string searched. *)
Definition strchr (s : list byte) (c : byte) : option nat :=
  index_of c (s ++ [NUL]).

(** The assignment [p[i] = c] in a buffer that has the cell. *)
Definition poke (p : list byte) (i : nat) (c : byte) : list byte :=
  firstn i p ++ c :: skipn (S i) p.

(** ** Streams *)

(** A [FILE *] open for reading: the bytes still to come, and whether the
    end of these bytes is a read error rather than the end of the file. *)
Record istream := { pending : list byte; ferror_ : bool }.

Definition getc (fp : istream) : option byte * istream :=
  match pending fp with
  | [] => (None, fp)
  | c :: r => (Some c, {| pending := r; ferror_ := ferror_ fp |})
  end.

Definition ferror (fp : istream) : bool := ferror_ fp.
Definition feof (fp : istream) : bool := negb (ferror_ fp).
Definition clearerr (fp : istream) : istream :=
  {| pending := pending fp; ferror_ := false |}.

(** What an output stream is connected to. *)
Inductive target :=
| File (path : list byte)
| Pipe (command : list byte).

(** A [FILE *] open for writing: the bytes accepted so far and the number
    of bytes the device still accepts before [fputc] reports [EOF]. *)
Record ostream := { dest : target; written : list byte; room : nat }.

Definition fputc (c : byte) (fp : ostream) : option ostream :=
  match room fp with
  | O => None
  | S n => Some {| dest := dest fp; written := written fp ++ [c]; room := n |}
  end.

(** ** Session configuration

    [os2] says whether the file is compiled with [__OS2__] defined.
    [mem_limit] is the largest scratch buffer the allocator grants.  The
    other fields are the values that [window_columns()], [traditional()]
    and [scripted()] return; [GLS] and [GNP] are the print flags of ed.h. *)
Record config := {
  os2 : bool;
  mem_limit : Z;
  window_columns : Z;
  traditional : bool;
  scripted : bool;
  GLS : Z;
  GNP : Z
}.

(** ** The editor state *)

(** Modelled from the spec: [line_t] (ed.h is missing), a node of the
    line collection: its identity and the text kept for it in the scratch
    file, [len] bytes without the newline. *)
Record line_t := { node : nat; text : list byte }.

Definition len (lp : line_t) : Z := Z.of_nat (length (text lp)).

(** Modelled from the spec: [undo_t] (ed.h is missing), an undo atom: a
    kind and the first and last node of the range it records. *)
Inductive undo_type := UADD | UDEL | UMOV | VMOV.

Record undo_t := { utype : undo_type; uhead : nat; utail : nat }.

Record ed := {
  lines : list line_t;              (* buffer.c: nodes at addresses 1.. *)
  current_addr_ : Z;                (* buffer.c *)
  next_node : nat;                  (* identity of the next node allocated *)
  ustack : list undo_t;             (* buffer.c: undo stack, newest first *)
  mutex : Z;                        (* signal.c: interrupts disabled if > 0 *)
  binary_ : bool;                   (* main_loop.c: sticky binary flag *)
  errmsg : string;                  (* main_loop.c: last error message *)
  unterminated_line : option nat;   (* io.c: node of a last line without '\n' *)
  linenum_ : Z;                     (* io.c: script line number *)
  textmode : bool;                  (* io.c, OS/2 only *)
  stdout : list byte;
  stderr : list (option (list byte)) (* one entry per show_strerror call *)
}.

Definition set_lines (l : list line_t) (c : Z) (n : nat) (st : ed) : ed :=
  {| lines := l; current_addr_ := c; next_node := n; ustack := ustack st;
     mutex := mutex st; binary_ := binary_ st; errmsg := errmsg st;
     unterminated_line := unterminated_line st; linenum_ := linenum_ st;
     textmode := textmode st; stdout := stdout st; stderr := stderr st |}.

Definition set_ustack (u : list undo_t) (st : ed) : ed :=
  {| lines := lines st; current_addr_ := current_addr_ st;
     next_node := next_node st; ustack := u;
     mutex := mutex st; binary_ := binary_ st; errmsg := errmsg st;
     unterminated_line := unterminated_line st; linenum_ := linenum_ st;
     textmode := textmode st; stdout := stdout st; stderr := stderr st |}.

Definition set_mutex (m : Z) (st : ed) : ed :=
  {| lines := lines st; current_addr_ := current_addr_ st;
     next_node := next_node st; ustack := ustack st;
     mutex := m; binary_ := binary_ st; errmsg := errmsg st;
     unterminated_line := unterminated_line st; linenum_ := linenum_ st;
     textmode := textmode st; stdout := stdout st; stderr := stderr st |}.

Definition set_binary_ (b : bool) (st : ed) : ed :=
  {| lines := lines st; current_addr_ := current_addr_ st;
     next_node := next_node st; ustack := ustack st;
     mutex := mutex st; binary_ := b; errmsg := errmsg st;
     unterminated_line := unterminated_line st; linenum_ := linenum_ st;
     textmode := textmode st; stdout := stdout st; stderr := stderr st |}.

Definition set_errmsg (m : string) (st : ed) : ed :=
  {| lines := lines st; current_addr_ := current_addr_ st;
     next_node := next_node st; ustack := ustack st;
     mutex := mutex st; binary_ := binary_ st; errmsg := m;
     unterminated_line := unterminated_line st; linenum_ := linenum_ st;
     textmode := textmode st; stdout := stdout st; stderr := stderr st |}.

Definition set_unterminated_line (p : option nat) (st : ed) : ed :=
  {| lines := lines st; current_addr_ := current_addr_ st;
     next_node := next_node st; ustack := ustack st;
     mutex := mutex st; binary_ := binary_ st; errmsg := errmsg st;
     unterminated_line := p; linenum_ := linenum_ st;
     textmode := textmode st; stdout := stdout st; stderr := stderr st |}.

Definition set_linenum_ (n : Z) (st : ed) : ed :=
  {| lines := lines st; current_addr_ := current_addr_ st;
     next_node := next_node st; ustack := ustack st;
     mutex := mutex st; binary_ := binary_ st; errmsg := errmsg st;
     unterminated_line := unterminated_line st; linenum_ := n;
     textmode := textmode st; stdout := stdout st; stderr := stderr st |}.

Definition set_textmode_ (b : bool) (st : ed) : ed :=
  {| lines := lines st; current_addr_ := current_addr_ st;
     next_node := next_node st; ustack := ustack st;
     mutex := mutex st; binary_ := binary_ st; errmsg := errmsg st;
     unterminated_line := unterminated_line st; linenum_ := linenum_ st;
     textmode := b; stdout := stdout st; stderr := stderr st |}.

Definition set_stdout (o : list byte) (st : ed) : ed :=
  {| lines := lines st; current_addr_ := current_addr_ st;
     next_node := next_node st; ustack := ustack st;
     mutex := mutex st; binary_ := binary_ st; errmsg := errmsg st;
     unterminated_line := unterminated_line st; linenum_ := linenum_ st;
     textmode := textmode st; stdout := o; stderr := stderr st |}.

Definition set_stderr (e : list (option (list byte))) (st : ed) : ed :=
  {| lines := lines st; current_addr_ := current_addr_ st;
     next_node := next_node st; ustack := ustack st;
     mutex := mutex st; binary_ := binary_ st; errmsg := errmsg st;
     unterminated_line := unterminated_line st; linenum_ := linenum_ st;
     textmode := textmode st; stdout := stdout st; stderr := e |}.

(** [putchar], [fputs( s, stdout )] and [printf] append to [stdout]. *)
Definition putchar (c : byte) (st : ed) : ed := set_stdout (stdout st ++ [c]) st.
Definition fputs (s : list byte) (st : ed) : ed := set_stdout (stdout st ++ s) st.

(** ** Collaborators of io.c

    io.c calls into buffer.c, main_loop.c and signal.c, which are not
    under src/.  Their functions are modelled here from the interface
    the specification gives them (its sections 3, 6 and 7). *)

(** Modelled from the spec: [set_error_msg] (main_loop.c is missing);
    errors set a retrievable last-error message. *)
Definition set_error_msg (m : string) (st : ed) : ed := set_errmsg m st.

(** Modelled from the spec: [show_strerror] (main_loop.c is missing);
    the underlying system error is reported with the file name, when
    there is one, as its context. *)
Definition show_strerror (filename : option (list byte)) (st : ed) : ed :=
  set_stderr (stderr st ++ [filename]) st.

(** Modelled from the spec: [isbinary] and [set_binary] (main_loop.c is
    missing); the binary-mode flag is sticky, nothing here clears it. *)
Definition isbinary (st : ed) : bool := binary_ st.
Definition set_binary (st : ed) : ed := set_binary_ true st.

(** Modelled from the spec: [disable_interrupts] and [enable_interrupts]
    (signal.c is missing); a bracket that defers interrupt delivery. *)
Definition disable_interrupts (st : ed) : ed := set_mutex (mutex st + 1) st.
Definition enable_interrupts (st : ed) : ed := set_mutex (mutex st - 1) st.

(** Modelled from the spec: [resize_buffer] (main_loop.c is missing);
    the scratch buffer grows to at least the requested size and keeps its
    contents, or the allocation fails and the failure is reported. *)
Definition resize_buffer (cfg : config) (min_size : Z) (st : ed) : bool * ed :=
  if min_size <=? mem_limit cfg then (true, st)
  else (false, set_error_msg "Memory exhausted" st).

(** Modelled from the spec: [strip_escapes] (main_loop.c is missing);
    the escape markers of a file name are removed: a backslash is dropped
    and the byte after it is kept. *)
Fixpoint strip_escapes (p : list byte) : list byte :=
  match p with
  | [] => []
  | c :: r =>
      if Byte.eqb c BSLASH then
        match r with
        | [] => []
        | d :: r' => d :: strip_escapes r'
        end
      else c :: strip_escapes r
  end.

(** Modelled from the spec: the address queries of buffer.c (missing). *)
Definition last_addr (st : ed) : Z := Z.of_nat (length (lines st)).
Definition current_addr (st : ed) : Z := current_addr_ st.
Definition set_current_addr (addr : Z) (st : ed) : ed :=
  set_lines (lines st) addr (next_node st) st.

(** The head of the ring of nodes; it is the node of address 0. *)
Definition buffer_head : line_t := {| node := 0%nat; text := [] |}.
Definition ring (st : ed) : list line_t := buffer_head :: lines st.
Definition node_at (st : ed) (lp : nat) : line_t := nth lp (ring st) buffer_head.

(** Modelled from the spec: [search_line_node] (buffer.c is missing)
    resolves an address to a position.  An address outside
    [0 .. last_addr] is outside the contract of the collection; the model
    resolves it to the head. *)
Definition search_line_node (st : ed) (addr : Z) : nat :=
  if (0 <=? addr) && (addr <=? last_addr st) then Z.to_nat addr else 0%nat.

(** The link [lp->q_forw] of the ring. *)
Definition q_forw (st : ed) (lp : nat) : nat :=
  if (S lp <? length (ring st))%nat then S lp else 0%nat.

(** Modelled from the spec: [get_sbuf_line] (buffer.c is missing) fetches
    the stored content of a line, [len] bytes followed by a NUL; the head
    of the ring stores no line. *)
Definition get_sbuf_line (st : ed) (lp : nat) : option (list byte) :=
  match lp with
  | O => None
  | S _ => Some (text (node_at st lp) ++ [NUL])
  end.

(** Modelled from the spec: [put_sbuf_line] (buffer.c is missing) inserts
    one line after the current address and makes it the current line.
    The line is the text before the first newline among the [size] bytes
    offered; without a newline there the call fails. *)
Definition put_sbuf_line (buf : list byte) (size : Z) (st : ed) : bool * ed :=
  let s := firstn (Z.to_nat size) buf in
  match index_of NL s with
  | None => (false, set_error_msg "Line too long" st)
  | Some k =>
      let lp := {| node := next_node st; text := firstn k s |} in
      let c := Z.to_nat (current_addr_ st) in
      (true, set_lines (firstn c (lines st) ++ lp :: skipn c (lines st))
                       (current_addr_ st + 1) (S (next_node st)) st)
  end.

(** Modelled from the spec: [push_undo_atom] (buffer.c is missing) opens
    an undo atom for the lines [from .. to]; the result stands for the
    pointer to the atom, its index in the stack. *)
Definition push_undo_atom (t : undo_type) (from to : Z) (st : ed)
  : option nat * ed :=
  let u := {| utype := t;
              uhead := node (node_at st (search_line_node st from));
              utail := node (node_at st (search_line_node st to)) |} in
  (Some (length (ustack st)), set_ustack (ustack st ++ [u]) st).

(** The assignment [up->tail = lp]. *)
Definition set_tail (up : nat) (lp : nat) (st : ed) : ed :=
  match nth_error (ustack st) up with
  | None => st
  | Some u =>
      set_ustack (firstn up (ustack st)
                  ++ {| utype := utype u; uhead := uhead u;
                        utail := node (node_at st lp) |}
                  :: skipn (S up) (ustack st)) st
  end.

(** ** io.c *)

Definition reset_unterminated_line (st : ed) : ed :=
  set_unterminated_line None st.

(** The test [unterminated_line != 0 && unterminated_line == lp], for the
    node [lp]. *)
Definition marks (st : ed) (lp : nat) : bool :=
  match unterminated_line st with
  | None => false
  | Some p => Nat.eqb p lp
  end.

Definition unmark_unterminated_line (lp : nat) (st : ed) : ed :=
  if marks st lp then set_unterminated_line None st else st.

Definition unterminated_last_line (st : ed) : bool :=
  marks st (node (node_at st (search_line_node st (last_addr st)))).

Definition linenum (st : ed) : Z := linenum_ st.

Definition set_textmode (st : ed) : ed := set_textmode_ true st.

(** *** print_line *)

Definition escapes : list byte := [x07; x08; x0c; x0a; x0d; x09; x0b].
Definition escchars : list byte := bytes "abfnrtv".

(** The test [pflags & f]. *)
Definition flag (pflags f : Z) : bool := negb (Z.land pflags f =? 0).

Definition is_some {A} (o : option A) : bool :=
  match o with Some _ => true | None => false end.

(** The octal digit [( ( ch >> k ) & 7 ) + '0']. *)
Definition octal_digit (ch : byte) (k : Z) : byte :=
  to_char (Z.land (Z.shiftr (uchar ch) k) 7 + uchar x30).

(** One turn of the loop of [print_line], for the byte [ch]. *)
Definition print_char (cfg : config) (pflags : Z) (ch : byte) (col : Z) (st : ed)
  : Z * ed :=
  if negb (flag pflags (GLS cfg)) then (col, putchar ch st)
  else
    let col := col + 1 in
    let '(col, st) :=
      if col >? window_columns cfg then (1, fputs [BSLASH; NL] st)
      else (col, st) in
    if (32 <=? uchar ch) && (uchar ch <=? 126) then
      let '(col, st) :=
        if Byte.eqb ch DOLLAR || Byte.eqb ch BSLASH
        then (col + 1, putchar BSLASH st)
        else (col, st) in
      (col, putchar ch st)
    else
      let p := strchr escapes ch in
      let col := col + 1 in
      let st := putchar BSLASH st in
      if negb (Byte.eqb ch NUL) && is_some p then
        (col, putchar (nth (match p with Some i => i | None => 0%nat end)
                           (escchars ++ [NUL]) NUL) st)
      else
        let col := col + 2 in
        let st := putchar (octal_digit ch 6) st in
        let st := putchar (octal_digit ch 3) st in
        let st := putchar (octal_digit ch 0) st in
        (col, st).

(** The loop [while( --len >= 0 )] over the bytes at [p].  The caller
    passes a buffer of at least [len] bytes. *)
Fixpoint print_loop (cfg : config) (pflags : Z) (p : list byte) (len : nat)
  (col : Z) (st : ed) : Z * ed :=
  match len, p with
  | S n, ch :: p' =>
      let '(col, st) := print_char cfg pflags ch col st in
      print_loop cfg pflags p' n col st
  | _, _ => (col, st)
  end.

Definition print_line (cfg : config) (p : list byte) (len : Z) (pflags : Z)
  (st : ed) : ed :=
  let '(col, st) :=
    if flag pflags (GNP cfg)
    then (8, fputs (decimal (current_addr st) ++ [TAB]) st)
    else (0, st) in
  let '(_, st) := print_loop cfg pflags p (Z.to_nat len) col st in
  let st :=
    if negb (traditional cfg) && flag pflags (GLS cfg)
    then putchar DOLLAR st else st in
  putchar NL st.

(** *** trailing_escape *)

(** The loop [while( --len >= 0 && s[len] == '\\' )]; [len] here is the
    value before the decrement. *)
Fixpoint trailing_escape_loop (s : list byte) (len : nat) (odd_escape : bool)
  : bool :=
  match len with
  | O => odd_escape
  | S n =>
      if Byte.eqb (nth n s NUL) BSLASH
      then trailing_escape_loop s n (negb odd_escape)
      else odd_escape
  end.

Definition trailing_escape (s : list byte) (len : Z) : bool :=
  trailing_escape_loop s (Z.to_nat len) false.

(** *** get_stdin_line *)

(** The loop of [get_stdin_line]: [l] is what standard input still holds,
    [fe] its error flag, [buf] the cells [buf[0 .. i-1]] written so far.
    The result is the pointer returned ([None] for 0), the value left in
    [*sizep], and standard input afterwards. *)
Fixpoint get_stdin_loop (cfg : config) (l : list byte) (fe : bool)
  (buf : list byte) (st : ed) : option (list byte) * Z * istream * ed :=
  let i := Z.of_nat (length buf) in
  let stdin := {| pending := l; ferror_ := fe |} in
  match l with
  | [] =>                                            (* c == EOF *)
      match resize_buffer cfg (i + 2) st with
      | (false, st) => (None, 0, stdin, st)
      | (true, st) =>
          if ferror stdin then
            let st := show_strerror (Some (bytes "stdin")) st in
            let st := set_error_msg "Cannot read stdin" st in
            (None, 0, clearerr stdin, st)
          else
            let st := set_error_msg "Unexpected end-of-file" st in
            let buf := poke buf 0 NUL in
            let st := if i >? 0 then set_linenum_ (linenum_ st + 1) st else st in
            (Some buf, 0, clearerr stdin, st)
      end
  | c :: r =>
      let stdin := {| pending := r; ferror_ := fe |} in
      match resize_buffer cfg (i + 2) st with
      | (false, st) => (None, 0, stdin, st)
      | (true, st) =>
          let buf := buf ++ [c] in
          let st := if Byte.eqb c NUL then set_binary st else st in
          if negb (Byte.eqb c NL) then get_stdin_loop cfg r fe buf st
          else
            let st := set_linenum_ (linenum_ st + 1) st in
            (Some (buf ++ [NUL]), Z.of_nat (length buf), stdin, st)
      end
  end.

Definition get_stdin_line (cfg : config) (stdin : istream) (st : ed)
  : option (list byte) * Z * istream * ed :=
  get_stdin_loop cfg (pending stdin) (ferror_ stdin) [] st.

(** *** read_stream_line *)

(** How the reading loop of [read_stream_line] is left. *)
Inductive rsl_exit := NoMemory | AtEOF | AtNewline.

(** The loop of [read_stream_line]: [l] is what the stream still holds,
    [buf] the cells [buf[0 .. i-1]] written so far. *)
Fixpoint read_stream_line_loop (cfg : config) (l : list byte)
  (buf : list byte) (st : ed) : rsl_exit * list byte * list byte * ed :=
  match resize_buffer cfg (Z.of_nat (length buf) + 2) st with
  | (false, st) => (NoMemory, buf, l, st)
  | (true, st) =>
      match l with
      | [] => (AtEOF, buf, l, st)
      | c :: r =>
          let buf := buf ++ [c] in
          if Byte.eqb c NUL then read_stream_line_loop cfg r buf (set_binary st)
          else if Byte.eqb c NL then (AtNewline, buf, r, st)
          else read_stream_line_loop cfg r buf st
      end
  end.

(** [size] and [newline_added] are the values of [*sizep] and
    [*newline_addedp] at the call; the result carries the pointer
    returned ([None] for 0) and the two values afterwards. *)
Definition read_stream_line (cfg : config) (fp : istream) (size : Z)
  (newline_added : bool) (st : ed)
  : option (list byte) * Z * bool * istream * ed :=
  match read_stream_line_loop cfg (pending fp) [] st with
  | (NoMemory, _, l, st) =>
      (None, size, newline_added, {| pending := l; ferror_ := ferror_ fp |}, st)
  | (AtNewline, buf, l, st) =>
      (Some (buf ++ [NUL]), Z.of_nat (length buf), newline_added,
       {| pending := l; ferror_ := ferror_ fp |}, st)
  | (AtEOF, buf, l, st) =>
      let fp := {| pending := l; ferror_ := ferror_ fp |} in
      let i := Z.of_nat (length buf) in
      if ferror fp then
        let st := show_strerror None st in
        let st := set_error_msg "Cannot read input file" st in
        (None, size, newline_added, fp, st)
      else if negb (i =? 0) then
        let i := if negb (isbinary st) then i + 1 else i in
        (Some (buf ++ [NL; NUL]), i, true, fp, st)
      else
        (Some (buf ++ [NUL]), i, newline_added, fp, st)
  end.

(** *** read_stream *)

(** The loop [while( true )] of [read_stream].  It is left by [return -1]
    (first component [false]) or by [break] ([true]); the other
    components are [total_size], [newline_added], the stream and the
    state at that point.  Every turn that is not the last takes at least
    one byte from the stream, which bounds the number of turns: [fuel]
    counts them, and [read_stream_total] shows it is never used up. *)
Fixpoint read_stream_loop (cfg : config) (fuel : nat) (fp : istream)
  (lp : nat) (up : option nat) (total_size : Z) (newline_added : bool)
  (st : ed) : option (bool * Z * bool * istream * ed) :=
  match fuel with
  | O => None
  | S fuel =>
      match read_stream_line cfg fp 0 newline_added st with
      | (None, _, newline_added, fp, st) =>
          Some (false, total_size, newline_added, fp, st)
      | (Some s, size, newline_added, fp, st) =>
          if size <=? 0 then Some (true, total_size, newline_added, fp, st)
          else
            let total_size := total_size + size in
            let st := disable_interrupts st in
            match put_sbuf_line s (size + b2z newline_added) st with
            | (false, st) =>
                Some (false, total_size, newline_added, fp, enable_interrupts st)
            | (true, st) =>
                let lp := q_forw st lp in
                match up with
                | Some u =>
                    let st := set_tail u lp st in
                    let st := enable_interrupts st in
                    read_stream_loop cfg fuel fp lp up total_size newline_added st
                | None =>
                    match push_undo_atom UADD (current_addr st) (current_addr st) st with
                    | (None, st) =>
                        Some (false, total_size, newline_added, fp,
                              enable_interrupts st)
                    | (Some u, st) =>
                        let st := enable_interrupts st in
                        read_stream_loop cfg fuel fp lp (Some u) total_size
                                         newline_added st
                    end
                end
            end
      end
  end.

(** The result is the value returned ([-1] on error), the stream and the
    state afterwards. *)
Definition read_stream (cfg : config) (fp : istream) (addr : Z) (st : ed)
  : option (Z * istream * ed) :=
  let lp := search_line_node st addr in
  let o_isbinary := isbinary st in
  let appended := addr =? last_addr st in
  let o_unterminated_last_line := unterminated_last_line st in
  let st := set_current_addr addr st in
  match read_stream_loop cfg (S (length (pending fp))) fp lp None 0 false st with
  | None => None
  | Some (false, _, _, fp, st) => Some (-1, fp, st)
  | Some (true, total_size, newline_added, fp, st) =>
      let st :=
        if negb (addr =? 0) && appended && negb (total_size =? 0)
           && o_unterminated_last_line
        then fputs (bytes "Newline inserted" ++ [NL]) st
        else if newline_added && (negb appended || negb (isbinary st))
        then fputs (bytes "Newline appended" ++ [NL]) st
        else st in
      let total_size :=
        if negb appended && isbinary st && negb o_isbinary && newline_added
        then total_size + 1 else total_size in
      let st :=
        if appended && isbinary st && (newline_added || (total_size =? 0))
        then set_unterminated_line
               (Some (node (node_at st (search_line_node st (last_addr st))))) st
        else st in
      Some (total_size, fp, st)
  end.

(** *** read_stream, whatever the line collection does

    [put_sbuf_line] and [push_undo_atom] live in buffer.c, which is not
    among the sources.  The loop and the function are given once more
    with the two as parameters, so that a statement can cover every
    behaviour they may have, their failures included. *)
Section Collaborators.

Variable put : list byte -> Z -> ed -> bool * ed.
Variable push : undo_type -> Z -> Z -> ed -> option nat * ed.

Fixpoint read_stream_loop_with (cfg : config) (fuel : nat) (fp : istream)
  (lp : nat) (up : option nat) (total_size : Z) (newline_added : bool)
  (st : ed) : option (bool * Z * bool * istream * ed) :=
  match fuel with
  | O => None
  | S fuel =>
      match read_stream_line cfg fp 0 newline_added st with
      | (None, _, newline_added, fp, st) =>
          Some (false, total_size, newline_added, fp, st)
      | (Some s, size, newline_added, fp, st) =>
          if size <=? 0 then Some (true, total_size, newline_added, fp, st)
          else
            let total_size := total_size + size in
            let st := disable_interrupts st in
            match put s (size + b2z newline_added) st with
            | (false, st) =>
                Some (false, total_size, newline_added, fp, enable_interrupts st)
            | (true, st) =>
                let lp := q_forw st lp in
                match up with
                | Some u =>
                    let st := set_tail u lp st in
                    let st := enable_interrupts st in
                    read_stream_loop_with cfg fuel fp lp up total_size
                                          newline_added st
                | None =>
                    match push UADD (current_addr st) (current_addr st) st with
                    | (None, st) =>
                        Some (false, total_size, newline_added, fp,
                              enable_interrupts st)
                    | (Some u, st) =>
                        let st := enable_interrupts st in
                        read_stream_loop_with cfg fuel fp lp (Some u) total_size
                                              newline_added st
                    end
                end
            end
      end
  end.

Definition read_stream_with (cfg : config) (fp : istream) (addr : Z) (st : ed)
  : option (Z * istream * ed) :=
  let lp := search_line_node st addr in
  let o_isbinary := isbinary st in
  let appended := addr =? last_addr st in
  let o_unterminated_last_line := unterminated_last_line st in
  let st := set_current_addr addr st in
  match read_stream_loop_with cfg (S (length (pending fp))) fp lp None 0 false st
  with
  | None => None
  | Some (false, _, _, fp, st) => Some (-1, fp, st)
  | Some (true, total_size, newline_added, fp, st) =>
      let st :=
        if negb (addr =? 0) && appended && negb (total_size =? 0)
           && o_unterminated_last_line
        then fputs (bytes "Newline inserted" ++ [NL]) st
        else if newline_added && (negb appended || negb (isbinary st))
        then fputs (bytes "Newline appended" ++ [NL]) st
        else st in
      let total_size :=
        if negb appended && isbinary st && negb o_isbinary && newline_added
        then total_size + 1 else total_size in
      let st :=
        if appended && isbinary st && (newline_added || (total_size =? 0))
        then set_unterminated_line
               (Some (node (node_at st (search_line_node st (last_addr st))))) st
        else st in
      Some (total_size, fp, st)
  end.

End Collaborators.

(** *** write_stream *)

(** The loop [while( --len >= 0 ) if( fputc( *p++, fp ) == EOF ) ...];
    [false] says that a byte was refused. *)
Fixpoint fput_bytes (p : list byte) (len : nat) (fp : ostream) : bool * ostream :=
  match len with
  | O => (true, fp)
  | S n =>
      match fputc (hd NUL p) fp with
      | None => (false, fp)
      | Some fp => fput_bytes (tl p) n fp
      end
  end.

(** The loop [while( from && from <= to )] of [write_stream]; [from] grows
    by one each turn, so [to - from + 1] turns are enough:
    [write_stream_total] shows that the fuel is never used up. *)
Fixpoint write_stream_loop (fuel : nat) (fp : ostream) (from to : Z) (lp : nat)
  (size : Z) (st : ed) : option (Z * ostream * ed) :=
  if negb (from =? 0) && (from <=? to) then
    match fuel with
    | O => None
    | S fuel =>
        match get_sbuf_line st lp with
        | None => Some (-1, fp, st)
        | Some p =>
            let len := len (node_at st lp) in
            let '(p, len) :=
              if negb (from =? last_addr st) || negb (isbinary st)
                 || negb (unterminated_last_line st)
              then (poke p (Z.to_nat len) NL, len + 1)
              else (p, len) in
            let size := size + len in
            match fput_bytes p (Z.to_nat len) fp with
            | (false, fp) =>
                let st := show_strerror None st in
                let st := set_error_msg "Cannot write file" st in
                Some (-1, fp, st)
            | (true, fp) =>
                write_stream_loop fuel fp (from + 1) to (q_forw st lp) size st
            end
        end
    end
  else Some (size, fp, st).

Definition write_stream (fp : ostream) (from to : Z) (st : ed)
  : option (Z * ostream * ed) :=
  write_stream_loop (Z.to_nat (to - from + 1)) fp from to
                    (search_line_node st from) 0 st.

(** *** write_file *)

(** The calls by which [write_file] opens and closes a stream. *)
Inductive libcall :=
| Fopen (path mode : list byte)
| Popen (command mode : list byte)
| Fclose (path : list byte)
| Pclose (command : list byte).

(** The operating system as [write_file] sees it: the regular files and
    their contents, whether the next open succeeds, whether [malloc]
    finds memory, how many bytes the opened stream accepts, what the next
    close returns, and the record of the calls made. *)
Record world := {
  disk : list byte -> option (list byte);
  open_ok : bool;
  malloc_ok : bool;
  dev_room : nat;
  close_status : Z;
  calls : list libcall
}.

(** What a call does: it returns, or the C standard leaves its behaviour
    undefined; [Unfinished] is the model's own, a loop whose bound was
    used up. *)
Inductive outcome (A : Type) : Type :=
| Returns (a : A)
| Undefined
| Unfinished.

Arguments Returns {A} a.
Arguments Undefined {A}.
Arguments Unfinished {A}.

Definition bytes_eqb (a b : list byte) : bool :=
  if list_eq_dec Byte.byte_eq_dec a b then true else false.

Definition store (path : list byte) (content : list byte) (w : world) : world :=
  {| disk := fun q => if bytes_eqb q path then Some content else disk w q;
     open_ok := open_ok w; malloc_ok := malloc_ok w; dev_room := dev_room w;
     close_status := close_status w; calls := calls w |}.

Definition log (c : libcall) (w : world) : world :=
  {| disk := disk w; open_ok := open_ok w; malloc_ok := malloc_ok w;
     dev_room := dev_room w;
     close_status := close_status w; calls := calls w ++ [c] |}.

Definition contents (w : world) (path : list byte) : list byte :=
  match disk w path with Some c => c | None => [] end.

(** [fopen( path, mode )] for a mode that starts with [w] or [a]: the
    first truncates the file or creates it, the second creates it when it
    is missing. *)
Definition fopen (path mode : list byte) (w : world) : option ostream * world :=
  let w := log (Fopen path mode) w in
  if open_ok w then
    let w := if Byte.eqb (hd NUL mode) x77 then store path [] w
             else store path (contents w path) w in
    (Some {| dest := File path; written := []; room := dev_room w |}, w)
  else (None, w).

Definition popen (command mode : list byte) (w : world) : option ostream * world :=
  let w := log (Popen command mode) w in
  if open_ok w
  then (Some {| dest := Pipe command; written := []; room := dev_room w |}, w)
  else (None, w).

(** [fclose] and [pclose]: the bytes written reach the file. *)
Definition fclose (fp : ostream) (w : world) : Z * world :=
  match dest fp with
  | File path =>
      (close_status w,
       log (Fclose path) (store path (contents w path ++ written fp) w))
  | Pipe command => (close_status w, log (Fclose command) w)
  end.

Definition pclose (fp : ostream) (w : world) : Z * world :=
  match dest fp with
  | File path => (close_status w, log (Pclose path) w)
  | Pipe command => (close_status w, log (Pclose command) w)
  end.

(** The block under [__OS2__] that prepares [binmode], the mode handed
    to [fopen].  In text mode, and when [malloc] returns 0, [binmode] is
    the caller's [mode] itself: [strcpy( binmode, mode )] then copies a
    string onto itself and [strcat( binmode, "b" )] writes after the end
    of the caller's string, both of which the C standard leaves
    undefined; the result is [None].  Otherwise [binmode] is a fresh
    buffer of [strlen( mode ) + 2] bytes, which receives [mode] followed
    by [b]. *)
Definition os2_binmode (mode : list byte) (w : world) (st : ed)
  : option (list byte) :=
  let aliased := if textmode st then true else negb (malloc_ok w) in
  if aliased then None else Some (mode ++ bytes "b").

(** [filename] is the C string without its NUL; a return carries the
    value returned, the world and the state afterwards. *)
Definition write_file (cfg : config) (filename mode : list byte)
  (from to : Z) (w : world) (st : ed) : outcome (Z * world * ed) :=
  match (if os2 cfg then os2_binmode mode w st else Some mode) with
  | None => Undefined
  | Some binmode =>
      let is_pipe := Byte.eqb (hd NUL filename) BANG in
      let '(fp, w) :=
        if is_pipe then popen (tl filename) (bytes "w") w
        else fopen (strip_escapes filename) binmode w in
      match fp with
      | None =>
          let st := show_strerror (Some filename) st in
          let st := set_error_msg "Cannot open output file" st in
          Returns (-1, w, st)
      | Some fp =>
          match write_stream fp from to st with
          | None => Unfinished
          | Some (size, fp, st) =>
              let '(ret, w) := if is_pipe then pclose fp w else fclose fp w in
              if size <? 0 then Returns (-1, w, st)
              else if negb (ret =? 0) then
                let st := show_strerror (Some filename) st in
                let st := set_error_msg "Cannot close output file" st in
                Returns (-1, w, st)
              else
                let st := if negb (scripted cfg)
                          then fputs (decimal size ++ [NL]) st else st in
                Returns (if negb (from =? 0) && (from <=? to)
                         then to - from + 1 else 0,
                         w, st)
          end
      end
  end.

(** *** print_lines *)

(** Modelled from the spec: [inc_addr] (buffer.c is missing), the address
    after [addr] in the ring of the collection, which closes on
    address 0. *)
Definition inc_addr (st : ed) (addr : Z) : Z :=
  if addr + 1 >? last_addr st then 0 else addr + 1.

(** The loop [while( bp != ep )] of [print_lines].  It is left by
    [return false] or by reaching [ep]; [bp] walks the ring, so the
    nodes of the ring bound the number of turns. *)
Fixpoint print_lines_loop (cfg : config) (fuel : nat) (bp ep : nat) (from : Z)
  (pflags : Z) (st : ed) : option (bool * ed) :=
  if Nat.eqb bp ep then Some (true, st)
  else
    match fuel with
    | O => None
    | S fuel =>
        match get_sbuf_line st bp with
        | None => Some (false, st)
        | Some s =>
            let st := set_current_addr from st in
            let st := print_line cfg s (len (node_at st bp)) pflags st in
            print_lines_loop cfg fuel (q_forw st bp) ep (from + 1) pflags st
        end
    end.

Definition print_lines (cfg : config) (from to : Z) (pflags : Z) (st : ed)
  : option (bool * ed) :=
  let ep := search_line_node st (inc_addr st to) in
  let bp := search_line_node st from in
  if from =? 0 then Some (false, set_error_msg "Invalid address" st)
  else print_lines_loop cfg (length (ring st)) bp ep from pflags st.

(** *** get_extended_line *)

(** The two statements [--len; buf[len-1] = '\n';] and, when the escaped
    newlines are stripped, [--len]: [b] holds the cells [buf[0 .. len-1]]. *)
Definition strip_trailing_esc (b : list byte) (strip_escaped_newlines : bool)
  : list byte :=
  let b := removelast b in
  let b := poke b (length b - 1) NL in
  if strip_escaped_newlines then removelast b else b.

(** The loop [while( true )] of [get_extended_line]: [b] holds the cells
    [buf[0 .. len-1]].  Every turn that is not the last takes a line from
    standard input, which bounds the number of turns. *)
Fixpoint get_extended_loop (cfg : config) (fuel : nat) (stdin : istream)
  (b : list byte) (strip_escaped_newlines : bool) (st : ed)
  : option (option (list byte) * istream * ed) :=
  match fuel with
  | O => None
  | S fuel =>
      match get_stdin_line cfg stdin st with
      | (None, _, stdin, st) => Some (None, stdin, st)          (* error *)
      | (Some s, len2, stdin, st) =>
          if len2 <=? 0 then Some (None, stdin, st)             (* EOF *)
          else
            match resize_buffer cfg (Z.of_nat (length b) + len2 + 1) st with
            | (false, st) => Some (None, stdin, st)
            | (true, st) =>
                let b := b ++ firstn (Z.to_nat len2) s in
                if (len2 <? 2)
                   || negb (trailing_escape b (Z.of_nat (length b) - 1))
                then Some (Some b, stdin, st)
                else get_extended_loop cfg fuel stdin
                       (strip_trailing_esc b strip_escaped_newlines)
                       strip_escaped_newlines st
            end
      end
  end.

(** [ibuf] is the buffer at [*ibufpp].  The result is [None] when the
    scan for the newline leaves the buffer, which the callers exclude.
    Otherwise it holds the value returned, the buffer at [*ibufpp]
    afterwards, the length that is stored through [lenp] when [lenp] is
    not null (0 when nothing is stored), standard input and the state. *)
Definition get_extended_line (cfg : config) (ibuf : list byte)
  (strip_escaped_newlines : bool) (stdin : istream) (st : ed)
  : option (bool * list byte * Z * istream * ed) :=
  match index_of NL ibuf with
  | None => None
  | Some k =>
      let len := Z.of_nat (S k) in
      if (len <? 2) || negb (trailing_escape ibuf (len - 1))
      then Some (true, ibuf, len, stdin, st)
      else
        match resize_buffer cfg (len + 1) st with
        | (false, st) => Some (false, ibuf, 0, stdin, st)
        | (true, st) =>
            let b := firstn (Z.to_nat len) ibuf in
            let b := strip_trailing_esc b strip_escaped_newlines in
            match get_extended_loop cfg (S (length (pending stdin))) stdin b
                    strip_escaped_newlines st with
            | None => None
            | Some (None, stdin, st) => Some (false, ibuf, 0, stdin, st)
            | Some (Some b, stdin, st) =>
                Some (true, b ++ [NUL], Z.of_nat (length b), stdin, st)
            end
        end
  end.

(** *** read_file *)

(** What the C library delivers to a reader: the output of a shell
    command, and the translation it applies to a file that is opened
    without [b] in the mode (the identity on a POSIX system). *)
Record source := {
  command_output : list byte -> list byte;
  text_filter : list byte -> list byte
}.

Definition binary_mode (mode : list byte) : bool :=
  existsb (fun c => Byte.eqb c x62) mode.

(** [fopen( path, mode )] for a mode that starts with [r]: the file must
    exist; the stream delivers its contents. *)
Definition fopen_r (src : source) (path mode : list byte) (w : world)
  : option istream * world :=
  let w := log (Fopen path mode) w in
  if open_ok w then
    match disk w path with
    | Some c =>
        (Some {| pending := if binary_mode mode then c else text_filter src c;
                 ferror_ := false |}, w)
    | None => (None, w)
    end
  else (None, w).

Definition popen_r (src : source) (command mode : list byte) (w : world)
  : option istream * world :=
  let w := log (Popen command mode) w in
  if open_ok w
  then (Some {| pending := command_output src command; ferror_ := false |}, w)
  else (None, w).

Definition fclose_r (path : list byte) (w : world) : Z * world :=
  (close_status w, log (Fclose path) w).

Definition pclose_r (command : list byte) (w : world) : Z * world :=
  (close_status w, log (Pclose command) w).

(** The result is the value returned, the world and the state
    afterwards. *)
Definition read_file (cfg : config) (src : source) (filename : list byte)
  (addr : Z) (w : world) (st : ed) : option (Z * world * ed) :=
  let is_pipe := Byte.eqb (hd NUL filename) BANG in
  let mode :=
    if os2 cfg then (if textmode st then bytes "r" else bytes "rb")
    else bytes "r" in
  let '(fp, w) :=
    if is_pipe then popen_r src (tl filename) (bytes "r") w
    else fopen_r src (strip_escapes filename) mode w in
  match fp with
  | None =>
      let st := show_strerror (Some filename) st in
      let st := set_error_msg "Cannot open input file" st in
      Some (-1, w, st)
  | Some fp =>
      match read_stream cfg fp addr st with
      | None => None
      | Some (size, fp, st) =>
          let '(ret, w) :=
            if is_pipe then pclose_r (tl filename) w
            else fclose_r (strip_escapes filename) w in
          if size <? 0 then Some (-1, w, st)
          else if negb (ret =? 0) then
            let st := show_strerror (Some filename) st in
            let st := set_error_msg "Cannot close input file" st in
            Some (-1, w, st)
          else
            let st := if negb (scripted cfg)
                      then fputs (decimal size ++ [NL]) st else st in
            Some (current_addr st - addr, w, st)
      end
  end.

(** ** Notions used in the statements *)

Definition is_nil {A} (l : list A) : bool :=
  match l with [] => true | _ :: _ => false end.

(** An input stream that delivers [bs] and then ends without error. *)
Definition clean (bs : list byte) : istream :=
  {| pending := bs; ferror_ := false |}.

(** [l] holds no newline; [l] holds a NUL. *)
Definition nl_free (l : list byte) : Prop := ~ In NL l.
Definition has_nul (l : list byte) : bool := existsb (fun c => Byte.eqb c NUL) l.

(** The state after bytes [l] have been read: a NUL among them has set
    the binary flag. *)
Definition mark_binary (l : list byte) (st : ed) : ed :=
  if has_nul l then set_binary st else st.

(** The bytes of a sequence of newline-terminated lines. *)
Definition unlines (ls : list (list byte)) : list byte :=
  flat_map (fun l => l ++ [NL]) ls.

(** The number of consecutive backslashes at the start of [l]. *)
Fixpoint leading_backslashes (l : list byte) : nat :=
  match l with
  | [] => 0%nat
  | c :: r => if Byte.eqb c BSLASH then S (leading_backslashes r) else 0%nat
  end.

(** The number of consecutive backslashes at the end of [l]. *)
Definition trailing_backslashes (l : list byte) : nat :=
  leading_backslashes (rev l).

(** The letter of the seven control characters that have one. *)
Definition mnemonic (ch : byte) : option byte :=
  match ch with
  | x07 => Some x61 (* a *)
  | x08 => Some x62 (* b *)
  | x0c => Some x66 (* f *)
  | x0a => Some x6e (* n *)
  | x0d => Some x72 (* r *)
  | x09 => Some x74 (* t *)
  | x0b => Some x76 (* v *)
  | _ => None
  end.

(** The three octal digits of a value below 256, as characters. *)
Definition octal3 (v : Z) : list byte :=
  [to_char (48 + v / 64); to_char (48 + (v / 8) mod 8); to_char (48 + v mod 8)].

(** The escaped form of a byte, as the description of the list mode
    gives it. *)
Definition rendering (ch : byte) : list byte :=
  if (32 <=? uchar ch) && (uchar ch <=? 126) then
    if Byte.eqb ch DOLLAR || Byte.eqb ch BSLASH then [BSLASH; ch] else [ch]
  else
    match mnemonic ch with
    | Some m => [BSLASH; m]
    | None => BSLASH :: octal3 (uchar ch)
    end.

(** A byte that the list mode prints as itself. *)
Definition plain (ch : byte) : bool :=
  (32 <=? uchar ch) && (uchar ch <=? 126)
  && negb (Byte.eqb ch DOLLAR) && negb (Byte.eqb ch BSLASH).

(** The wrap sequence that [print_line] inserts. *)
Definition wrap : list byte := [BSLASH; NL].

(** The column after a byte has been printed in list mode. *)
Definition next_col (cfg : config) (ch : byte) (col : Z) : Z :=
  (if col + 1 >? window_columns cfg then 1 else col + 1)
  + Z.of_nat (length (rendering ch)) - 1.

(** What the list mode prints for the bytes [p] from column [col] on:
    for each byte the wrap sequence, when the column is about to pass the
    window width, and then the escaped form of the byte. *)
Fixpoint list_output (cfg : config) (p : list byte) (col : Z) : list byte :=
  match p with
  | [] => []
  | ch :: r =>
      (if col + 1 >? window_columns cfg then wrap else [])
      ++ rendering ch ++ list_output cfg r (next_col cfg ch col)
  end.

(** What [print_line] prints before and after the bytes of the line. *)
Definition line_prefix (cfg : config) (pflags : Z) (st : ed) : list byte :=
  if flag pflags (GNP cfg) then decimal (current_addr st) ++ [TAB] else [].

Definition line_trailer (cfg : config) (pflags : Z) : list byte :=
  (if negb (traditional cfg) && flag pflags (GLS cfg) then [DOLLAR] else [])
  ++ [NL].

(** No physical line of [o] that ends in a wrap sequence holds more than
    [B] characters before it: [l] ranges over the lines of [o], each
    starting at the beginning of [o] or after a newline. *)
Definition wrap_bound (B : Z) (o : list byte) : Prop :=
  forall a l b,
    o = a ++ l ++ wrap ++ b ->
    nl_free l ->
    (a = [] \/ exists a', a = a' ++ [NL]) ->
    Z.of_nat (length l) <= B.

(** The same, computed: [k] characters are already on the current line. *)
Fixpoint runs_ok (B : Z) (k : Z) (o : list byte) : bool :=
  match o with
  | [] => true
  | c :: r =>
      if Byte.eqb c NL then (k - 1 <=? B) && runs_ok B 0 r
      else runs_ok B (k + 1) r
  end.

(** The addresses [from .. to]. *)
Definition addresses (from to : Z) : list Z :=
  map (fun i => from + Z.of_nat i) (seq 0 (Z.to_nat (to - from + 1))).

(** What the emit step writes for the line at address [a]: its stored
    bytes, then a newline unless [a] is the last address, the session is
    binary and the line holds the unterminated-line marker. *)
Definition emitted_line (st : ed) (a : Z) : list byte :=
  let lp := node_at st (Z.to_nat a) in
  text lp ++
  (if (a =? last_addr st) && isbinary st && marks st (node lp)
   then [] else [NL]).

(** The output stream [fp] after it has accepted the bytes [s]. *)
Definition advance (fp : ostream) (s : list byte) : ostream :=
  {| dest := dest fp; written := written fp ++ s;
     room := room fp - length s |}.

(** What the emit step writes for the nodes [mid], which are followed in
    the collection by the nodes [post]. *)
Fixpoint emit_nodes (st : ed) (mid post : list line_t) : list byte :=
  match mid with
  | [] => []
  | x :: r =>
      text x
      ++ (if is_nil (r ++ post) && isbinary st && marks st (node x)
          then [] else [NL])
      ++ emit_nodes st r post
  end.

(** The marker, when set, points to a node that has been allocated. *)
Definition marker_allocated (st : ed) : Prop :=
  forall p, unterminated_line st = Some p -> (p < next_node st)%nat.

(** The nodes allocated from [n] on for the texts [ls]. *)
Fixpoint fresh_nodes (n : nat) (ls : list (list byte)) : list line_t :=
  match ls with
  | [] => []
  | l :: r => {| node := n; text := l |} :: fresh_nodes (S n) r
  end.

(** The last line of a stream, when it lacks its newline, is a line. *)
Definition tail_lines (tail : list byte) : list (list byte) :=
  match tail with [] => [] | _ :: _ => [tail] end.

(** The message that [read_stream] prints. *)
Definition newline_inserted : list byte := bytes "Newline inserted" ++ [NL].
Definition newline_appended : list byte := bytes "Newline appended" ++ [NL].

(** The message of [read_stream] for a stream [bs] read without error at
    address [addr] in the session [st]; [unterminated] says that [bs] is
    not empty and lacks its final newline. *)
Definition ingest_message (st : ed) (addr : Z) (bs : list byte)
  (unterminated : bool) : list byte :=
  if negb (addr =? 0) && (addr =? last_addr st) && negb (is_nil bs)
     && unterminated_last_line st
  then newline_inserted
  else if unterminated
          && (negb (addr =? last_addr st) || negb (binary_ st || has_nul bs))
  then newline_appended
  else [].

(** The size that [read_stream] returns for that stream. *)
Definition ingest_size (st : ed) (addr : Z) (bs : list byte)
  (unterminated : bool) : Z :=
  Z.of_nat (length bs)
  + (if unterminated && negb (binary_ st || has_nul bs) then 1 else 0)
  + (if negb (addr =? last_addr st) && has_nul bs && negb (binary_ st)
        && unterminated then 1 else 0).

(** What [print_line] prints for the bytes [p] of the line at address
    [addr]: the line number when asked for, the bytes, escaped and
    wrapped in list mode, and the trailer. *)
Definition printed_line (cfg : config) (pflags : Z) (addr : Z) (p : list byte)
  : list byte :=
  (if flag pflags (GNP cfg) then decimal addr ++ [TAB] else [])
  ++ (if flag pflags (GLS cfg)
      then list_output cfg p (if flag pflags (GNP cfg) then 8 else 0)
      else p)
  ++ line_trailer cfg pflags.

(** What [print_lines] prints for the nodes [mid], the first of which
    has the address [from]. *)
Fixpoint printed_nodes (cfg : config) (pflags : Z) (from : Z)
  (mid : list line_t) : list byte :=
  match mid with
  | [] => []
  | x :: r =>
      printed_line cfg pflags from (text x)
      ++ printed_nodes cfg pflags (from + 1) r
  end.

(** The collection has a last line, and this line holds the
    unterminated-line marker. *)
Definition last_line_marked (st : ed) : bool :=
  negb (is_nil (lines st)) && marks st (node (last (lines st) buffer_head)).

(** The call of [write_file] stays clear of the undefined copy into the
    caller's [mode]: the build is not the OS/2 one, or the session is not
    in text mode and [malloc] finds memory. *)
Definition mode_buffer_ok (cfg : config) (w : world) (st : ed) : bool :=
  negb (os2 cfg) || (negb (textmode st) && malloc_ok w).

(** A well-formed collection: no stored line holds a newline, the nodes
    are distinct, allocated and other than the head, and the marker,
    when set, points to an allocated node. *)
Definition wf_collection (st : ed) : Prop :=
  Forall (fun x => nl_free (text x) /\ (0 < node x < next_node st)%nat) (lines st)
  /\ NoDup (map node (lines st))
  /\ (0 < next_node st)%nat
  /\ marker_allocated st.

(** ** Sample inputs

    The configurations, sessions and worlds on which the statements
    below are exercised: the OS/2 build on a terminal of 72 columns and
    on one of 10, sessions with an empty collection in text mode and in
    binary mode, with two lines, and with a last line that holds the
    marker. *)

Definition sample_cfg : config :=
  {| os2 := true; mem_limit := 2147483646; window_columns := 72;
     traditional := false; scripted := false; GLS := 2; GNP := 4 |}.

Definition empty_ed : ed :=
  {| lines := []; current_addr_ := 0; next_node := 1%nat; ustack := [];
     mutex := 0; binary_ := false; errmsg := EmptyString;
     unterminated_line := None; linenum_ := 0; textmode := false;
     stdout := []; stderr := [] |}.

Definition empty_binary_ed : ed := set_binary empty_ed.

(** A text-mode session that holds the two lines [ab] and [cd]. *)
Definition two_lines_ed : ed :=
  {| lines := [{| node := 1%nat; text := bytes "ab" |};
               {| node := 2%nat; text := bytes "cd" |}];
     current_addr_ := 2; next_node := 3%nat; ustack := [];
     mutex := 0; binary_ := false; errmsg := EmptyString;
     unterminated_line := None; linenum_ := 0; textmode := false;
     stdout := []; stderr := [] |}.

(** A binary session that holds the line [ab], read from a file that
    lacked its last newline: the line holds the marker. *)
Definition marked_ed : ed :=
  {| lines := [{| node := 1%nat; text := bytes "ab" |}];
     current_addr_ := 1; next_node := 2%nat; ustack := [];
     mutex := 0; binary_ := true; errmsg := EmptyString;
     unterminated_line := Some 1%nat; linenum_ := 0; textmode := false;
     stdout := []; stderr := [] |}.

(** The OS/2 build on a terminal of 10 columns. *)
Definition narrow_cfg : config :=
  {| os2 := true; mem_limit := 2147483646; window_columns := 10;
     traditional := false; scripted := false; GLS := 2; GNP := 4 |}.

(** A world without files, where opening and closing succeed. *)
Definition sample_world : world :=
  {| disk := fun _ => None; open_ok := true; malloc_ok := true; dev_room := 100;
     close_status := 0; calls := [] |}.

(** An output stream to the file [f], with room for 100 bytes. *)
Definition sample_out : ostream :=
  {| dest := File (bytes "f"); written := []; room := 100 |}.

(** ** Bytes *)

Lemma byte_eqb_eq (a b : byte) : Byte.eqb a b = true <-> a = b.
Proof.
  split.
  - apply Byte.byte_dec_bl.
  - apply Byte.byte_dec_lb.
Qed.

Lemma byte_eqb_neq (a b : byte) : Byte.eqb a b = false <-> a <> b.
Proof.
  split.
  - apply Byte.eqb_false.
  - intro H. destruct (Byte.eqb a b) eqn:E; [|reflexivity].
    apply byte_eqb_eq in E. contradiction.
Qed.

Lemma byte_eqb_refl (a : byte) : Byte.eqb a a = true.
Proof. now apply byte_eqb_eq. Qed.

(** ** trailing_escape *)

Lemma firstn_snoc (s : list byte) (n : nat) :
  (n < length s)%nat -> firstn (S n) s = firstn n s ++ [nth n s NUL].
Proof.
  revert n. induction s as [|c s IH]; intros n H; simpl in H.
  - lia.
  - destruct n as [|n]; [reflexivity|].
    change (firstn (S (S n)) (c :: s)) with (c :: firstn (S n) s).
    rewrite IH by lia. reflexivity.
Qed.

Lemma trailing_escape_loop_parity (s : list byte) (n : nat) (b : bool) :
  (n <= length s)%nat ->
  trailing_escape_loop s n b
  = xorb b (Nat.odd (trailing_backslashes (firstn n s))).
Proof.
  revert b. induction n as [|n IH]; intros b H.
  - simpl. now rewrite xorb_false_r.
  - simpl trailing_escape_loop.
    rewrite firstn_snoc by lia.
    unfold trailing_backslashes. rewrite rev_app_distr. simpl.
    destruct (Byte.eqb (nth n s NUL) BSLASH).
    + rewrite IH by lia. unfold trailing_backslashes.
      rewrite Nat.odd_succ, <- Nat.negb_odd.
      now destruct b, (Nat.odd (leading_backslashes (rev (firstn n s)))).
    + simpl. now rewrite xorb_false_r.
Qed.

(** C6. For a string [s] and a length [len] within it, [trailing_escape]
    is true exactly when the number of consecutive backslashes at the end
    of the first [len] bytes of [s] is odd.  In particular, for a line
    [p] that does not itself end in a backslash, [p] followed by two
    backslashes and a newline has even parity and [p] followed by one
    backslash and a newline has odd parity, the newline being left out of
    the length as the callers do. *)
Theorem trailing_escape_odd (s p : list byte) (len : Z) :
  len <= Z.of_nat (length s) ->
  trailing_backslashes p = 0%nat ->
  (trailing_escape s len = true
   <-> Nat.odd (trailing_backslashes (firstn (Z.to_nat len) s)) = true)
  /\ trailing_escape (p ++ [BSLASH; BSLASH; NL]) (Z.of_nat (length p) + 2) = false
  /\ trailing_escape (p ++ [BSLASH; NL]) (Z.of_nat (length p) + 1) = true.
Proof.
  intros Hlen Hp.
  assert (G : forall q n, (n <= length q)%nat ->
            trailing_escape q (Z.of_nat n)
            = Nat.odd (trailing_backslashes (firstn n q))).
  { intros q n Hn. unfold trailing_escape. rewrite Nat2Z.id.
    now rewrite trailing_escape_loop_parity. }
  split; [|split].
  - unfold trailing_escape.
    rewrite trailing_escape_loop_parity by lia. reflexivity.
  - replace (Z.of_nat (length p) + 2) with (Z.of_nat (length p + 2)) by lia.
    rewrite G by (rewrite length_app; simpl; lia).
    replace (p ++ [BSLASH; BSLASH; NL]) with ((p ++ [BSLASH; BSLASH]) ++ [NL])
      by (now rewrite <- app_assoc).
    rewrite firstn_app.
    replace (length p + 2 - length (p ++ [BSLASH; BSLASH]))%nat with 0%nat
      by (rewrite length_app; simpl; lia).
    rewrite firstn_all2 by (rewrite length_app; simpl; lia).
    simpl firstn. rewrite app_nil_r.
    unfold trailing_backslashes in *. rewrite rev_app_distr. simpl.
    now rewrite Hp.
  - replace (Z.of_nat (length p) + 1) with (Z.of_nat (length p + 1)) by lia.
    rewrite G by (rewrite length_app; simpl; lia).
    replace (p ++ [BSLASH; NL]) with ((p ++ [BSLASH]) ++ [NL])
      by (now rewrite <- app_assoc).
    rewrite firstn_app.
    replace (length p + 1 - length (p ++ [BSLASH]))%nat with 0%nat
      by (rewrite length_app; simpl; lia).
    rewrite firstn_all2 by (rewrite length_app; simpl; lia).
    simpl firstn. rewrite app_nil_r.
    unfold trailing_backslashes in *. rewrite rev_app_distr. simpl.
    now rewrite Hp.
Qed.

Lemma trailing_escape_odd_witness :
  (trailing_escape (bytes "ab" ++ [BSLASH; BSLASH; BSLASH]) 5 = true
   <-> Nat.odd (trailing_backslashes (firstn (Z.to_nat 5) (bytes "ab" ++ [BSLASH; BSLASH; BSLASH]))) = true)
  /\ trailing_escape (bytes "ab" ++ [BSLASH; BSLASH; NL]) (Z.of_nat (length (bytes "ab")) + 2) = false
  /\ trailing_escape (bytes "ab" ++ [BSLASH; NL]) (Z.of_nat (length (bytes "ab")) + 1) = true.
Proof.
  apply (trailing_escape_odd (bytes "ab" ++ [BSLASH; BSLASH; BSLASH]) (bytes "ab") 5).
  - vm_compute. discriminate.
  - reflexivity.
Defined.

(** ** print_line: the escaped form of a byte *)

Lemma putchar_fputs (c : byte) (st : ed) : putchar c st = fputs [c] st.
Proof. reflexivity. Qed.

Lemma fputs_fputs (a b : list byte) (st : ed) :
  fputs b (fputs a st) = fputs (a ++ b) st.
Proof. unfold fputs, set_stdout. simpl. now rewrite app_assoc. Qed.

Lemma fputs_nil (st : ed) : fputs [] st = st.
Proof. destruct st. unfold fputs, set_stdout. simpl. now rewrite app_nil_r. Qed.

Lemma stdout_fputs (s : list byte) (st : ed) : stdout (fputs s st) = stdout st ++ s.
Proof. reflexivity. Qed.

Lemma print_char_list (cfg : config) (pflags : Z) (ch : byte) (col : Z) (st : ed) :
  flag pflags (GLS cfg) = true ->
  print_char cfg pflags ch col st
  = (next_col cfg ch col,
     fputs ((if col + 1 >? window_columns cfg then wrap else []) ++ rendering ch) st).
Proof.
  intro H. unfold print_char, next_col. rewrite H. simpl negb. cbv iota.
  destruct (col + 1 >? window_columns cfg).
  - destruct ch; cbn; rewrite ?putchar_fputs, ?fputs_fputs; f_equal; lia.
  - destruct ch; cbn; rewrite ?putchar_fputs, ?fputs_fputs; f_equal; lia.
Qed.

Lemma print_loop_list (cfg : config) (pflags : Z) (p : list byte) (n : nat) :
  flag pflags (GLS cfg) = true ->
  forall (col : Z) (st : ed),
    snd (print_loop cfg pflags p n col st)
    = fputs (list_output cfg (firstn n p) col) st.
Proof.
  intro H. revert p. induction n as [|n IH]; intros p col st.
  - destruct p; simpl; now rewrite fputs_nil.
  - destruct p as [|ch p]; [simpl; now rewrite fputs_nil|].
    cbn [print_loop firstn list_output].
    rewrite print_char_list by assumption.
    rewrite IH, fputs_fputs, <- app_assoc. reflexivity.
Qed.

Lemma print_line_list (cfg : config) (p : list byte) (len pflags : Z) (st : ed) :
  flag pflags (GLS cfg) = true ->
  stdout (print_line cfg p len pflags st)
  = stdout st ++ line_prefix cfg pflags st
    ++ list_output cfg (firstn (Z.to_nat len) p)
                   (if flag pflags (GNP cfg) then 8 else 0)
    ++ line_trailer cfg pflags.
Proof.
  intro H. unfold print_line, line_prefix, line_trailer. rewrite H.
  destruct (flag pflags (GNP cfg)).
  - pose proof (print_loop_list cfg pflags p (Z.to_nat len) H 8
                  (fputs (decimal (current_addr st) ++ [TAB]) st)) as E.
    destruct (print_loop cfg pflags p (Z.to_nat len) 8
                (fputs (decimal (current_addr st) ++ [TAB]) st)) as [c s1].
    simpl in E. subst s1.
    destruct (traditional cfg); simpl; rewrite <- !app_assoc; reflexivity.
  - pose proof (print_loop_list cfg pflags p (Z.to_nat len) H 0 st) as E.
    destruct (print_loop cfg pflags p (Z.to_nat len) 0 st) as [c s1].
    simpl in E. subst s1.
    destruct (traditional cfg); simpl; rewrite <- !app_assoc; reflexivity.
Qed.

(** C7.  In list mode [print_line] prints, between the optional line
    number and the trailer, for each of the first [len] bytes of the line
    the wrap sequence when one is due and then the escaped form of the
    byte.  The escaped form is the byte itself for 32..126 other than [$]
    and backslash; a backslash and the byte for these two; a backslash
    and the letter a, b, f, n, r, t or v for the seven control characters
    7, 8, 12, 10, 13, 9 and 11; a backslash and the three octal digits of
    the value for every other byte.  Byte 0 becomes backslash 000 and
    byte 7 becomes backslash a. *)
Theorem print_line_escaped_form (cfg : config) (p : list byte) (len pflags : Z)
  (ch : byte) (st : ed) :
  flag pflags (GLS cfg) = true ->
  stdout (print_line cfg p len pflags st)
  = stdout st ++ line_prefix cfg pflags st
    ++ list_output cfg (firstn (Z.to_nat len) p)
                   (if flag pflags (GNP cfg) then 8 else 0)
    ++ line_trailer cfg pflags
  /\ (plain ch = true -> rendering ch = [ch])
  /\ rendering DOLLAR = [BSLASH; DOLLAR]
  /\ rendering BSLASH = [BSLASH; BSLASH]
  /\ map rendering escapes
     = map (fun m => [BSLASH; m]) (bytes "abfnrtv")
  /\ (plain ch = false -> ch <> DOLLAR -> ch <> BSLASH -> ~ In ch escapes ->
      rendering ch = BSLASH :: octal3 (uchar ch))
  /\ rendering x00 = BSLASH :: bytes "000"
  /\ rendering x07 = BSLASH :: bytes "a".
Proof.
  intro H. split; [now apply print_line_list|].
  repeat split; try reflexivity.
  - destruct ch; simpl; intro E; try discriminate E; reflexivity.
  - intros Hp Hd Hb Hi. destruct ch; try reflexivity;
      try discriminate Hp; try (now elim Hd); try (now elim Hb);
      exfalso; apply Hi; simpl; tauto.
Qed.

Lemma print_line_escaped_form_witness :
  stdout (print_line sample_cfg [x07; x00; x24; x41] 4 2 empty_ed)
  = stdout empty_ed ++ line_prefix sample_cfg 2 empty_ed
    ++ list_output sample_cfg (firstn (Z.to_nat 4) [x07; x00; x24; x41])
                   (if flag 2 (GNP sample_cfg) then 8 else 0)
    ++ line_trailer sample_cfg 2
  /\ (plain x01 = true -> rendering x01 = [x01])
  /\ rendering DOLLAR = [BSLASH; DOLLAR]
  /\ rendering BSLASH = [BSLASH; BSLASH]
  /\ map rendering escapes
     = map (fun m => [BSLASH; m]) (bytes "abfnrtv")
  /\ (plain x01 = false -> x01 <> DOLLAR -> x01 <> BSLASH -> ~ In x01 escapes ->
      rendering x01 = BSLASH :: octal3 (uchar x01))
  /\ rendering x00 = BSLASH :: bytes "000"
  /\ rendering x07 = BSLASH :: bytes "a".
Proof.
  apply (print_line_escaped_form sample_cfg [x07; x00; x24; x41] 4 2 x01 empty_ed).
  reflexivity.
Defined.

(** ** read_stream_line *)

Lemma mark_binary_set (l : list byte) (st : ed) :
  mark_binary l (set_binary st) = set_binary st.
Proof. unfold mark_binary. now destruct (has_nul l). Qed.

Lemma mark_binary_cons (c : byte) (l : list byte) (st : ed) :
  mark_binary (c :: l) st
  = if Byte.eqb c NUL then set_binary st else mark_binary l st.
Proof. unfold mark_binary. simpl. now destruct (Byte.eqb c NUL). Qed.

Lemma isbinary_mark_binary (l : list byte) (st : ed) :
  isbinary (mark_binary l st) = binary_ st || has_nul l.
Proof.
  unfold mark_binary, isbinary. destruct (has_nul l); simpl.
  - now rewrite orb_true_r.
  - now rewrite orb_false_r.
Qed.

Lemma resize_buffer_ok (cfg : config) (n : Z) (st : ed) :
  n <= mem_limit cfg -> resize_buffer cfg n st = (true, st).
Proof.
  intro H. unfold resize_buffer.
  now replace (n <=? mem_limit cfg) with true by (symmetry; now apply Z.leb_le).
Qed.

Lemma nl_free_cons (c : byte) (l : list byte) :
  nl_free (c :: l) -> Byte.eqb c NL = false /\ nl_free l.
Proof.
  unfold nl_free. simpl. intro H. split.
  - apply byte_eqb_neq. intro E. apply H. left. now symmetry.
  - tauto.
Qed.

Lemma nul_not_nl (c : byte) : Byte.eqb c NUL = true -> Byte.eqb c NL = false.
Proof. intro H. apply byte_eqb_eq in H. now subst c. Qed.

(** A stream that ends before any newline is read to its end. *)
Lemma read_stream_line_loop_eof (cfg : config) (l buf : list byte) (st : ed) :
  nl_free l ->
  Z.of_nat (length buf + length l) + 2 <= mem_limit cfg ->
  read_stream_line_loop cfg l buf st = (AtEOF, buf ++ l, [], mark_binary l st).
Proof.
  revert buf st. induction l as [|c l IH]; intros buf st Hnl Hmem; simpl in Hmem.
  - simpl. rewrite resize_buffer_ok by lia. now rewrite app_nil_r.
  - simpl. rewrite resize_buffer_ok by lia.
    apply nl_free_cons in Hnl. destruct Hnl as [Hc Hnl].
    rewrite mark_binary_cons.
    destruct (Byte.eqb c NUL) eqn:E.
    + rewrite IH by (try assumption; rewrite length_app; simpl; lia).
      rewrite <- app_assoc. simpl. now rewrite mark_binary_set.
    + rewrite Hc.
      rewrite IH by (try assumption; rewrite length_app; simpl; lia).
      now rewrite <- app_assoc.
Qed.

(** A stream that holds a newline is read up to the first one. *)
Lemma read_stream_line_loop_newline (cfg : config) (body rest buf : list byte)
  (st : ed) :
  nl_free body ->
  Z.of_nat (length buf + length body) + 2 <= mem_limit cfg ->
  read_stream_line_loop cfg (body ++ NL :: rest) buf st
  = (AtNewline, buf ++ body ++ [NL], rest, mark_binary body st).
Proof.
  revert buf st. induction body as [|c l IH]; intros buf st Hnl Hmem;
    simpl in Hmem.
  - simpl. now rewrite resize_buffer_ok by lia.
  - simpl. rewrite resize_buffer_ok by lia.
    apply nl_free_cons in Hnl. destruct Hnl as [Hc Hnl].
    rewrite mark_binary_cons.
    destruct (Byte.eqb c NUL) eqn:E.
    + rewrite IH by (try assumption; rewrite length_app; simpl; lia).
      rewrite <- app_assoc. simpl. now rewrite mark_binary_set.
    + rewrite Hc.
      rewrite IH by (try assumption; rewrite length_app; simpl; lia).
      now rewrite <- app_assoc.
Qed.

Lemma read_stream_line_newline (cfg : config) (body rest : list byte)
  (e : bool) (size : Z) (nla : bool) (st : ed) :
  nl_free body ->
  Z.of_nat (length body) + 2 <= mem_limit cfg ->
  read_stream_line cfg {| pending := body ++ NL :: rest; ferror_ := e |} size nla st
  = (Some (body ++ [NL; NUL]), Z.of_nat (length body) + 1, nla,
     {| pending := rest; ferror_ := e |}, mark_binary body st).
Proof.
  intros Hnl Hmem. unfold read_stream_line. simpl pending.
  rewrite read_stream_line_loop_newline by (simpl; assumption).
  simpl. rewrite <- app_assoc. simpl.
  rewrite length_app. simpl. repeat f_equal. lia.
Qed.

Lemma read_stream_line_end (cfg : config) (size : Z) (nla : bool) (st : ed) :
  2 <= mem_limit cfg ->
  read_stream_line cfg (clean []) size nla st
  = (Some [NUL], 0, nla, clean [], st).
Proof.
  intro Hmem. unfold read_stream_line, clean. simpl.
  now rewrite resize_buffer_ok by lia.
Qed.

Lemma read_stream_line_tail (cfg : config) (tail : list byte) (size : Z)
  (nla : bool) (st : ed) :
  tail <> [] ->
  nl_free tail ->
  Z.of_nat (length tail) + 2 <= mem_limit cfg ->
  read_stream_line cfg (clean tail) size nla st
  = (Some (tail ++ [NL; NUL]),
     Z.of_nat (length tail) + (if binary_ st || has_nul tail then 0 else 1),
     true, clean [], mark_binary tail st).
Proof.
  intros Hne Hnl Hmem. unfold read_stream_line, clean. simpl pending.
  rewrite read_stream_line_loop_eof by (simpl; assumption).
  cbv beta iota. unfold ferror. cbn [ferror_ app].
  assert (L : (Z.of_nat (length tail) =? 0) = false).
  { apply Z.eqb_neq. destruct tail; [contradiction|simpl length; lia]. }
  rewrite L. cbn [negb]. rewrite isbinary_mark_binary.
  destruct (binary_ st || has_nul tail); cbn [negb]; repeat f_equal; lia.
Qed.

(** C3, as the code has it.  When the stream ends after at least one
    byte and before a newline, and no read error is pending, a newline is
    synthesized after the bytes read and the newline-added flag is set.
    While the session is not in binary mode (neither before the call nor
    through a NUL of this line) the synthesized byte is counted: the size
    returned is the number of source bytes plus one.  In binary mode it is
    not counted: the size returned is the number of source bytes. *)
Theorem read_stream_line_synthesized_newline (cfg : config) (tail : list byte)
  (size : Z) (nla : bool) (st : ed) :
  tail <> [] ->
  nl_free tail ->
  Z.of_nat (length tail) + 2 <= mem_limit cfg ->
  exists sz st',
    read_stream_line cfg (clean tail) size nla st
    = (Some (tail ++ [NL; NUL]), sz, true, clean [], st')
    /\ isbinary st' = binary_ st || has_nul tail
    /\ (isbinary st' = false -> sz = Z.of_nat (length tail) + 1)
    /\ (isbinary st' = true -> sz = Z.of_nat (length tail)).
Proof.
  intros Hne Hnl Hmem.
  exists (Z.of_nat (length tail) + (if binary_ st || has_nul tail then 0 else 1)).
  exists (mark_binary tail st).
  rewrite read_stream_line_tail by assumption.
  rewrite isbinary_mark_binary.
  split; [reflexivity|]. split; [reflexivity|].
  destruct (binary_ st || has_nul tail); split; intro E;
    try discriminate E; lia.
Qed.

Lemma read_stream_line_synthesized_newline_witness :
  exists sz st',
    read_stream_line sample_cfg (clean (bytes "a")) 0 false empty_ed
    = (Some (bytes "a" ++ [NL; NUL]), sz, true, clean [], st')
    /\ isbinary st' = binary_ empty_ed || has_nul (bytes "a")
    /\ (isbinary st' = false -> sz = Z.of_nat (length (bytes "a")) + 1)
    /\ (isbinary st' = true -> sz = Z.of_nat (length (bytes "a"))).
Proof.
  apply (read_stream_line_synthesized_newline sample_cfg (bytes "a") 0 false empty_ed).
  - discriminate.
  - unfold nl_free. simpl. intros [E|[]]. discriminate E.
  - vm_compute. discriminate.
Defined.

(** C3 as stated fails.  In text mode the one-byte stream [a] comes back
    with size 2, not the number of source bytes; in binary mode it comes
    back with size 1, the synthesized byte not counted. *)
Lemma read_stream_line_size_counterexample :
  isbinary empty_ed = false
  /\ read_stream_line sample_cfg (clean (bytes "a")) 0 false empty_ed
     = (Some (bytes "a" ++ [NL; NUL]), 2, true, clean [], empty_ed)
  /\ 2 <> Z.of_nat (length (bytes "a"))
  /\ isbinary empty_binary_ed = true
  /\ read_stream_line sample_cfg (clean (bytes "a")) 0 false empty_binary_ed
     = (Some (bytes "a" ++ [NL; NUL]), 1, true, clean [], empty_binary_ed)
  /\ 1 <> Z.of_nat (length (bytes "a")) + 1.
Proof.
  repeat split; try reflexivity; vm_compute; discriminate.
Qed.

(** ** get_stdin_line *)

Lemma get_stdin_loop_eof (cfg : config) (l buf : list byte) (st : ed) :
  nl_free l ->
  Z.of_nat (length buf + length l) + 2 <= mem_limit cfg ->
  get_stdin_loop cfg l false buf st
  = (Some (poke (buf ++ l) 0 NUL), 0, clean [],
     let st := set_error_msg "Unexpected end-of-file" (mark_binary l st) in
     if Z.of_nat (length (buf ++ l)) >? 0
     then set_linenum_ (linenum_ st + 1) st else st).
Proof.
  revert buf st. induction l as [|c l IH]; intros buf st Hnl Hmem; simpl in Hmem.
  - simpl. rewrite resize_buffer_ok by lia. now rewrite app_nil_r.
  - simpl. rewrite resize_buffer_ok by lia.
    apply nl_free_cons in Hnl. destruct Hnl as [Hc Hnl].
    rewrite Hc. cbn [negb]. rewrite mark_binary_cons.
    rewrite IH by (try assumption; rewrite length_app; simpl; lia).
    rewrite <- app_assoc. simpl app.
    destruct (Byte.eqb c NUL); [rewrite mark_binary_set|]; reflexivity.
Qed.

(** C9.  When standard input ends, without a read error, after at least
    one byte and before a newline, [get_stdin_line] returns normally with
    a non-null buffer whose first byte is NUL, the empty string, and with
    size 0: the partial line is discarded.  It adds
    one to the input line counter and sets the error message
    [Unexpected end-of-file]. *)
Theorem get_stdin_line_unexpected_eof (cfg : config) (l : list byte) (st : ed) :
  l <> [] ->
  nl_free l ->
  Z.of_nat (length l) + 2 <= mem_limit cfg ->
  exists st',
    get_stdin_line cfg (clean l) st = (Some (NUL :: tl l), 0, clean [], st')
    /\ linenum st' = linenum st + 1
    /\ errmsg st' = "Unexpected end-of-file"%string.
Proof.
  intros Hne Hnl Hmem. unfold get_stdin_line, clean. simpl pending. simpl ferror_.
  rewrite get_stdin_loop_eof by (simpl; assumption).
  simpl app. eexists. split.
  - destruct l; [contradiction|reflexivity].
  - assert (L : (Z.of_nat (length l) >? 0) = true).
    { destruct l; [contradiction|]. simpl length. apply Z.gtb_lt. lia. }
    rewrite L. split.
    + unfold linenum, mark_binary. now destruct (has_nul l).
    + reflexivity.
Qed.

Lemma get_stdin_line_unexpected_eof_witness :
  exists st',
    get_stdin_line sample_cfg (clean (bytes "abc")) empty_ed
    = (Some (NUL :: tl (bytes "abc")), 0, clean [], st')
    /\ linenum st' = linenum empty_ed + 1
    /\ errmsg st' = "Unexpected end-of-file"%string.
Proof.
  apply (get_stdin_line_unexpected_eof sample_cfg (bytes "abc") empty_ed).
  - discriminate.
  - unfold nl_free. simpl. intros [E|[E|[E|[]]]]; discriminate E.
  - vm_compute. discriminate.
Defined.

(** ** The line collection *)

Lemma firstn_length_app {A} (a b : list A) : firstn (length a) (a ++ b) = a.
Proof.
  rewrite firstn_app, Nat.sub_diag, firstn_all. simpl. apply app_nil_r.
Qed.

Lemma skipn_length_app {A} (a b : list A) : skipn (length a) (a ++ b) = b.
Proof.
  rewrite skipn_app, Nat.sub_diag, skipn_all. reflexivity.
Qed.

Lemma index_of_newline (body junk : list byte) :
  nl_free body -> index_of NL (body ++ NL :: junk) = Some (length body).
Proof.
  induction body as [|c body IH]; intro H.
  - reflexivity.
  - apply nl_free_cons in H. destruct H as [Hc H].
    simpl. rewrite Hc, IH by assumption. reflexivity.
Qed.

Lemma put_sbuf_line_ok (body junk : list byte) (size : Z) (st : ed)
  (pre post : list line_t) :
  nl_free body ->
  Z.of_nat (length body) + 1 <= size ->
  lines st = pre ++ post ->
  current_addr_ st = Z.of_nat (length pre) ->
  put_sbuf_line (body ++ NL :: junk) size st
  = (true, set_lines (pre ++ {| node := next_node st; text := body |} :: post)
                     (current_addr_ st + 1) (S (next_node st)) st).
Proof.
  intros Hnl Hsize Hl Hc. unfold put_sbuf_line.
  assert (E : exists m, Z.to_nat size = (length body + S m)%nat).
  { exists (Z.to_nat size - length body - 1)%nat. lia. }
  destruct E as [m E]. rewrite E.
  rewrite firstn_app.
  rewrite firstn_all2 by lia.
  replace (length body + S m - length body)%nat with (S m) by lia.
  simpl firstn. rewrite index_of_newline by assumption.
  rewrite firstn_length_app. rewrite Hl, Hc, Nat2Z.id.
  now rewrite firstn_length_app, skipn_length_app.
Qed.

Lemma node_at_last (st : ed) :
  node_at st (search_line_node st (last_addr st)) = last (lines st) buffer_head.
Proof.
  unfold search_line_node, last_addr, node_at, ring.
  replace (0 <=? Z.of_nat (length (lines st))) with true
    by (symmetry; apply Z.leb_le; lia).
  rewrite Z.leb_refl, Nat2Z.id. simpl andb. cbv iota.
  generalize buffer_head. induction (lines st) as [|x l IH]; intro d.
  - reflexivity.
  - simpl length. change (nth (S (length l)) (d :: x :: l) d)
      with (nth (length l) (x :: l) d).
    destruct l as [|y l]; [reflexivity|].
    change (last (x :: y :: l) d) with (last (y :: l) d).
    rewrite <- IH. simpl. destruct l; reflexivity.
Qed.

(** ** read_stream *)

(** One turn of the loop of [read_stream] that reads a line. *)
Lemma read_stream_loop_turn (cfg : config) (fuel : nat) (fp fp' : istream)
  (lp : nat) (up : option nat) (total : Z) (nla nla' : bool) (st st1 : ed)
  (size : Z) (body junk : list byte) (pre post : list line_t) :
  read_stream_line cfg fp 0 nla st
  = (Some (body ++ NL :: junk), size, nla', fp', st1) ->
  0 < size ->
  nl_free body ->
  Z.of_nat (length body) + 1 <= size + b2z nla' ->
  lines st1 = pre ++ post ->
  current_addr_ st1 = Z.of_nat (length pre) ->
  exists lp' up' st2,
    read_stream_loop cfg (S fuel) fp lp up total nla st
    = read_stream_loop cfg fuel fp' lp' up' (total + size) nla' st2
    /\ lines st2 = (pre ++ [{| node := next_node st1; text := body |}]) ++ post
    /\ current_addr_ st2
       = Z.of_nat (length (pre ++ [{| node := next_node st1; text := body |}]))
    /\ next_node st2 = S (next_node st1)
    /\ binary_ st2 = binary_ st1
    /\ unterminated_line st2 = unterminated_line st1
    /\ stdout st2 = stdout st1.
Proof.
  intros Hr Hsize Hnl Hfit Hl Hc.
  assert (Hlen : Z.of_nat (length (pre ++ [{| node := next_node st1; text := body |}]))
                 = current_addr_ st1 + 1).
  { rewrite length_app. simpl. lia. }
  cbn [read_stream_loop]. rewrite Hr.
  replace (size <=? 0) with false by (symmetry; apply Z.leb_gt; lia).
  rewrite (put_sbuf_line_ok body junk _ (disable_interrupts st1) pre post)
    by assumption.
  destruct up as [u|].
  - eexists. eexists. eexists. split; [reflexivity|].
    unfold set_tail. 
    match goal with |- context [nth_error ?l ?k] => destruct (nth_error l k) end;
      simpl; rewrite <- app_assoc; repeat split; try reflexivity; lia.
  - cbn [push_undo_atom].
    eexists. eexists. eexists. split; [reflexivity|].
    simpl; rewrite <- app_assoc; repeat split; try reflexivity; lia.
Qed.

Lemma has_nul_app (a b : list byte) : has_nul (a ++ b) = has_nul a || has_nul b.
Proof. apply existsb_app. Qed.

Lemma has_nul_line (l : list byte) : has_nul (l ++ [NL]) = has_nul l.
Proof. rewrite has_nul_app. simpl. now rewrite orb_false_r. Qed.

Lemma fresh_nodes_length (n : nat) (ls : list (list byte)) :
  length (fresh_nodes n ls) = length ls.
Proof. revert n. induction ls; intro n; simpl; [|rewrite IHls]; reflexivity. Qed.

(** The loop of [read_stream] on a stream that delivers complete lines
    [ls], then bytes [tail] without a newline, then ends. *)
Lemma read_stream_loop_lines (cfg : config) (ls : list (list byte))
  (tail : list byte) :
  Forall nl_free ls ->
  nl_free tail ->
  forall (fuel : nat) (lp : nat) (up : option nat) (total : Z) (nla : bool)
         (st : ed) (pre post : list line_t),
    lines st = pre ++ post ->
    current_addr_ st = Z.of_nat (length pre) ->
    Z.of_nat (length (unlines ls ++ tail)) + 2 <= mem_limit cfg ->
    (length (unlines ls ++ tail) < fuel)%nat ->
    exists st',
      read_stream_loop cfg fuel (clean (unlines ls ++ tail)) lp up total nla st
      = Some (true,
              total + Z.of_nat (length (unlines ls ++ tail))
              + (if is_nil tail || binary_ st || has_nul (unlines ls ++ tail)
                 then 0 else 1),
              nla || negb (is_nil tail), clean [], st')
      /\ lines st' = pre ++ fresh_nodes (next_node st) (ls ++ tail_lines tail) ++ post
      /\ current_addr_ st'
         = current_addr_ st + Z.of_nat (length (ls ++ tail_lines tail))
      /\ next_node st' = (next_node st + length (ls ++ tail_lines tail))%nat
      /\ binary_ st' = binary_ st || has_nul (unlines ls ++ tail)
      /\ unterminated_line st' = unterminated_line st
      /\ stdout st' = stdout st.
Proof.
  intros Hls Htail. induction Hls as [|l ls Hl Hls IH];
    intros fuel lp up total nla st pre post HL HC Hmem Hfuel.
  - (* no complete line is left *)
    simpl unlines in *. simpl app in *.
    destruct tail as [|c r].
    + (* the stream is at its end *)
      destruct fuel as [|fuel]; [simpl in Hfuel; lia|].
      exists st. cbn [read_stream_loop].
      rewrite read_stream_line_end by (simpl in Hmem; lia).
      simpl. rewrite orb_false_r, !Z.add_0_r.
      repeat split; try reflexivity; try assumption;
        [lia | now rewrite orb_false_r].
    + (* a last line without its newline *)
      assert (Hne : c :: r <> []) by discriminate.
      assert (Hnil : is_nil (c :: r) = false) by reflexivity.
      assert (Htl : tail_lines (c :: r) = [c :: r]) by reflexivity.
      assert (Hpos : (0 < length (c :: r))%nat) by (simpl; lia).
      remember (c :: r) as t eqn:Et. clear Et c r.
      destruct fuel as [|fuel]; [lia|].
      destruct (read_stream_loop_turn cfg fuel (clean t) (clean [])
                  lp up total nla true st (mark_binary t st)
                  (Z.of_nat (length t)
                   + (if binary_ st || has_nul t then 0 else 1))
                  t [NUL] pre post)
        as (lp' & up' & st2 & E & L2 & C2 & N2 & B2 & U2 & O2).
      * apply read_stream_line_tail; assumption.
      * destruct (binary_ st || has_nul t); lia.
      * assumption.
      * simpl b2z. destruct (binary_ st || has_nul t); lia.
      * unfold mark_binary. destruct (has_nul t); assumption.
      * unfold mark_binary. destruct (has_nul t); assumption.
      * rewrite E.
        destruct fuel as [|fuel]; [lia|].
        exists st2. cbn [read_stream_loop].
        rewrite read_stream_line_end by lia.
        assert (Hb : binary_ (mark_binary t st) = binary_ st || has_nul t)
          by apply isbinary_mark_binary.
        assert (Hn : next_node (mark_binary t st) = next_node st)
          by (unfold mark_binary; now destruct (has_nul t)).
        assert (Hu : unterminated_line (mark_binary t st) = unterminated_line st)
          by (unfold mark_binary; now destruct (has_nul t)).
        assert (Ho : stdout (mark_binary t st) = stdout st)
          by (unfold mark_binary; now destruct (has_nul t)).
        rewrite Hn in *. rewrite Hb in *. rewrite Hu in *. rewrite Ho in *.
        rewrite Z.leb_refl. rewrite Hnil, Htl.
        cbn [orb negb app length fresh_nodes].
        rewrite orb_true_r.
        split; [now rewrite Z.add_assoc|].
        split; [rewrite L2, <- app_assoc; reflexivity|].
        split; [rewrite C2, length_app, HC; simpl; lia|].
        split; [rewrite N2; lia|].
        repeat split; assumption.
  - (* a complete line, then the rest *)
    destruct fuel as [|fuel]; [simpl in Hfuel; lia|].
    simpl unlines in *. rewrite <- !app_assoc in *. simpl app in *.
    rewrite length_app in Hmem, Hfuel. simpl length in Hmem, Hfuel.
    destruct (read_stream_loop_turn cfg fuel
                (clean (l ++ NL :: unlines ls ++ tail)) (clean (unlines ls ++ tail))
                lp up total nla nla st (mark_binary l st)
                (Z.of_nat (length l) + 1) l [NUL] pre post)
      as (lp' & up' & st2 & E & L2 & C2 & N2 & B2 & U2 & O2).
    + apply read_stream_line_newline; [assumption|lia].
    + lia.
    + assumption.
    + destruct nla; simpl; lia.
    + unfold mark_binary. destruct (has_nul l); assumption.
    + unfold mark_binary. destruct (has_nul l); assumption.
    + rewrite E.
      assert (Hb : binary_ (mark_binary l st) = binary_ st || has_nul l)
        by apply isbinary_mark_binary.
      assert (Hn : next_node (mark_binary l st) = next_node st)
        by (unfold mark_binary; now destruct (has_nul l)).
      assert (Hu : unterminated_line (mark_binary l st) = unterminated_line st)
        by (unfold mark_binary; now destruct (has_nul l)).
      assert (Ho : stdout (mark_binary l st) = stdout st)
        by (unfold mark_binary; now destruct (has_nul l)).
      rewrite Hn in *. rewrite Hb in *. rewrite Hu in *. rewrite Ho in *.
      destruct (IH fuel lp' up' (total + (Z.of_nat (length l) + 1)) nla st2
                   (pre ++ [{| node := next_node st; text := l |}]) post
                   L2 C2 ltac:(lia) ltac:(lia))
        as (st' & E' & L' & C' & N' & B' & U' & O').
      exists st'. rewrite E'.
      assert (HN : has_nul (l ++ NL :: unlines ls ++ tail)
                   = has_nul l || has_nul (unlines ls ++ tail))
        by (rewrite has_nul_app; reflexivity).
      rewrite HN, B2, N2 in *.
      split.
      { match goal with
        | |- Some (_, ?a, _, _, _) = Some (_, ?b, _, _, _) =>
            replace a with b; [reflexivity|]
        end.
        rewrite length_app. simpl length.
        destruct (is_nil tail), (binary_ st), (has_nul l),
          (has_nul (unlines ls ++ tail)); simpl; lia. }
      split; [rewrite L', <- app_assoc; reflexivity|].
      split; [rewrite C', C2, length_app, HC; simpl length; lia|].
      split; [rewrite N'; simpl length; lia|].
      split; [rewrite B'; now rewrite orb_assoc|].
      split; congruence.
Qed.

(** Every byte sequence is a sequence of complete lines followed by a
    possibly empty last line without newline. *)
Lemma lines_of_bytes (bs : list byte) :
  exists ls tail, Forall nl_free ls /\ nl_free tail /\ bs = unlines ls ++ tail.
Proof.
  induction bs as [|c bs (ls & tail & Hls & Htail & E)].
  - exists [], []. repeat split; [constructor|intros []].
  - destruct (Byte.eqb c NL) eqn:Ec.
    + apply byte_eqb_eq in Ec. subst c.
      exists ([] :: ls), tail. repeat split; try assumption.
      * constructor; [intros []|assumption].
      * simpl. now rewrite E.
    + apply byte_eqb_neq in Ec.
      destruct ls as [|l ls].
      * exists [], (c :: tail). repeat split; [constructor| |simpl in *; now rewrite E].
        intros [H|H]; [now apply Ec|now apply Htail].
      * inversion Hls as [|? ? Hl Hls']; subst.
        exists ((c :: l) :: ls), tail. repeat split; try assumption.
        constructor; [|assumption].
        intros [H|H]; [now apply Ec|now apply Hl].
Qed.

Lemma newline_terminated (ls : list (list byte)) (tail bs : list byte) :
  nl_free tail -> unlines ls ++ tail = bs ++ [NL] -> tail = [].
Proof.
  intros Hnl E. apply (f_equal (@rev byte)) in E.
  rewrite !rev_app_distr in E. simpl in E.
  destruct (rev tail) as [|x t] eqn:R.
  - apply (f_equal (@rev byte)) in R. now rewrite rev_involutive in R.
  - exfalso. apply Hnl. apply in_rev. rewrite R.
    simpl in E. injection E as -> _. now left.
Qed.

(** [read_stream] on a stream that is read without error. *)
Lemma read_stream_clean (cfg : config) (ls : list (list byte)) (tail : list byte)
  (addr : Z) (st : ed) :
  Forall nl_free ls ->
  nl_free tail ->
  0 <= addr <= last_addr st ->
  Z.of_nat (length (unlines ls ++ tail)) + 2 <= mem_limit cfg ->
  exists st',
    read_stream cfg (clean (unlines ls ++ tail)) addr st
    = Some (ingest_size st addr (unlines ls ++ tail) (negb (is_nil tail)),
            clean [], st')
    /\ lines st' = firstn (Z.to_nat addr) (lines st)
                   ++ fresh_nodes (next_node st) (ls ++ tail_lines tail)
                   ++ skipn (Z.to_nat addr) (lines st)
    /\ current_addr_ st' = addr + Z.of_nat (length (ls ++ tail_lines tail))
    /\ next_node st' = (next_node st + length (ls ++ tail_lines tail))%nat
    /\ binary_ st' = binary_ st || has_nul (unlines ls ++ tail)
    /\ stdout st'
       = stdout st ++ ingest_message st addr (unlines ls ++ tail) (negb (is_nil tail))
    /\ unterminated_line st'
       = if (addr =? last_addr st) && (binary_ st || has_nul (unlines ls ++ tail))
            && (negb (is_nil tail) || is_nil (unlines ls ++ tail))
         then Some (node (last (lines st') buffer_head))
         else unterminated_line st.
Proof.
  intros Hls Htail Haddr Hmem.
  assert (Hlen : length (firstn (Z.to_nat addr) (lines st)) = Z.to_nat addr).
  { apply firstn_length_le. unfold last_addr in Haddr. lia. }
  assert (Hnil : is_nil (unlines ls ++ tail) = true -> is_nil tail = true).
  { destruct ls as [|l ls]; simpl; [tauto|]. destruct l; discriminate. }
  destruct (read_stream_loop_lines cfg ls tail Hls Htail
              (S (length (unlines ls ++ tail)))
              (search_line_node st addr) None 0 false (set_current_addr addr st)
              (firstn (Z.to_nat addr) (lines st)) (skipn (Z.to_nat addr) (lines st)))
    as (st1 & E & L1 & C1 & N1 & B1 & U1 & O1).
  - simpl. now rewrite firstn_skipn.
  - simpl. rewrite Hlen. lia.
  - assumption.
  - lia.
  - remember (unlines ls ++ tail) as bs eqn:Ebs.
    simpl in L1, C1, N1, B1, U1, O1.
    set (appended := addr =? last_addr st).
    set (bin := binary_ st || has_nul bs) in *.
    set (nla := negb (is_nil tail)).
    set (total := Z.of_nat (length bs)
                  + (if is_nil tail || binary_ st || has_nul bs then 0 else 1)).
    set (c1 := negb (addr =? 0) && appended && negb (total =? 0)
               && unterminated_last_line st).
    set (c2 := nla && (negb appended || negb (isbinary st1))).
    pose (stm := if c1 then fputs newline_inserted st1
                 else if c2 then fputs newline_appended st1 else st1).
    pose (total' := if negb appended && isbinary stm && negb (isbinary st) && nla
                    then total + 1 else total).
    set (c3 := appended && isbinary stm && (nla || (total' =? 0))).
    pose (stf := if c3
                 then set_unterminated_line
                        (Some (node (node_at stm (search_line_node stm (last_addr stm)))))
                        stm
                 else stm).
    assert (R : read_stream cfg (clean bs) addr st = Some (total', clean [], stf)).
    { unfold read_stream. simpl pending. rewrite E. reflexivity. }
    assert (Fm : lines stm = lines st1 /\ current_addr_ stm = current_addr_ st1
                 /\ next_node stm = next_node st1 /\ binary_ stm = binary_ st1
                 /\ unterminated_line stm = unterminated_line st1
                 /\ stdout stm = stdout st1
                                 ++ (if c1 then newline_inserted
                                     else if c2 then newline_appended else [])).
    { unfold stm. destruct c1, c2; simpl; rewrite ?app_nil_r; tauto. }
    destruct Fm as (Lm & Cm & Nm & Bm & Um & Om).
    assert (Ff : lines stf = lines stm /\ current_addr_ stf = current_addr_ stm
                 /\ next_node stf = next_node stm /\ binary_ stf = binary_ stm
                 /\ stdout stf = stdout stm
                 /\ unterminated_line stf
                    = if c3 then Some (node (last (lines stf) buffer_head))
                      else unterminated_line stm).
    { unfold stf. destruct c3; simpl; repeat split; try reflexivity.
      now rewrite node_at_last. }
    destruct Ff as (Lf & Cf & Nf & Bf & Of & Uf).
    assert (Hz : (total =? 0) = is_nil bs).
    { unfold total. destruct bs as [|b0 bs0]; simpl length.
      - rewrite Hnil by reflexivity. reflexivity.
      - simpl is_nil. apply Z.eqb_neq.
        destruct (is_nil tail || binary_ st || has_nul (b0 :: bs0)); lia. }
    assert (Hb : isbinary stm = bin) by (unfold isbinary; congruence).
    assert (Hb1 : isbinary st1 = bin) by (unfold isbinary; congruence).
    exists stf. rewrite R.
    split; [|split; [|split; [|split; [|split; [|split]]]]].
    + f_equal. f_equal. f_equal.
      unfold total', ingest_size, total. rewrite Hb.
      unfold isbinary, bin, nla, appended.
      destruct (addr =? last_addr st), (is_nil tail), (binary_ st), (has_nul bs);
        cbn [negb andb orb]; lia.
    + congruence.
    + rewrite Cf, Cm, C1. reflexivity.
    + congruence.
    + congruence.
    + rewrite Of, Om, O1. f_equal. unfold ingest_message.
      unfold c1, c2. rewrite Hz, Hb1. reflexivity.
    + rewrite Uf. unfold c3. rewrite Hb.
      replace (total' =? 0) with (is_nil bs).
      * fold bin. fold appended. unfold nla.
        destruct (appended && bin && (negb (is_nil tail) || is_nil bs));
          congruence.
      * unfold total'. rewrite Hb. unfold isbinary.
        destruct (negb appended && bin && negb (binary_ st) && nla) eqn:K.
        -- symmetry. unfold nla in K.
           destruct (is_nil bs) eqn:N.
           ++ rewrite (Hnil eq_refl) in K. rewrite andb_false_r in K. discriminate K.
           ++ apply Z.eqb_neq. unfold total.
              destruct (is_nil tail || binary_ st || has_nul bs); lia.
        -- now rewrite Hz.
Qed.

(** ** write_stream *)

Lemma advance_nil (fp : ostream) : advance fp [] = fp.
Proof.
  destruct fp. unfold advance. simpl. now rewrite app_nil_r, Nat.sub_0_r.
Qed.

Lemma advance_app (fp : ostream) (a b : list byte) :
  advance (advance fp a) b = advance fp (a ++ b).
Proof.
  unfold advance. simpl. rewrite app_assoc, length_app. f_equal. lia.
Qed.

Lemma fput_bytes_ok (p junk : list byte) (fp : ostream) :
  (length p <= room fp)%nat ->
  fput_bytes (p ++ junk) (length p) fp = (true, advance fp p).
Proof.
  revert fp. induction p as [|c p IH]; intros fp H.
  - simpl. now rewrite advance_nil.
  - simpl in H. simpl. unfold fputc.
    destruct (room fp) as [|n] eqn:R; [lia|].
    rewrite IH by (simpl; lia).
    unfold advance. simpl. rewrite R, <- app_assoc. reflexivity.
Qed.

Lemma poke_end (t : list byte) (c : byte) :
  poke (t ++ [NUL]) (length t) c = t ++ [c].
Proof.
  unfold poke. rewrite firstn_length_app.
  replace (S (length t)) with (length (t ++ [NUL]))
    by (rewrite length_app; simpl; lia).
  now rewrite skipn_all.
Qed.

Lemma search_line_node_valid (st : ed) (a : Z) :
  0 <= a <= last_addr st -> search_line_node st a = Z.to_nat a.
Proof.
  intro H. unfold search_line_node.
  replace (0 <=? a) with true by (symmetry; apply Z.leb_le; lia).
  now replace (a <=? last_addr st) with true by (symmetry; apply Z.leb_le; lia).
Qed.

Lemma addresses_cons (from to : Z) :
  from <= to -> addresses from to = from :: addresses (from + 1) to.
Proof.
  intro H. unfold addresses.
  replace (Z.to_nat (to - from + 1)) with (S (Z.to_nat (to - (from + 1) + 1)))
    by lia.
  simpl seq. simpl map. f_equal; [lia|].
  rewrite <- seq_shift, map_map. apply map_ext. intro i. lia.
Qed.

Lemma addresses_nil (from to : Z) : to < from -> addresses from to = [].
Proof.
  intro H. unfold addresses.
  now replace (Z.to_nat (to - from + 1)) with 0%nat by lia.
Qed.

Lemma node_at_middle (st : ed) (pre post : list line_t) (x : line_t) :
  lines st = pre ++ x :: post -> node_at st (S (length pre)) = x.
Proof.
  intro H. unfold node_at, ring. rewrite H. simpl.
  rewrite app_nth2 by lia. now rewrite Nat.sub_diag.
Qed.

(** The loop of [write_stream] over the lines [mid], which sit after
    the lines [pre] of the collection. *)
Lemma write_stream_loop_emit (st : ed) (mid : list line_t) :
  forall (pre post : list line_t) (fuel : nat) (fp : ostream) (from to : Z)
         (lp : nat) (size : Z),
    lines st = pre ++ mid ++ post ->
    from = Z.of_nat (length pre) + 1 ->
    to = Z.of_nat (length pre + length mid) ->
    mid = [] \/ lp = S (length pre) ->
    (length mid <= fuel)%nat ->
    (length (flat_map (emitted_line st) (addresses from to)) <= room fp)%nat ->
    write_stream_loop fuel fp from to lp size st
    = Some (size + Z.of_nat (length (flat_map (emitted_line st) (addresses from to))),
            advance fp (flat_map (emitted_line st) (addresses from to)), st).
Proof.
  induction mid as [|x mid IH];
    intros pre post fuel fp from to lp size HL Hfrom Hto Hlp Hfuel Hroom.
  - simpl in Hto. rewrite addresses_nil by lia. simpl.
    rewrite advance_nil, Z.add_0_r.
    destruct fuel; simpl;
      replace (from <=? to) with false by (symmetry; apply Z.leb_gt; lia);
      now rewrite andb_false_r.
  - destruct Hlp as [Hlp|Hlp]; [discriminate Hlp|]. subst lp.
    simpl length in Hto, Hfuel.
    destruct fuel as [|fuel]; [lia|].
    rewrite addresses_cons in * by lia.
    simpl flat_map in *. rewrite length_app in *.
    assert (Hx : node_at st (S (length pre)) = x) by (now apply node_at_middle with (post := mid ++ post)).
    assert (Hnat : Z.to_nat from = S (length pre)) by lia.
    assert (Hlast : (from =? last_addr st) = true ->
                    unterminated_last_line st = marks st (node x)).
    { intro K. apply Z.eqb_eq in K. unfold unterminated_last_line.
      rewrite <- K, search_line_node_valid by (unfold last_addr in *; lia).
      now rewrite Hnat, Hx. }
    assert (Hemit : emitted_line st from
                    = text x ++ (if negb (from =? last_addr st) || negb (isbinary st)
                                    || negb (unterminated_last_line st)
                                 then [NL] else [])).
    { unfold emitted_line. rewrite Hnat, Hx. f_equal.
      destruct (from =? last_addr st) eqn:K; [|reflexivity].
      rewrite Hlast by reflexivity.
      now destruct (isbinary st), (marks st (node x)). }
    cbn [write_stream_loop].
    replace (from =? 0) with false by (symmetry; apply Z.eqb_neq; lia).
    replace (from <=? to) with true by (symmetry; apply Z.leb_le; lia).
    cbn [negb andb get_sbuf_line]. rewrite Hx. unfold len.
    rewrite Hemit in *.
    destruct (negb (from =? last_addr st) || negb (isbinary st)
              || negb (unterminated_last_line st)).
    + rewrite Nat2Z.id, poke_end.
      replace (Z.to_nat (Z.of_nat (length (text x)) + 1))
        with (length (text x ++ [NL])) by (rewrite length_app; simpl; lia).
      rewrite <- (app_nil_r (text x ++ [NL])) at 1.
      rewrite fput_bytes_ok by lia.
      rewrite (IH (pre ++ [x]) post fuel _ (from + 1) to _ _).
      * rewrite advance_app. f_equal. f_equal. f_equal.
        rewrite !length_app. simpl length. lia.
      * now rewrite <- app_assoc.
      * rewrite length_app. simpl. lia.
      * rewrite length_app. simpl. lia.
      * destruct mid as [|y mid]; [now left|right].
        unfold q_forw, ring. rewrite HL. simpl length.
        rewrite !length_app. simpl length.
        match goal with
        | |- context [(?a <? ?b)%nat] => destruct (Nat.ltb_spec a b); lia
        end.
      * lia.
      * unfold advance. simpl room. lia.
    + rewrite app_nil_r in *. rewrite Nat2Z.id.
      rewrite fput_bytes_ok by lia.
      rewrite (IH (pre ++ [x]) post fuel _ (from + 1) to _ _).
      * rewrite advance_app. f_equal. f_equal. f_equal. lia.
      * now rewrite <- app_assoc.
      * rewrite length_app. simpl. lia.
      * rewrite length_app. simpl. lia.
      * destruct mid as [|y mid]; [now left|right].
        unfold q_forw, ring. rewrite HL. simpl length.
        rewrite !length_app. simpl length.
        match goal with
        | |- context [(?a <? ?b)%nat] => destruct (Nat.ltb_spec a b); lia
        end.
      * lia.
      * unfold advance. simpl room. lia.
Qed.

Lemma write_stream_empty_range (fp : ostream) (from to : Z) (st : ed) :
  from = 0 \/ to < from -> write_stream fp from to st = Some (0, fp, st).
Proof.
  intro H. unfold write_stream.
  assert (C : negb (from =? 0) && (from <=? to) = false).
  { destruct H as [H|H].
    - subst from. reflexivity.
    - replace (from <=? to) with false by (symmetry; apply Z.leb_gt; lia).
      apply andb_false_r. }
  destruct (Z.to_nat (to - from + 1)); simpl; now rewrite C.
Qed.

(** [write_stream] on a range of addresses of the collection. *)
Lemma write_stream_emits (fp : ostream) (from to : Z) (st : ed) :
  1 <= from ->
  to <= last_addr st ->
  (length (flat_map (emitted_line st) (addresses from to)) <= room fp)%nat ->
  write_stream fp from to st
  = Some (Z.of_nat (length (flat_map (emitted_line st) (addresses from to))),
          advance fp (flat_map (emitted_line st) (addresses from to)), st).
Proof.
  intros Hfrom Hto Hroom.
  destruct (Z.lt_ge_cases to from) as [Hlt|Hle].
  - rewrite write_stream_empty_range by (right; assumption).
    rewrite addresses_nil by assumption. simpl. now rewrite advance_nil.
  - unfold last_addr in Hto. unfold write_stream.
    set (pre := firstn (Z.to_nat (from - 1)) (lines st)).
    set (rest := skipn (Z.to_nat (from - 1)) (lines st)).
    set (mid := firstn (Z.to_nat (to - from + 1)) rest).
    set (post := skipn (Z.to_nat (to - from + 1)) rest).
    assert (Hpre : length pre = Z.to_nat (from - 1))
      by (apply firstn_length_le; lia).
    assert (Hrest : length rest = (length (lines st) - Z.to_nat (from - 1))%nat)
      by apply length_skipn.
    assert (Hmid : length mid = Z.to_nat (to - from + 1))
      by (apply firstn_length_le; lia).
    rewrite search_line_node_valid by (unfold last_addr; lia).
    apply (write_stream_loop_emit st mid pre post).
    + unfold pre, mid, post, rest. now rewrite !firstn_skipn.
    + lia.
    + lia.
    + right. lia.
    + lia.
    + assumption.
Qed.

Lemma emitted_line_at (st : ed) (pre post : list line_t) (x : line_t) :
  lines st = pre ++ x :: post ->
  emitted_line st (Z.of_nat (length pre) + 1)
  = text x ++ (if is_nil post && isbinary st && marks st (node x)
               then [] else [NL]).
Proof.
  intro H. unfold emitted_line.
  replace (Z.to_nat (Z.of_nat (length pre) + 1)) with (S (length pre)) by lia.
  rewrite (node_at_middle st pre post x H).
  unfold last_addr. rewrite H, length_app. simpl length.
  destruct post as [|y post]; simpl is_nil; simpl length.
  - replace (Z.of_nat (length pre) + 1 =? Z.of_nat (length pre + 1)) with true
      by (symmetry; apply Z.eqb_eq; lia).
    reflexivity.
  - replace (Z.of_nat (length pre) + 1 =? Z.of_nat (length pre + S (S (length post))))
      with false by (symmetry; apply Z.eqb_neq; lia).
    reflexivity.
Qed.

Lemma emitted_lines (st : ed) (mid : list line_t) :
  forall pre post,
    lines st = pre ++ mid ++ post ->
    flat_map (emitted_line st)
             (addresses (Z.of_nat (length pre) + 1)
                        (Z.of_nat (length pre + length mid)))
    = emit_nodes st mid post.
Proof.
  induction mid as [|x mid IH]; intros pre post H.
  - rewrite addresses_nil by (simpl; lia). reflexivity.
  - rewrite addresses_cons by (simpl; lia).
    simpl flat_map. simpl emit_nodes.
    rewrite (emitted_line_at st pre (mid ++ post) x H).
    rewrite <- app_assoc. f_equal. f_equal.
    rewrite <- (IH (pre ++ [x]) post) by (now rewrite <- app_assoc).
    f_equal. rewrite length_app. simpl length. f_equal; lia.
Qed.

Lemma emit_nodes_unmarked (st : ed) (mid post : list line_t) :
  (forall x, In x mid -> marks st (node x) = false) ->
  emit_nodes st mid post = flat_map (fun x => text x ++ [NL]) mid.
Proof.
  induction mid as [|x mid IH]; intro H.
  - reflexivity.
  - simpl. rewrite (H x) by now left.
    rewrite andb_false_r, <- app_assoc.
    rewrite IH by (intros y Hy; apply H; now right). reflexivity.
Qed.

Lemma emit_nodes_last (st : ed) (mid : list line_t) (x : line_t) :
  emit_nodes st (mid ++ [x]) []
  = flat_map (fun y => text y ++ [NL]) mid
    ++ text x ++ (if isbinary st && marks st (node x) then [] else [NL]).
Proof.
  induction mid as [|y mid IH].
  - simpl. now rewrite app_nil_r.
  - simpl. rewrite IH, <- !app_assoc.
    assert (E : is_nil (mid ++ [x] ++ []) = false) by (now destruct mid).
    now rewrite E.
Qed.

Lemma fresh_nodes_texts (n : nat) (ls : list (list byte)) :
  flat_map (fun x => text x ++ [NL]) (fresh_nodes n ls) = unlines ls.
Proof.
  revert n. induction ls as [|l ls IH]; intro n; simpl.
  - reflexivity.
  - now rewrite IH.
Qed.

Lemma fresh_nodes_ids (n : nat) (ls : list (list byte)) (x : line_t) :
  In x (fresh_nodes n ls) -> (n <= node x)%nat.
Proof.
  revert n. induction ls as [|l ls IH]; intros n H; simpl in H.
  - contradiction.
  - destruct H as [H|H].
    + subst x. simpl. lia.
    + apply IH in H. lia.
Qed.

Lemma fresh_nodes_snoc (n : nat) (ls : list (list byte)) (t : list byte) :
  fresh_nodes n (ls ++ [t])
  = fresh_nodes n ls ++ [{| node := (n + length ls)%nat; text := t |}].
Proof.
  revert n. induction ls as [|l ls IH]; intro n; simpl.
  - now rewrite Nat.add_0_r.
  - rewrite IH.
    now replace (S n + length ls)%nat with (n + S (length ls))%nat by lia.
Qed.

(** ** Ingest, then emit *)

Lemma is_nil_snoc {A} (l : list A) (x : A) : is_nil (l ++ [x]) = false.
Proof. now destruct l. Qed.

Lemma marks_fresh (st st' : ed) (ls : list (list byte)) (x : line_t) :
  marker_allocated st ->
  unterminated_line st' = unterminated_line st ->
  In x (fresh_nodes (next_node st) ls) ->
  marks st' (node x) = false.
Proof.
  intros Hm Hu Hx. unfold marks. rewrite Hu.
  destruct (unterminated_line st) as [p|] eqn:E; [|reflexivity].
  apply Nat.eqb_neq. apply Hm in E. apply fresh_nodes_ids in Hx. lia.
Qed.

(** C1.  For a byte sequence [bs] that holds no NUL and ends in a
    newline, read without error at a valid address [addr] of a session
    whose marker points to an allocated node: [read_stream] returns the
    number of bytes of [bs], and [write_stream] over the lines just read,
    [addr + 1 .. current_addr], writes exactly [bs] and returns its
    length.  The scratch buffer and the output stream are large enough. *)
Theorem read_stream_write_stream_round_trip (cfg : config) (st : ed)
  (bs b' : list byte) (addr : Z) (out : ostream) :
  has_nul bs = false ->
  bs = b' ++ [NL] ->
  0 <= addr <= last_addr st ->
  marker_allocated st ->
  Z.of_nat (length bs) + 2 <= mem_limit cfg ->
  (length bs <= room out)%nat ->
  exists st',
    read_stream cfg (clean bs) addr st
    = Some (Z.of_nat (length bs), clean [], st')
    /\ write_stream out (addr + 1) (current_addr st') st'
       = Some (Z.of_nat (length bs),
               {| dest := dest out; written := written out ++ bs;
                  room := room out - length bs |},
               st').
Proof.
  intros Hnul Hend Haddr Hmark Hmem Hroom.
  destruct (lines_of_bytes bs) as (ls & tail & Hls & Htail & E).
  assert (tail = []) by (apply (newline_terminated ls tail b' Htail); congruence).
  subst tail. rewrite app_nil_r in E.
  destruct (read_stream_clean cfg ls [] addr st Hls Htail Haddr)
    as (st' & R & L & C & N & B & O & U).
  { rewrite app_nil_r, <- E. assumption. }
  simpl tail_lines in *. rewrite !app_nil_r in *. rewrite <- E in *.
  assert (Hnil : is_nil bs = false) by (rewrite Hend; apply is_nil_snoc).
  rewrite Hnil in U. simpl in U. rewrite andb_false_r in U.
  assert (Hsize : ingest_size st addr bs (negb (is_nil (@nil byte)))
                  = Z.of_nat (length bs)).
  { unfold ingest_size. simpl. rewrite andb_false_r. lia. }
  rewrite Hsize in R.
  exists st'. split; [exact R|].
  assert (Hpre : length (firstn (Z.to_nat addr) (lines st)) = Z.to_nat addr)
    by (apply firstn_length_le; unfold last_addr in Haddr; lia).
  assert (Hemit : flat_map (emitted_line st') (addresses (addr + 1) (current_addr st'))
                  = bs).
  { unfold current_addr. rewrite C.
    replace (addr + 1)
      with (Z.of_nat (length (firstn (Z.to_nat addr) (lines st))) + 1) by lia.
    replace (addr + Z.of_nat (length ls))
      with (Z.of_nat (length (firstn (Z.to_nat addr) (lines st))
                      + length (fresh_nodes (next_node st) ls)))
      by (rewrite fresh_nodes_length; lia).
    rewrite (emitted_lines st' _ _ _ L).
    rewrite emit_nodes_unmarked.
    - rewrite fresh_nodes_texts. now symmetry.
    - intros x Hx. now apply (marks_fresh st st' ls). }
  rewrite write_stream_emits.
  - rewrite Hemit. reflexivity.
  - lia.
  - unfold current_addr, last_addr. rewrite C, L, !length_app, fresh_nodes_length.
    lia.
  - rewrite Hemit. assumption.
Qed.

Lemma read_stream_write_stream_round_trip_witness :
  exists st',
    read_stream sample_cfg (clean (bytes "ab" ++ [NL] ++ bytes "cd" ++ [NL])) 0 empty_ed
    = Some (Z.of_nat (length (bytes "ab" ++ [NL] ++ bytes "cd" ++ [NL])), clean [], st')
    /\ write_stream sample_out (0 + 1) (current_addr st') st'
       = Some (Z.of_nat (length (bytes "ab" ++ [NL] ++ bytes "cd" ++ [NL])),
               {| dest := dest sample_out;
                  written := written sample_out
                             ++ (bytes "ab" ++ [NL] ++ bytes "cd" ++ [NL]);
                  room := room sample_out
                          - length (bytes "ab" ++ [NL] ++ bytes "cd" ++ [NL]) |},
               st').
Proof.
  apply (read_stream_write_stream_round_trip sample_cfg empty_ed
           (bytes "ab" ++ [NL] ++ bytes "cd" ++ [NL])
           (bytes "ab" ++ [NL] ++ bytes "cd")).
  - reflexivity.
  - reflexivity.
  - vm_compute. split; discriminate.
  - intros p H. discriminate H.
  - vm_compute. discriminate.
  - simpl. lia.
Defined.

(** C2, as the code has it.  First part: over a range of addresses of the
    collection, [write_stream] writes for each line its stored bytes and
    then a newline, unless the address is the last one, the session is in
    binary mode and the line holds the unterminated-line marker; then the
    newline is left out.  Second part: when a stream whose last line has
    no newline is read at the end of the collection and the session is in
    binary mode once it is read, that last line receives the marker, and
    emitting the lines just read writes the bytes of the stream, without
    a final newline. *)
Theorem write_stream_newline_rule (cfg : config) (st st0 : ed)
  (ls : list (list byte)) (tail : list byte) (out fp : ostream) (from to : Z) :
  1 <= from ->
  to <= last_addr st0 ->
  (length (flat_map (emitted_line st0) (addresses from to)) <= room fp)%nat ->
  Forall nl_free ls ->
  nl_free tail ->
  tail <> [] ->
  binary_ st || has_nul (unlines ls ++ tail) = true ->
  Z.of_nat (length (unlines ls ++ tail)) + 2 <= mem_limit cfg ->
  (length (unlines ls ++ tail) <= room out)%nat ->
  write_stream fp from to st0
  = Some (Z.of_nat (length (flat_map (emitted_line st0) (addresses from to))),
          {| dest := dest fp;
             written := written fp ++ flat_map (emitted_line st0) (addresses from to);
             room := room fp - length (flat_map (emitted_line st0) (addresses from to)) |},
          st0)
  /\ exists st',
       read_stream cfg (clean (unlines ls ++ tail)) (last_addr st) st
       = Some (Z.of_nat (length (unlines ls ++ tail)), clean [], st')
       /\ isbinary st' = true
       /\ current_addr st' = last_addr st'
       /\ marks st' (node (node_at st' (Z.to_nat (last_addr st')))) = true
       /\ write_stream out (last_addr st + 1) (current_addr st') st'
          = Some (Z.of_nat (length (unlines ls ++ tail)),
                  {| dest := dest out;
                     written := written out ++ unlines ls ++ tail;
                     room := room out - length (unlines ls ++ tail) |},
                  st').
Proof.
  intros Hfrom Hto Hroom0 Hls Htail Hne Hbin Hmem Hroom.
  split; [now apply write_stream_emits|].
  assert (Haddr : 0 <= last_addr st <= last_addr st) by (unfold last_addr; lia).
  destruct (read_stream_clean cfg ls tail (last_addr st) st Hls Htail Haddr Hmem)
    as (st' & R & L & C & N & B & O & U).
  assert (Htl : tail_lines tail = [tail]) by (destruct tail; [contradiction|reflexivity]).
  assert (Hnil : is_nil tail = false) by (destruct tail; [contradiction|reflexivity]).
  rewrite Htl, Hnil, Hbin, Z.eqb_refl in *. simpl in U.
  unfold last_addr in L at 1 2. rewrite Nat2Z.id, firstn_all, skipn_all in L.
  rewrite app_nil_r in L. rewrite fresh_nodes_snoc in L.
  set (x := {| node := (next_node st + length ls)%nat; text := tail |}) in *.
  assert (Hlast : last (lines st') buffer_head = x)
    by (rewrite L, !app_assoc; apply last_last).
  rewrite Hlast in U.
  assert (Hsize : ingest_size st (last_addr st) (unlines ls ++ tail) (negb false)
                  = Z.of_nat (length (unlines ls ++ tail))).
  { unfold ingest_size. rewrite Hbin, Z.eqb_refl. simpl. lia. }
  rewrite Hsize in R.
  assert (Hcur : current_addr st' = last_addr st').
  { unfold current_addr. rewrite C. unfold last_addr.
    rewrite L, !length_app, fresh_nodes_length. simpl length. lia. }
  assert (Hmarks : marks st' (node x) = true)
    by (unfold marks; rewrite U; apply Nat.eqb_refl).
  assert (Hemit : flat_map (emitted_line st')
                    (addresses (last_addr st + 1) (current_addr st'))
                  = unlines ls ++ tail).
  { unfold current_addr. rewrite C. unfold last_addr.
    replace (Z.of_nat (length (lines st)) + Z.of_nat (length (ls ++ [tail])))
      with (Z.of_nat (length (lines st)
                      + length (fresh_nodes (next_node st) ls ++ [x])))
      by (rewrite !length_app, fresh_nodes_length; simpl length; lia).
    rewrite (emitted_lines st' (fresh_nodes (next_node st) ls ++ [x]) (lines st) [])
      by (now rewrite app_nil_r).
    rewrite emit_nodes_last, fresh_nodes_texts.
    unfold isbinary. rewrite B, Hmarks. simpl. now rewrite app_nil_r. }
  exists st'. split; [exact R|]. split; [exact B|]. split; [exact Hcur|].
  split.
  - rewrite <- (search_line_node_valid st' (last_addr st')) by (unfold last_addr; lia).
    now rewrite node_at_last, Hlast.
  - rewrite write_stream_emits.
    + rewrite Hemit. reflexivity.
    + lia.
    + lia.
    + rewrite Hemit. assumption.
Qed.

Lemma write_stream_newline_rule_witness :
  write_stream sample_out 1 2 two_lines_ed
  = Some (Z.of_nat (length (flat_map (emitted_line two_lines_ed) (addresses 1 2))),
          {| dest := dest sample_out;
             written := written sample_out
                        ++ flat_map (emitted_line two_lines_ed) (addresses 1 2);
             room := room sample_out
                     - length (flat_map (emitted_line two_lines_ed) (addresses 1 2)) |},
          two_lines_ed)
  /\ exists st',
       read_stream sample_cfg (clean (unlines [bytes "ab"] ++ bytes "c"))
                   (last_addr empty_binary_ed) empty_binary_ed
       = Some (Z.of_nat (length (unlines [bytes "ab"] ++ bytes "c")), clean [], st')
       /\ isbinary st' = true
       /\ current_addr st' = last_addr st'
       /\ marks st' (node (node_at st' (Z.to_nat (last_addr st')))) = true
       /\ write_stream sample_out (last_addr empty_binary_ed + 1) (current_addr st') st'
          = Some (Z.of_nat (length (unlines [bytes "ab"] ++ bytes "c")),
                  {| dest := dest sample_out;
                     written := written sample_out ++ unlines [bytes "ab"] ++ bytes "c";
                     room := room sample_out
                             - length (unlines [bytes "ab"] ++ bytes "c") |},
                  st').
Proof.
  apply (write_stream_newline_rule sample_cfg empty_binary_ed two_lines_ed
           [bytes "ab"] (bytes "c") sample_out sample_out 1 2).
  - lia.
  - vm_compute. discriminate.
  - vm_compute. lia.
  - constructor; [|constructor].
    unfold nl_free. simpl. intros [E|[E|[]]]; discriminate E.
  - unfold nl_free. simpl. intros [E|[]]. discriminate E.
  - discriminate.
  - reflexivity.
  - vm_compute. discriminate.
  - vm_compute. lia.
Defined.

(** C2 as stated fails in text mode.  The one-byte stream [a], without a
    newline, is read into the empty collection of a text-mode session; no
    line receives the marker, and emitting the line writes [a] and a
    newline, not the bytes of the stream. *)
Lemma write_stream_text_mode_counterexample :
  exists st',
    read_stream sample_cfg (clean (bytes "a")) 0 empty_ed = Some (2, clean [], st')
    /\ isbinary st' = false
    /\ unterminated_line st' = None
    /\ write_stream sample_out 1 1 st'
       = Some (2, {| dest := dest sample_out; written := bytes "a" ++ [NL];
                     room := 98 |}, st')
    /\ bytes "a" ++ [NL] <> bytes "a".
Proof.
  eexists. split; [vm_compute; reflexivity|].
  split; [reflexivity|]. split; [reflexivity|].
  split; [vm_compute; reflexivity|]. discriminate.
Qed.

(** ** The message of read_stream *)

Lemma ingest_size_zero (st : ed) (addr : Z) (ls : list (list byte))
  (tail : list byte) :
  (ingest_size st addr (unlines ls ++ tail) (negb (is_nil tail)) =? 0)
  = is_nil (unlines ls ++ tail).
Proof.
  unfold ingest_size.
  destruct (unlines ls ++ tail) as [|b0 bs0] eqn:E.
  - assert (tail = []) by (destruct ls as [|[|? ?] ?]; simpl in E;
                           [assumption|discriminate E|discriminate E]).
    subst tail. simpl. now rewrite !andb_false_r.
  - simpl is_nil. apply Z.eqb_neq. simpl length.
    destruct (negb (is_nil tail) && negb (binary_ st || has_nul (b0 :: bs0)));
      destruct (negb (addr =? last_addr st) && has_nul (b0 :: bs0)
                && negb (binary_ st) && negb (is_nil tail)); lia.
Qed.

(** The message of [read_stream] in the terms of its tests: the address
    is not 0, it is the last address, the size is not zero and
    [unterminated_last_line] held before the call. *)
Lemma read_stream_message_tests (cfg : config) (ls : list (list byte))
  (tail : list byte) (addr : Z) (st : ed) :
  Forall nl_free ls ->
  nl_free tail ->
  0 <= addr <= last_addr st ->
  Z.of_nat (length (unlines ls ++ tail)) + 2 <= mem_limit cfg ->
  exists total st' msg,
    read_stream cfg (clean (unlines ls ++ tail)) addr st
    = Some (total, clean [], st')
    /\ stdout st' = stdout st ++ msg
    /\ (msg = newline_inserted
        <-> addr <> 0 /\ addr = last_addr st /\ total <> 0
            /\ unterminated_last_line st = true)
    /\ (msg = newline_appended
        <-> ~ (addr <> 0 /\ addr = last_addr st /\ total <> 0
               /\ unterminated_last_line st = true)
            /\ tail <> []
            /\ (addr <> last_addr st \/ isbinary st' = false))
    /\ (msg = [] \/ msg = newline_inserted \/ msg = newline_appended).
Proof.
  intros Hls Htail Haddr Hmem.
  destruct (read_stream_clean cfg ls tail addr st Hls Htail Haddr Hmem)
    as (st' & R & L & C & N & B & O & U).
  exists (ingest_size st addr (unlines ls ++ tail) (negb (is_nil tail))), st',
         (ingest_message st addr (unlines ls ++ tail) (negb (is_nil tail))).
  split; [exact R|]. split; [exact O|].
  pose proof (ingest_size_zero st addr ls tail) as Hz.
  unfold ingest_message, isbinary. rewrite B.
  assert (Hz' : ingest_size st addr (unlines ls ++ tail) (negb (is_nil tail)) <> 0
                <-> is_nil (unlines ls ++ tail) = false).
  { rewrite <- Hz. symmetry. apply Z.eqb_neq. }
  assert (Ha0 : addr <> 0 <-> (addr =? 0) = false)
    by (symmetry; apply Z.eqb_neq).
  assert (Hal : addr = last_addr st <-> (addr =? last_addr st) = true)
    by (symmetry; apply Z.eqb_eq).
  assert (Hanl : addr <> last_addr st <-> (addr =? last_addr st) = false)
    by (symmetry; apply Z.eqb_neq).
  assert (Ht : tail <> [] <-> is_nil tail = false)
    by (destruct tail; simpl; split; intro K; congruence).
  rewrite Hz', Ha0, Hanl, Hal, Ht.
  assert (D1 : newline_inserted <> newline_appended) by discriminate.
  assert (D2 : newline_inserted <> []) by discriminate.
  assert (D3 : newline_appended <> []) by discriminate.
  destruct (addr =? 0), (addr =? last_addr st), (is_nil (unlines ls ++ tail)),
    (unterminated_last_line st), (is_nil tail),
    (binary_ st || has_nul (unlines ls ++ tail));
    cbn [negb andb orb];
    (split; [|split]);
    try (split; intro K);
    try (now elim D1); try (now elim D2); try (now elim D3);
    try (symmetry in K; now elim D1);
    try (symmetry in K; now elim D2);
    try (symmetry in K; now elim D3);
    intuition congruence.
Qed.

(** With the address at the last address, the test [addr] and the test
    [unterminated_last_line] together say that the collection has a last
    line and that this line holds the marker: in an empty collection the
    last address is 0. *)
Lemma last_line_marked_tests (st : ed) (addr : Z) :
  negb (addr =? 0) && (addr =? last_addr st) && unterminated_last_line st
  = (addr =? last_addr st) && last_line_marked st.
Proof.
  unfold last_line_marked, unterminated_last_line.
  rewrite node_at_last. unfold last_addr.
  destruct (lines st) as [|x l]; simpl is_nil; simpl negb.
  - simpl length. simpl Z.of_nat.
    destruct (addr =? 0); simpl; now rewrite ?andb_false_r.
  - destruct (Z.eqb_spec addr (Z.of_nat (length (x :: l)))) as [E|E].
    + replace (addr =? 0) with false
        by (symmetry; apply Z.eqb_neq; simpl length in E; lia).
      reflexivity.
    + now rewrite andb_false_r.
Qed.

(** C4.  A stream is read without error at a valid address.  After the
    loop [read_stream] prints at most one message.  It prints
    [Newline inserted] exactly when the address is the last address
    before the call (an append), the size read is not zero and the last
    line before the call held the unterminated-line marker.  Otherwise it
    prints [Newline appended] exactly when a newline was synthesized for
    the last line read and either the address was not the last address
    or the session is not in binary mode after the stream is read.
    Otherwise it prints nothing. *)
Theorem read_stream_message (cfg : config) (ls : list (list byte))
  (tail : list byte) (addr : Z) (st : ed) :
  Forall nl_free ls ->
  nl_free tail ->
  0 <= addr <= last_addr st ->
  Z.of_nat (length (unlines ls ++ tail)) + 2 <= mem_limit cfg ->
  exists total st' msg,
    read_stream cfg (clean (unlines ls ++ tail)) addr st
    = Some (total, clean [], st')
    /\ stdout st' = stdout st ++ msg
    /\ (msg = newline_inserted
        <-> addr = last_addr st /\ total <> 0 /\ last_line_marked st = true)
    /\ (msg = newline_appended
        <-> ~ (addr = last_addr st /\ total <> 0 /\ last_line_marked st = true)
            /\ tail <> []
            /\ (addr <> last_addr st \/ isbinary st' = false))
    /\ (msg = [] \/ msg = newline_inserted \/ msg = newline_appended).
Proof.
  intros Hls Htail Haddr Hmem.
  destruct (read_stream_message_tests cfg ls tail addr st Hls Htail Haddr Hmem)
    as (total & st' & msg & R & O & I & A & M).
  assert (E : addr <> 0 /\ addr = last_addr st /\ total <> 0
              /\ unterminated_last_line st = true
              <-> addr = last_addr st /\ total <> 0 /\ last_line_marked st = true).
  { pose proof (last_line_marked_tests st addr) as T.
    destruct (Z.eqb_spec addr 0), (Z.eqb_spec addr (last_addr st)),
      (unterminated_last_line st), (last_line_marked st);
      simpl in T; try discriminate T; intuition congruence. }
  exists total, st', msg.
  split; [exact R|]. split; [exact O|].
  split; [|split; [|exact M]].
  - rewrite I. exact E.
  - rewrite A. rewrite E. reflexivity.
Qed.

Lemma read_stream_message_witness :
  exists total st' msg,
    read_stream sample_cfg (clean (unlines [bytes "c"] ++ [])) 1 marked_ed
    = Some (total, clean [], st')
    /\ stdout st' = stdout marked_ed ++ msg
    /\ (msg = newline_inserted
        <-> 1 = last_addr marked_ed /\ total <> 0
            /\ last_line_marked marked_ed = true)
    /\ (msg = newline_appended
        <-> ~ (1 = last_addr marked_ed /\ total <> 0
               /\ last_line_marked marked_ed = true)
            /\ @nil byte <> []
            /\ (1 <> last_addr marked_ed \/ isbinary st' = false))
    /\ (msg = [] \/ msg = newline_inserted \/ msg = newline_appended).
Proof.
  apply (read_stream_message sample_cfg [bytes "c"] [] 1 marked_ed).
  - constructor; [|constructor].
    unfold nl_free. simpl. intros [E|[]]. discriminate E.
  - intros [].
  - vm_compute. split; discriminate.
  - vm_compute. discriminate.
Defined.

(** C5, as the code has it.  The stream is the single byte [a]; the
    collection is empty and the session is in binary mode.  The line
    reader synthesizes a newline after [a] and reports size 1;
    [read_stream] at address 0 returns 1, prints no message, stores the
    line [a] and leaves the unterminated-line marker on this new last
    line. *)
Theorem read_stream_single_byte_binary (cfg : config) (st : ed) :
  lines st = [] ->
  binary_ st = true ->
  3 <= mem_limit cfg ->
  exists st',
    read_stream_line cfg (clean (bytes "a")) 0 false (set_current_addr 0 st)
    = (Some (bytes "a" ++ [NL; NUL]), 1, true, clean [], set_current_addr 0 st)
    /\ read_stream cfg (clean (bytes "a")) 0 st = Some (1, clean [], st')
    /\ stdout st' = stdout st
    /\ lines st' = [{| node := next_node st; text := bytes "a" |}]
    /\ unterminated_line st' = Some (next_node st)
    /\ unterminated_last_line st' = true.
Proof.
  intros Hl Hb Hmem.
  assert (Hnl : nl_free (bytes "a")).
  { unfold nl_free. simpl. intros [E|[]]. discriminate E. }
  assert (Ha : 0 <= 0 <= last_addr st) by (unfold last_addr; lia).
  destruct (read_stream_clean cfg [] (bytes "a") 0 st (Forall_nil _) Hnl Ha)
    as (st' & R & L & C & N & B & O & U).
  { simpl. lia. }
  assert (Hlast : last_addr st = 0) by (unfold last_addr; now rewrite Hl).
  unfold ingest_size, ingest_message in *.
  rewrite Hlast, Hb, Hl in *. simpl in R, L, O, U.
  rewrite app_nil_r in O. rewrite L in U. simpl in U.
  exists st'. split; [|split; [|split; [|split; [|split]]]].
  - rewrite read_stream_line_tail; [|discriminate|assumption|simpl; lia].
    simpl binary_. rewrite Hb. reflexivity.
  - exact R.
  - exact O.
  - exact L.
  - exact U.
  - unfold unterminated_last_line. rewrite node_at_last, L.
    unfold marks. rewrite U. simpl. apply Nat.eqb_refl.
Qed.

Lemma read_stream_single_byte_binary_witness :
  exists st',
    read_stream_line sample_cfg (clean (bytes "a")) 0 false
                     (set_current_addr 0 empty_binary_ed)
    = (Some (bytes "a" ++ [NL; NUL]), 1, true, clean [],
       set_current_addr 0 empty_binary_ed)
    /\ read_stream sample_cfg (clean (bytes "a")) 0 empty_binary_ed
       = Some (1, clean [], st')
    /\ stdout st' = stdout empty_binary_ed
    /\ lines st' = [{| node := next_node empty_binary_ed; text := bytes "a" |}]
    /\ unterminated_line st' = Some (next_node empty_binary_ed)
    /\ unterminated_last_line st' = true.
Proof.
  apply (read_stream_single_byte_binary sample_cfg empty_binary_ed).
  - reflexivity.
  - reflexivity.
  - vm_compute. discriminate.
Defined.

(** C5 as stated fails: with binary mode active and the stream appended,
    the message [Newline appended] is not printed. *)
Lemma read_stream_single_byte_counterexample :
  exists st',
    read_stream sample_cfg (clean (bytes "a")) 0 empty_binary_ed
    = Some (1, clean [], st')
    /\ stdout st' = []
    /\ stdout st' <> stdout empty_binary_ed ++ newline_appended.
Proof.
  eexists. split; [vm_compute; reflexivity|].
  split; [reflexivity|]. vm_compute. discriminate.
Qed.

(** ** print_line: the width of the physical lines *)

Lemma rendering_nl_free (ch : byte) : nl_free (rendering ch).
Proof.
  unfold nl_free. destruct ch; simpl; intuition discriminate.
Qed.

Lemma rendering_length (ch : byte) :
  (1 <= length (rendering ch) <= 4)%nat.
Proof. destruct ch; simpl; lia. Qed.

Lemma rendering_plain (ch : byte) :
  plain ch = true -> length (rendering ch) = 1%nat.
Proof. destruct ch; simpl; intro E; try discriminate E; reflexivity. Qed.

Lemma runs_ok_app (B k : Z) (a b : list byte) :
  nl_free a -> runs_ok B k (a ++ b) = runs_ok B (k + Z.of_nat (length a)) b.
Proof.
  revert k. induction a as [|c a IH]; intros k H.
  - simpl. now rewrite Z.add_0_r.
  - apply nl_free_cons in H. destruct H as [Hc H].
    simpl app. cbn [runs_ok]. rewrite Hc, IH by assumption.
    f_equal. simpl length. lia.
Qed.

Lemma runs_ok_wrap (B k : Z) (x : list byte) :
  runs_ok B k (wrap ++ x) = (k <=? B) && runs_ok B 0 x.
Proof.
  unfold wrap. simpl. now replace (k + 1 - 1) with k by lia.
Qed.

(** The output of the list mode keeps every wrapped line within the
    window width plus [e], when no byte takes more than [1 + e]
    characters. *)
Lemma list_output_runs (cfg : config) (e : Z) (q : list byte) :
  1 <= window_columns cfg ->
  0 <= e ->
  Forall (fun ch => Z.of_nat (length (rendering ch)) <= 1 + e) q ->
  forall col k, k <= col -> k <= window_columns cfg + e ->
    runs_ok (window_columns cfg + e) k (list_output cfg q col) = true.
Proof.
  intros HW He Hq. induction Hq as [|ch q Hch Hq IH]; intros col k Hk Hcol.
  - reflexivity.
  - cbn [list_output]. unfold next_col.
    pose proof (rendering_length ch) as Hlen.
    destruct (col + 1 >? window_columns cfg) eqn:Ew.
    + rewrite runs_ok_wrap.
      replace (k <=? window_columns cfg + e) with true
        by (symmetry; apply Z.leb_le; lia).
      rewrite andb_true_l.
      rewrite runs_ok_app by apply rendering_nl_free.
      apply IH; lia.
    + rewrite app_nil_l. rewrite runs_ok_app by apply rendering_nl_free.
      assert (col + 1 <= window_columns cfg).
      { destruct (Z.gtb_spec (col + 1) (window_columns cfg)); [discriminate Ew|lia]. }
      apply IH; lia.
Qed.

Lemma decimal_digits_nl_free (d : Decimal.uint) :
  nl_free (bytes (NilEmpty.string_of_uint d)).
Proof.
  unfold nl_free.
  induction d; simpl; intro H;
    try (destruct H as [H|H]; [discriminate H|now apply IHd]).
  exact H.
Qed.

Lemma decimal_nl_free (n : Z) : nl_free (decimal n).
Proof.
  unfold decimal, NilZero.string_of_int.
  destruct (Z.to_int n) as [d|d]; unfold NilZero.string_of_uint.
  - destruct d; try apply decimal_digits_nl_free.
    intro H. simpl in H. intuition discriminate.
  - intro H. simpl in H. destruct H as [H|H]; [discriminate H|].
    revert H. destruct d; try apply decimal_digits_nl_free.
    simpl. intuition discriminate.
Qed.

Lemma line_prefix_nl_free (cfg : config) (pflags : Z) (st : ed) :
  nl_free (line_prefix cfg pflags st).
Proof.
  unfold line_prefix. destruct (flag pflags (GNP cfg)); [|intros []].
  intro H. apply in_app_iff in H. destruct H as [H|[H|[]]].
  - now apply (decimal_nl_free (current_addr st)).
  - discriminate H.
Qed.

Lemma runs_ok_after_newline (B : Z) (a r : list byte) :
  forall k, runs_ok B k (a ++ NL :: r) = true -> runs_ok B 0 r = true.
Proof.
  induction a as [|c a IH]; intros k H.
  - simpl in H. apply andb_true_iff in H. tauto.
  - simpl app in H. cbn [runs_ok] in H.
    destruct (Byte.eqb c NL).
    + apply andb_true_iff in H. destruct H as [_ H]. now apply IH in H.
    + now apply IH in H.
Qed.

Lemma runs_ok_line (B : Z) (l b : list byte) :
  nl_free l ->
  forall k, runs_ok B k (l ++ wrap ++ b) = true -> k + Z.of_nat (length l) <= B.
Proof.
  intro Hl. induction l as [|c l IH]; intros k H.
  - simpl in H. apply andb_true_iff in H. destruct H as [H _].
    apply Z.leb_le in H. simpl. lia.
  - apply nl_free_cons in Hl. destruct Hl as [Hc Hl].
    simpl app in H. cbn [runs_ok] in H. rewrite Hc in H.
    apply (IH Hl) in H. simpl length. lia.
Qed.

Lemma runs_ok_sound (B : Z) (o : list byte) :
  runs_ok B 0 o = true -> wrap_bound B o.
Proof.
  intros H a l b E Hl Ha. subst o.
  destruct Ha as [Ha|[a' Ha]]; subst a.
  - simpl in H. apply (runs_ok_line B l b Hl) in H. lia.
  - rewrite <- app_assoc in H. simpl app in H.
    apply runs_ok_after_newline in H.
    apply (runs_ok_line B l b Hl) in H. lia.
Qed.

Lemma forallb_plain_length (q : list byte) :
  forallb plain q = true ->
  Forall (fun ch => Z.of_nat (length (rendering ch)) <= 1 + 0) q.
Proof.
  induction q as [|ch q IH]; intro H.
  - constructor.
  - simpl in H. apply andb_true_iff in H. destruct H as [Hc H].
    constructor; [|now apply IH].
    rewrite rendering_plain by assumption. simpl. lia.
Qed.

(** The prefix and the bytes of a line in list mode: the prefix counts
    for its characters on the first physical line, and the loop starts at
    column 8 after it, at column 0 without it. *)
Lemma prefixed_output_runs (cfg : config) (e : Z) (q : list byte)
  (pflags : Z) (st : ed) :
  1 <= window_columns cfg ->
  0 <= e ->
  Forall (fun ch => Z.of_nat (length (rendering ch)) <= 1 + e) q ->
  Z.of_nat (length (line_prefix cfg pflags st)) <= 8 ->
  Z.of_nat (length (line_prefix cfg pflags st)) <= window_columns cfg + e ->
  wrap_bound (window_columns cfg + e)
    (line_prefix cfg pflags st
     ++ list_output cfg q (if flag pflags (GNP cfg) then 8 else 0)).
Proof.
  intros HW He Hq H8 HB. apply runs_ok_sound.
  rewrite runs_ok_app by apply line_prefix_nl_free.
  apply list_output_runs; try assumption; try lia.
  unfold line_prefix in *. destruct (flag pflags (GNP cfg)); simpl in *; lia.
Qed.

(** C8, as the code has it.  In list mode, with or without line
    numbers, on a window of at least one column, and with a line-number
    prefix (the address and a tab, when numbers are printed) of at most
    8 characters, the column that the code assumes after it, and at most
    [window_columns + 3]: what [print_line] prints for a line before the
    trailer, the prefix and the escaped bytes, is such that every
    physical line that ends in a wrap sequence holds at most
    [window_columns + 3] characters before it.  The wrap is decided
    before the first character of the escaped form of a byte, and an
    escaped form of up to 4 characters is never split.  When every byte
    of the line prints as itself and the prefix takes at most
    [window_columns] characters, such a physical line holds at most
    [window_columns] characters. *)
Theorem print_line_wrap_bound (cfg : config) (p : list byte) (len pflags : Z)
  (st : ed) :
  flag pflags (GLS cfg) = true ->
  1 <= window_columns cfg ->
  Z.of_nat (length (line_prefix cfg pflags st)) <= 8 ->
  Z.of_nat (length (line_prefix cfg pflags st)) <= window_columns cfg + 3 ->
  exists o,
    stdout (print_line cfg p len pflags st)
    = stdout st ++ o ++ line_trailer cfg pflags
    /\ o = line_prefix cfg pflags st
           ++ list_output cfg (firstn (Z.to_nat len) p)
                          (if flag pflags (GNP cfg) then 8 else 0)
    /\ wrap_bound (window_columns cfg + 3) o
    /\ (forallb plain (firstn (Z.to_nat len) p) = true ->
        Z.of_nat (length (line_prefix cfg pflags st)) <= window_columns cfg ->
        wrap_bound (window_columns cfg) o).
Proof.
  intros Hls HW H8 HB.
  exists (line_prefix cfg pflags st
          ++ list_output cfg (firstn (Z.to_nat len) p)
                         (if flag pflags (GNP cfg) then 8 else 0)).
  split; [|split; [reflexivity|split]].
  - rewrite print_line_list by assumption. now rewrite <- app_assoc.
  - apply prefixed_output_runs; try assumption; try lia.
    apply Forall_forall. intros ch _.
    pose proof (rendering_length ch). lia.
  - intros Hp HBW.
    replace (window_columns cfg) with (window_columns cfg + 0) at 1 by lia.
    apply prefixed_output_runs; try assumption; try lia.
    now apply forallb_plain_length.
Qed.

Lemma print_line_wrap_bound_witness :
  let p := bytes "ab" ++ [x01] ++ bytes "cdefghijklmno" in
  exists o,
    stdout (print_line narrow_cfg p 16 6 two_lines_ed)
    = stdout two_lines_ed ++ o ++ line_trailer narrow_cfg 6
    /\ o = line_prefix narrow_cfg 6 two_lines_ed
           ++ list_output narrow_cfg (firstn (Z.to_nat 16) p)
                          (if flag 6 (GNP narrow_cfg) then 8 else 0)
    /\ wrap_bound (window_columns narrow_cfg + 3) o
    /\ (forallb plain (firstn (Z.to_nat 16) p) = true ->
        Z.of_nat (length (line_prefix narrow_cfg 6 two_lines_ed))
        <= window_columns narrow_cfg ->
        wrap_bound (window_columns narrow_cfg) o).
Proof.
  intro p.
  apply (print_line_wrap_bound narrow_cfg p 16 6 two_lines_ed).
  - reflexivity.
  - vm_compute. discriminate.
  - vm_compute. discriminate.
  - vm_compute. discriminate.
Defined.

(** The bound on the prefix is needed.  After the prefix the code
    continues at column 8 whatever the prefix took: with the address
    12345678, a prefix of 9 characters, the window of 10 columns holds a
    first physical line of 14 characters before the wrap sequence. *)
Lemma print_line_long_prefix_example :
  stdout (print_line narrow_cfg (bytes "a" ++ [x01] ++ bytes "b") 3 6
                     (set_current_addr 12345678 empty_ed))
  = (bytes "12345678" ++ [TAB] ++ bytes "a" ++ BSLASH :: bytes "001")
    ++ wrap ++ bytes "b$" ++ [NL]
  /\ Z.of_nat (length (bytes "12345678" ++ [TAB] ++ bytes "a"
                       ++ BSLASH :: bytes "001")) = 14
  /\ window_columns narrow_cfg = 10.
Proof. repeat split; vm_compute; reflexivity. Qed.

(** C8 as stated fails.  On the window of 72 columns the line of 71
    letters [a], the byte 1 and the letter [b] is printed as a physical
    line of 75 characters, the 71 letters and backslash 001, before the
    wrap sequence. *)
Lemma print_line_wrap_counterexample :
  stdout (print_line sample_cfg (repeat x61 71 ++ [x01; x62]) 73 2 empty_ed)
  = (repeat x61 71 ++ BSLASH :: bytes "001") ++ wrap ++ bytes "b$" ++ [NL]
  /\ nl_free (repeat x61 71 ++ BSLASH :: bytes "001")
  /\ Z.of_nat (length (repeat x61 71 ++ BSLASH :: bytes "001")) = 75
  /\ window_columns sample_cfg = 72
  /\ ~ wrap_bound (window_columns sample_cfg)
         (list_output sample_cfg (repeat x61 71 ++ [x01; x62]) 0).
Proof.
  split; [vm_compute; reflexivity|].
  split.
  { unfold nl_free. intro H. apply in_app_or in H. destruct H as [H|H].
    - apply repeat_spec in H. discriminate H.
    - simpl in H. intuition discriminate. }
  split; [reflexivity|]. split; [reflexivity|].
  intro H.
  specialize (H [] (repeat x61 71 ++ BSLASH :: bytes "001") (bytes "b")).
  assert (K : Z.of_nat (length (repeat x61 71 ++ BSLASH :: bytes "001"))
              <= window_columns sample_cfg).
  { apply H.
    - vm_compute. reflexivity.
    - unfold nl_free. intro H'. apply in_app_or in H'. destruct H' as [H'|H'].
      + apply repeat_spec in H'. discriminate H'.
      + simpl in H'. intuition discriminate.
    - now left. }
  vm_compute in K. now apply K.
Qed.

(** ** write_file *)

Lemma bytes_eqb_refl (a : list byte) : bytes_eqb a a = true.
Proof.
  unfold bytes_eqb. destruct (list_eq_dec byte_eq_dec a a); congruence.
Qed.

Lemma binmode_ok (cfg : config) (mode : list byte) (w : world) (st : ed) :
  mode_buffer_ok cfg w st = true ->
  (if os2 cfg then os2_binmode mode w st else Some mode)
  = Some (if os2 cfg then mode ++ bytes "b" else mode).
Proof.
  unfold mode_buffer_ok, os2_binmode.
  destruct (os2 cfg), (textmode st), (malloc_ok w); simpl; intro H;
    try discriminate H; reflexivity.
Qed.

(** C10, as the code has it.  The range given to [write_file] is empty
    or invalid: [from] is 0 or greater than [to].  Then [write_stream]
    writes no byte to whatever stream it is given.  Outside the OS/2
    build's copy into the caller's mode (text mode, or no memory for the
    mode buffer), the target is opened all the same: a regular file with
    the mode requested (followed by [b] in the OS/2 build), a pipe always
    with the mode [w].  When the open fails the result is -1.  When it
    succeeds the stream is closed with nothing written: a file opened
    with a mode that starts with [w] is left empty, a file opened to
    append keeps its contents; and when the close succeeds too the
    result is 0. *)
Theorem write_file_empty_range (cfg : config) (filename mode : list byte)
  (from to : Z) (w : world) (st : ed) :
  from = 0 \/ to < from ->
  mode_buffer_ok cfg w st = true ->
  let is_pipe := Byte.eqb (hd NUL filename) BANG in
  let path := strip_escapes filename in
  let opened :=
    if is_pipe then Popen (tl filename) (bytes "w")
    else Fopen path (if os2 cfg then mode ++ bytes "b" else mode) in
  let closed := if is_pipe then Pclose (tl filename) else Fclose path in
  (forall fp, write_stream fp from to st = Some (0, fp, st))
  /\ exists r w' st',
       write_file cfg filename mode from to w st = Returns (r, w', st')
       /\ (open_ok w = false -> r = -1 /\ calls w' = calls w ++ [opened])
       /\ (open_ok w = true ->
           calls w' = calls w ++ [opened; closed]
           /\ (close_status w = 0 -> r = 0)
           /\ (is_pipe = false ->
               disk w' path
               = Some (if Byte.eqb (hd NUL (if os2 cfg then mode ++ bytes "b" else mode)) x77
                       then [] else contents w path))).
Proof.
  intros Hrange Hmode is_pipe path opened closed.
  split; [intro fp; now apply write_stream_empty_range|].
  unfold write_file. rewrite binmode_ok by assumption.
  fold is_pipe. fold path.
  set (binmode := if os2 cfg then mode ++ bytes "b" else mode) in *.
  assert (Hret : (if negb (from =? 0) && (from <=? to) then to - from + 1 else 0) = 0).
  { destruct Hrange as [H|H].
    - subst from. reflexivity.
    - replace (from <=? to) with false by (symmetry; apply Z.leb_gt; lia).
      now rewrite andb_false_r. }
  destruct is_pipe eqn:Ep; unfold opened, closed.
  - (* a pipe *)
    unfold popen. simpl open_ok.
    destruct (open_ok w) eqn:Eo.
    + rewrite write_stream_empty_range by assumption.
      unfold pclose. simpl dest. simpl close_status. simpl Z.ltb. cbv iota.
      destruct (close_status w =? 0) eqn:Ec; simpl negb; cbv iota.
      * rewrite Hret. eexists. eexists. eexists. split; [reflexivity|].
        split; [discriminate|]. intros _.
        split; [simpl; now rewrite <- app_assoc|].
        split; [reflexivity|discriminate].
      * eexists. eexists. eexists. split; [reflexivity|].
        split; [discriminate|]. intros _.
        split; [simpl; now rewrite <- app_assoc|].
        split; [|discriminate].
        intro K. rewrite K in Ec. discriminate Ec.
    + eexists. eexists. eexists. split; [reflexivity|].
      split; [|discriminate]. intros _. split; reflexivity.
  - (* a regular file *)
    unfold fopen. simpl open_ok.
    destruct (open_ok w) eqn:Eo.
    + rewrite write_stream_empty_range by assumption.
      unfold fclose. cbn [dest written]. rewrite app_nil_r.
      assert (Hdisk : forall w1 : world,
                disk (log (Fclose path) (store path (contents w1 path) w1)) path
                = Some (contents w1 path)).
      { intro w1. simpl. now rewrite bytes_eqb_refl. }
      assert (Hc : contents (if Byte.eqb (hd NUL binmode) x77
                             then store path [] (log (Fopen path binmode) w)
                             else store path (contents (log (Fopen path binmode) w) path)
                                        (log (Fopen path binmode) w)) path
                   = if Byte.eqb (hd NUL binmode) x77 then [] else contents w path).
      { unfold contents. destruct (Byte.eqb (hd NUL binmode) x77); simpl;
          now rewrite bytes_eqb_refl. }
      assert (Hcalls : forall c, calls (if Byte.eqb (hd NUL binmode) x77
                             then store path [] (log (Fopen path binmode) w)
                             else store path c (log (Fopen path binmode) w))
                       = calls w ++ [Fopen path binmode]).
      { intro c. now destruct (Byte.eqb (hd NUL binmode) x77). }
      assert (Hcs : forall c, close_status (if Byte.eqb (hd NUL binmode) x77
                             then store path [] (log (Fopen path binmode) w)
                             else store path c (log (Fopen path binmode) w))
                       = close_status w).
      { intro c. now destruct (Byte.eqb (hd NUL binmode) x77). }
      rewrite Hcs. simpl Z.ltb. cbv iota.
      destruct (close_status w =? 0) eqn:Ec; simpl negb; cbv iota.
      * rewrite Hret. eexists. eexists. eexists. split; [reflexivity|].
        split; [discriminate|]. intros _.
        split; [simpl calls; rewrite Hcalls, <- app_assoc; reflexivity|].
        split; [reflexivity|]. intros _. rewrite Hdisk, Hc. reflexivity.
      * eexists. eexists. eexists. split; [reflexivity|].
        split; [discriminate|]. intros _.
        split; [simpl calls; rewrite Hcalls, <- app_assoc; reflexivity|].
        split; [intro K; rewrite K in Ec; discriminate Ec|].
        intros _. rewrite Hdisk, Hc. reflexivity.
    + eexists. eexists. eexists. split; [reflexivity|].
      split; [|discriminate]. intros _. split; reflexivity.
Qed.

Lemma write_file_empty_range_witness :
  let is_pipe := Byte.eqb (hd NUL (bytes "f")) BANG in
  let path := strip_escapes (bytes "f") in
  let opened :=
    if is_pipe then Popen (tl (bytes "f")) (bytes "w")
    else Fopen path (if os2 sample_cfg then bytes "w" ++ bytes "b" else bytes "w") in
  let closed := if is_pipe then Pclose (tl (bytes "f")) else Fclose path in
  (forall fp, write_stream fp 0 0 two_lines_ed = Some (0, fp, two_lines_ed))
  /\ exists r w' st',
       write_file sample_cfg (bytes "f") (bytes "w") 0 0 sample_world two_lines_ed
       = Returns (r, w', st')
       /\ (open_ok sample_world = false ->
           r = -1 /\ calls w' = calls sample_world ++ [opened])
       /\ (open_ok sample_world = true ->
           calls w' = calls sample_world ++ [opened; closed]
           /\ (close_status sample_world = 0 -> r = 0)
           /\ (is_pipe = false ->
               disk w' path
               = Some (if Byte.eqb (hd NUL (if os2 sample_cfg
                                            then bytes "w" ++ bytes "b"
                                            else bytes "w")) x77
                       then [] else contents sample_world path))).
Proof.
  apply (write_file_empty_range sample_cfg (bytes "f") (bytes "w") 0 0
           sample_world two_lines_ed).
  - left. reflexivity.
  - reflexivity.
Defined.

(** C10 as stated fails for a pipe.  With the mode [a] requested, the
    pipe to the command [cat] is opened with the mode [w]: [popen] is
    never called with the mode requested. *)
Lemma write_file_pipe_mode_counterexample :
  exists w' st',
    write_file sample_cfg (bytes "!cat") (bytes "a") 0 0 sample_world two_lines_ed
    = Returns (0, w', st')
    /\ calls w' = [Popen (bytes "cat") (bytes "w"); Pclose (bytes "cat")]
    /\ ~ In (Popen (bytes "cat") (bytes "a")) (calls w').
Proof.
  eexists. eexists. split; [vm_compute; reflexivity|].
  split; [reflexivity|].
  simpl. intros [E|[E|[]]]; discriminate E.
Qed.

(** ** The loops end before their fuel *)

Lemma read_stream_line_loop_takes (cfg : config) (l : list byte) :
  forall (buf : list byte) (st : ed) ex buf' l' st',
    read_stream_line_loop cfg l buf st = (ex, buf', l', st') ->
    (length buf' + length l' = length buf + length l)%nat.
Proof.
  induction l as [|c l IH]; intros buf st ex buf' l' st' H; simpl in H.
  - destruct (resize_buffer cfg (Z.of_nat (length buf) + 2) st) as [[|] s1];
      injection H as <- <- <- <-; reflexivity.
  - destruct (resize_buffer cfg (Z.of_nat (length buf) + 2) st) as [[|] s1].
    + destruct (Byte.eqb c NUL).
      * apply IH in H. rewrite length_app in H. simpl in *. lia.
      * destruct (Byte.eqb c NL).
        -- injection H as <- <- <- <-. rewrite length_app. simpl. lia.
        -- apply IH in H. rewrite length_app in H. simpl in *. lia.
    + injection H as <- <- <- <-. reflexivity.
Qed.

(** A call of [read_stream_line] that reports a positive size has taken
    at least one byte from the stream. *)
Lemma read_stream_line_takes (cfg : config) (fp fp' : istream) (size0 size : Z)
  (nla nla' : bool) (st st' : ed) (s : list byte) :
  read_stream_line cfg fp size0 nla st = (Some s, size, nla', fp', st') ->
  0 < size ->
  (length (pending fp') < length (pending fp))%nat.
Proof.
  unfold read_stream_line. intros H Hsize.
  destruct (read_stream_line_loop cfg (pending fp) [] st) as [[[ex buf] l] s1] eqn:E.
  apply read_stream_line_loop_takes in E. simpl in E.
  destruct ex.
  - discriminate H.
  - unfold ferror in H. simpl in H.
    destruct (ferror_ fp); [discriminate H|].
    destruct (Z.of_nat (length buf) =? 0) eqn:Z0; simpl in H.
    + injection H as _ <- _ _ _. apply Z.eqb_eq in Z0. lia.
    + injection H as _ _ _ <- _. simpl. apply Z.eqb_neq in Z0. lia.
  - injection H as _ <- _ <- _. simpl. lia.
Qed.

Lemma read_stream_loop_total (cfg : config) (fuel : nat) :
  forall fp lp up total nla st,
    (length (pending fp) < fuel)%nat ->
    exists r, read_stream_loop cfg fuel fp lp up total nla st = Some r.
Proof.
  induction fuel as [|fuel IH]; intros fp lp up total nla st Hfuel; [lia|].
  cbn [read_stream_loop].
  destruct (read_stream_line cfg fp 0 nla st) as [[[[s size] nla'] fp'] st'] eqn:E.
  destruct s as [s|]; [|eexists; reflexivity].
  destruct (size <=? 0) eqn:Es; [eexists; reflexivity|].
  apply Z.leb_gt in Es.
  pose proof (read_stream_line_takes cfg fp fp' 0 size nla nla' st st' s E Es) as Ht.
  destruct (put_sbuf_line s (size + b2z nla') (disable_interrupts st')) as [[|] s2];
    [|eexists; reflexivity].
  destruct up as [u|].
  - apply IH. lia.
  - cbn [push_undo_atom]. apply IH. lia.
Qed.

(** [read_stream] returns on every stream, address and state. *)
Lemma read_stream_total (cfg : config) (fp : istream) (addr : Z) (st : ed) :
  exists r, read_stream cfg fp addr st = Some r.
Proof.
  unfold read_stream.
  destruct (read_stream_loop_total cfg (S (length (pending fp))) fp
              (search_line_node st addr) None 0 false (set_current_addr addr st))
    as [[[[[ok total] nla] fp'] st'] E]; [lia|].
  rewrite E. destruct ok; eexists; reflexivity.
Qed.




(** ** get_stdin_line: complete lines, read errors, the size of the buffer *)

Lemma get_stdin_loop_newline (cfg : config) (body rest buf : list byte)
  (e : bool) (st : ed) :
  nl_free body ->
  Z.of_nat (length buf + length body) + 2 <= mem_limit cfg ->
  get_stdin_loop cfg (body ++ NL :: rest) e buf st
  = (Some (buf ++ body ++ [NL; NUL]), Z.of_nat (length (buf ++ body)) + 1,
     {| pending := rest; ferror_ := e |},
     set_linenum_ (linenum_ (mark_binary body st) + 1) (mark_binary body st)).
Proof.
  revert buf st. induction body as [|c l IH]; intros buf st Hnl Hmem;
    simpl in Hmem.
  - simpl. rewrite resize_buffer_ok by lia.
    rewrite app_nil_r, <- app_assoc, length_app. simpl.
    repeat f_equal. lia.
  - apply nl_free_cons in Hnl. destruct Hnl as [Hc Hnl].
    simpl app. cbn [get_stdin_loop]. rewrite resize_buffer_ok by lia.
    rewrite Hc. cbn [negb]. rewrite mark_binary_cons.
    rewrite IH by (try assumption; rewrite length_app; simpl; lia).
    rewrite <- !app_assoc. simpl app.
    replace (length (buf ++ c :: l)) with (length ((buf ++ [c]) ++ l))
      by (rewrite <- app_assoc; reflexivity).
    rewrite <- app_assoc. simpl app.
    destruct (Byte.eqb c NUL); [rewrite mark_binary_set|]; reflexivity.
Qed.

(** X1.  A complete line on standard input: [get_stdin_line] returns the
    line with its newline, NUL-terminated, and its size, newline
    included; it takes exactly these bytes from standard input, adds one
    to the line counter, sets the binary flag when the line holds a NUL,
    and leaves the error message and the rest of the state alone. *)
Theorem get_stdin_line_complete (cfg : config) (body rest : list byte)
  (e : bool) (st : ed) :
  nl_free body ->
  Z.of_nat (length body) + 2 <= mem_limit cfg ->
  get_stdin_line cfg {| pending := body ++ NL :: rest; ferror_ := e |} st
  = (Some (body ++ [NL; NUL]), Z.of_nat (length body) + 1,
     {| pending := rest; ferror_ := e |},
     set_linenum_ (linenum_ st + 1) (mark_binary body st)).
Proof.
  intros Hnl Hmem. unfold get_stdin_line. simpl pending. simpl ferror_.
  rewrite get_stdin_loop_newline by (simpl; assumption).
  simpl app. simpl length.
  replace (linenum_ (mark_binary body st)) with (linenum_ st)
    by (unfold mark_binary; now destruct (has_nul body)).
  reflexivity.
Qed.

Lemma get_stdin_line_complete_witness :
  get_stdin_line sample_cfg
    {| pending := bytes "1,2p" ++ NL :: bytes "q"; ferror_ := false |} empty_ed
  = (Some (bytes "1,2p" ++ [NL; NUL]), Z.of_nat (length (bytes "1,2p")) + 1,
     {| pending := bytes "q"; ferror_ := false |},
     set_linenum_ (linenum_ empty_ed + 1) (mark_binary (bytes "1,2p") empty_ed)).
Proof.
  apply (get_stdin_line_complete sample_cfg (bytes "1,2p") (bytes "q") false empty_ed).
  - unfold nl_free. simpl. intuition discriminate.
  - vm_compute. discriminate.
Defined.

Lemma get_stdin_loop_error (cfg : config) (l buf : list byte) (st : ed) :
  nl_free l ->
  Z.of_nat (length buf + length l) + 2 <= mem_limit cfg ->
  get_stdin_loop cfg l true buf st
  = (None, 0, clean [],
     set_error_msg "Cannot read stdin"
       (show_strerror (Some (bytes "stdin")) (mark_binary l st))).
Proof.
  revert buf st. induction l as [|c l IH]; intros buf st Hnl Hmem; simpl in Hmem.
  - simpl. now rewrite resize_buffer_ok by lia.
  - apply nl_free_cons in Hnl. destruct Hnl as [Hc Hnl].
    cbn [get_stdin_loop]. rewrite resize_buffer_ok by lia.
    rewrite Hc. cbn [negb]. rewrite mark_binary_cons.
    rewrite IH by (try assumption; rewrite length_app; simpl; lia).
    destruct (Byte.eqb c NUL); [rewrite mark_binary_set|]; reflexivity.
Qed.

(** X2.  A read error on standard input before a newline: whatever was
    read of the line is dropped, [get_stdin_line] returns the null
    pointer and size 0, reports the system error for [stdin], sets the
    message [Cannot read stdin] and clears the error indicator.  Unlike
    at an end of file, the line counter does not move. *)
Theorem get_stdin_line_read_error (cfg : config) (l : list byte) (st : ed) :
  nl_free l ->
  Z.of_nat (length l) + 2 <= mem_limit cfg ->
  exists st',
    get_stdin_line cfg {| pending := l; ferror_ := true |} st
    = (None, 0, {| pending := []; ferror_ := false |}, st')
    /\ errmsg st' = "Cannot read stdin"%string
    /\ stderr st' = stderr st ++ [Some (bytes "stdin")]
    /\ linenum st' = linenum st
    /\ lines st' = lines st.
Proof.
  intros Hnl Hmem. unfold get_stdin_line. simpl pending. simpl ferror_.
  rewrite get_stdin_loop_error by (simpl; assumption).
  eexists. split; [reflexivity|].
  unfold mark_binary, linenum. destruct (has_nul l); repeat split.
Qed.

Lemma get_stdin_line_read_error_witness :
  exists st',
    get_stdin_line sample_cfg {| pending := bytes "ab"; ferror_ := true |} empty_ed
    = (None, 0, {| pending := []; ferror_ := false |}, st')
    /\ errmsg st' = "Cannot read stdin"%string
    /\ stderr st' = stderr empty_ed ++ [Some (bytes "stdin")]
    /\ linenum st' = linenum empty_ed
    /\ lines st' = lines empty_ed.
Proof.
  apply (get_stdin_line_read_error sample_cfg (bytes "ab") empty_ed).
  - unfold nl_free. simpl. intuition discriminate.
  - vm_compute. discriminate.
Defined.

Lemma get_stdin_loop_bound (cfg : config) (l : list byte) :
  forall (e : bool) (acc : list byte) (st : ed) buf size stdin' st',
    get_stdin_loop cfg l e acc st = (Some buf, size, stdin', st') ->
    Z.of_nat (length buf) <= mem_limit cfg
    /\ 0 <= size < Z.of_nat (length buf)
    /\ nth (Z.to_nat size) buf NL = NUL.
Proof.
  induction l as [|c l IH]; intros e acc st buf size stdin' st' H;
    cbn [get_stdin_loop] in H; unfold resize_buffer in H;
    destruct (Z.of_nat (length acc) + 2 <=? mem_limit cfg) eqn:M;
    try discriminate H; apply Z.leb_le in M.
  - unfold ferror in H. simpl in H. destruct e; [discriminate H|].
    injection H as <- <- _ _.
    unfold poke. destruct acc as [|a acc]; simpl in *;
      (split; [lia|]); (split; [lia|reflexivity]).
  - destruct (negb (Byte.eqb c NL)).
    + now apply IH in H.
    + injection H as <- <- _ _.
      rewrite !length_app. simpl length. split; [lia|]. split; [lia|].
      rewrite Nat2Z.id.
      replace (length acc + 1)%nat with (length (acc ++ [c]))
        by (rewrite length_app; reflexivity).
      now rewrite nth_middle.
Qed.

Lemma read_stream_line_loop_bound (cfg : config) (l : list byte) :
  forall (buf : list byte) (st : ed) ex buf' l' st',
    read_stream_line_loop cfg l buf st = (ex, buf', l', st') ->
    match ex with
    | NoMemory => True
    | AtEOF => Z.of_nat (length buf') + 2 <= mem_limit cfg
    | AtNewline => Z.of_nat (length buf') + 1 <= mem_limit cfg
    end.
Proof.
  induction l as [|c l IH]; intros buf st ex buf' l' st' H;
    cbn [read_stream_line_loop] in H; unfold resize_buffer in H;
    destruct (Z.of_nat (length buf) + 2 <=? mem_limit cfg) eqn:M;
    try (injection H as <- _ _ _; exact I); apply Z.leb_le in M.
  - injection H as <- <- _ _. assumption.
  - destruct (Byte.eqb c NUL).
    + now apply IH in H.
    + destruct (Byte.eqb c NL).
      * injection H as <- <- _ _. rewrite length_app. simpl length. lia.
      * now apply IH in H.
Qed.

(** X3.  Whatever standard input holds, a buffer that [get_stdin_line]
    returns is no larger than the size granted by [resize_buffer], the
    size it reports lies inside the buffer, and the cell at that index
    holds the terminating NUL. *)
Theorem get_stdin_line_within_allocation (cfg : config) (stdin stdin' : istream)
  (st st' : ed) (buf : list byte) (size : Z) :
  get_stdin_line cfg stdin st = (Some buf, size, stdin', st') ->
  Z.of_nat (length buf) <= mem_limit cfg
  /\ 0 <= size < Z.of_nat (length buf)
  /\ nth (Z.to_nat size) buf NL = NUL.
Proof.
  intro H. unfold get_stdin_line in H. now apply get_stdin_loop_bound in H.
Qed.

Lemma get_stdin_line_within_allocation_witness :
  Z.of_nat (length (bytes "ab" ++ [NL; NUL])) <= mem_limit sample_cfg
  /\ 0 <= 3 < Z.of_nat (length (bytes "ab" ++ [NL; NUL]))
  /\ nth (Z.to_nat 3) (bytes "ab" ++ [NL; NUL]) NL = NUL.
Proof.
  apply (get_stdin_line_within_allocation sample_cfg
           (clean (bytes "ab" ++ [NL])) (clean []) empty_ed
           (set_linenum_ 1 empty_ed)).
  reflexivity.
Defined.

(** X4.  Whatever the stream holds, a buffer that [read_stream_line]
    returns is no larger than the size granted by [resize_buffer], and
    the number of cells that [read_stream] hands to [put_sbuf_line], the
    size plus the newline-added flag, stays within the buffer.  The cell
    at the index [size] holds the terminating NUL, or, in binary mode,
    the synthesized newline that the size leaves out. *)
Theorem read_stream_line_within_allocation (cfg : config) (fp fp' : istream)
  (size0 size : Z) (nla nla' : bool) (st st' : ed) (buf : list byte) :
  read_stream_line cfg fp size0 nla st = (Some buf, size, nla', fp', st') ->
  Z.of_nat (length buf) <= mem_limit cfg
  /\ 0 <= size < Z.of_nat (length buf)
  /\ size + b2z nla' <= Z.of_nat (length buf)
  /\ (nth (Z.to_nat size) buf NUL = NUL
      \/ nth (Z.to_nat size) buf NUL = NL /\ isbinary st' = true).
Proof.
  intro H. unfold read_stream_line in H.
  destruct (read_stream_line_loop cfg (pending fp) [] st)
    as [[[ex b] l] s1] eqn:E.
  pose proof (read_stream_line_loop_bound cfg _ _ _ _ _ _ _ E) as B.
  destruct ex.
  - discriminate H.
  - unfold ferror in H. simpl in H. destruct (ferror_ fp); [discriminate H|].
    destruct (Z.of_nat (length b) =? 0) eqn:Z0; simpl in H.
    + injection H as <- <- <- _ _. apply Z.eqb_eq in Z0.
      rewrite length_app. simpl length.
      assert (b = []) by (destruct b; [reflexivity|simpl in Z0; lia]).
      subst b. simpl. repeat split; try lia.
      * destruct nla; simpl; lia.
      * now left.
    + apply Z.eqb_neq in Z0.
      destruct (isbinary s1) eqn:Bin; simpl in H;
        injection H as <- <- <- _ <-;
        rewrite length_app; simpl length; simpl b2z.
      * repeat split; try lia. right. split; [|assumption].
        rewrite Nat2Z.id. now rewrite nth_middle.
      * repeat split; try lia. left.
        replace (Z.to_nat (Z.of_nat (length b) + 1)) with (length (b ++ [NL]))
          by (rewrite length_app; simpl; lia).
        change (b ++ [NL; NUL]) with (b ++ [NL] ++ [NUL]).
        rewrite app_assoc. now rewrite nth_middle.
  - injection H as <- <- <- _ _.
    rewrite length_app. simpl length. repeat split; try lia.
    + destruct nla; simpl; lia.
    + left. rewrite Nat2Z.id. now rewrite nth_middle.
Qed.

Lemma read_stream_line_within_allocation_witness :
  Z.of_nat (length (bytes "a" ++ [NL; NUL])) <= mem_limit sample_cfg
  /\ 0 <= 1 < Z.of_nat (length (bytes "a" ++ [NL; NUL]))
  /\ 1 + b2z true <= Z.of_nat (length (bytes "a" ++ [NL; NUL]))
  /\ (nth (Z.to_nat 1) (bytes "a" ++ [NL; NUL]) NUL = NUL
      \/ nth (Z.to_nat 1) (bytes "a" ++ [NL; NUL]) NUL = NL
         /\ isbinary empty_binary_ed = true).
Proof.
  apply (read_stream_line_within_allocation sample_cfg (clean (bytes "a"))
           (clean []) 0 1 false true empty_binary_ed empty_binary_ed).
  reflexivity.
Defined.

(** ** print_line and print_lines *)

Lemma print_loop_plain (cfg : config) (pflags : Z) (p : list byte) (n : nat) :
  flag pflags (GLS cfg) = false ->
  forall (col : Z) (st : ed),
    snd (print_loop cfg pflags p n col st) = fputs (firstn n p) st.
Proof.
  intro H. revert p. induction n as [|n IH]; intros p col st.
  - destruct p; simpl; now rewrite fputs_nil.
  - destruct p as [|ch p]; [simpl; now rewrite fputs_nil|].
    cbn [print_loop firstn]. unfold print_char. rewrite H. cbn [negb].
    rewrite IH, putchar_fputs, fputs_fputs. reflexivity.
Qed.

(** [print_line] only appends to the standard output. *)
Lemma print_line_fputs (cfg : config) (p : list byte) (len pflags : Z) (st : ed) :
  print_line cfg p len pflags st
  = fputs (printed_line cfg pflags (current_addr st) (firstn (Z.to_nat len) p)) st.
Proof.
  unfold print_line, printed_line, line_trailer.
  destruct (flag pflags (GLS cfg)) eqn:Hls.
  - destruct (flag pflags (GNP cfg)).
    + pose proof (print_loop_list cfg pflags p (Z.to_nat len) Hls 8
                    (fputs (decimal (current_addr st) ++ [TAB]) st)) as E.
      destruct (print_loop cfg pflags p (Z.to_nat len) 8 _) as [c s1].
      simpl in E. subst s1.
      destruct (traditional cfg); cbn [negb andb];
        rewrite !putchar_fputs, !fputs_fputs, <- ?app_assoc; reflexivity.
    + pose proof (print_loop_list cfg pflags p (Z.to_nat len) Hls 0 st) as E.
      destruct (print_loop cfg pflags p (Z.to_nat len) 0 st) as [c s1].
      simpl in E. subst s1.
      destruct (traditional cfg); cbn [negb andb];
        rewrite !putchar_fputs, !fputs_fputs, <- ?app_assoc; reflexivity.
  - rewrite andb_false_r.
    destruct (flag pflags (GNP cfg)).
    + pose proof (print_loop_plain cfg pflags p (Z.to_nat len) Hls 8
                    (fputs (decimal (current_addr st) ++ [TAB]) st)) as E.
      destruct (print_loop cfg pflags p (Z.to_nat len) 8 _) as [c s1].
      simpl in E. subst s1.
      rewrite !putchar_fputs, !fputs_fputs, <- ?app_assoc. reflexivity.
    + pose proof (print_loop_plain cfg pflags p (Z.to_nat len) Hls 0 st) as E.
      destruct (print_loop cfg pflags p (Z.to_nat len) 0 st) as [c s1].
      simpl in E. subst s1.
      rewrite !putchar_fputs, !fputs_fputs. reflexivity.
Qed.

(** X5.  Outside list mode [print_line] writes the first [len] bytes of
    the line as they are, whatever they are and whatever the width of the
    window: after the line number and a tab when numbering is on, then a
    newline; no backslash, no [$], no wrap.  Nothing but the standard
    output changes. *)
Theorem print_line_plain (cfg : config) (p : list byte) (len pflags : Z) (st : ed) :
  flag pflags (GLS cfg) = false ->
  print_line cfg p len pflags st
  = fputs ((if flag pflags (GNP cfg) then decimal (current_addr st) ++ [TAB] else [])
           ++ firstn (Z.to_nat len) p ++ [NL]) st.
Proof.
  intro H. rewrite print_line_fputs.
  unfold printed_line, line_trailer. rewrite H, andb_false_r. reflexivity.
Qed.

Lemma print_line_plain_witness :
  print_line sample_cfg [x00; BSLASH; DOLLAR; x07] 4 4 two_lines_ed
  = fputs ((if flag 4 (GNP sample_cfg)
            then decimal (current_addr two_lines_ed) ++ [TAB] else [])
           ++ firstn (Z.to_nat 4) [x00; BSLASH; DOLLAR; x07] ++ [NL]) two_lines_ed.
Proof.
  apply (print_line_plain sample_cfg [x00; BSLASH; DOLLAR; x07] 4 4 two_lines_ed).
  reflexivity.
Defined.

Lemma node_at_fputs (s : list byte) (a : Z) (st : ed) (lp : nat) :
  node_at (fputs s (set_current_addr a st)) lp = node_at st lp.
Proof. reflexivity. Qed.

(** The loop of [print_lines] over the nodes [mid], which sit after the
    nodes [pre]; [ep] is the position after them in the ring. *)
Lemma print_lines_loop_nodes (cfg : config) (pflags : Z) (mid : list line_t) :
  forall (pre post : list line_t) (fuel : nat) (bp : nat) (from : Z) (st : ed),
    lines st = pre ++ mid ++ post ->
    from = Z.of_nat (length pre) + 1 ->
    bp = (if is_nil mid
          then (if is_nil post then 0%nat else S (length pre))
          else S (length pre)) ->
    (length mid <= fuel)%nat ->
    print_lines_loop cfg fuel bp
      (if is_nil post then 0%nat else S (length pre + length mid)) from pflags st
    = Some (true,
            if is_nil mid then st
            else fputs (printed_nodes cfg pflags from mid)
                       (set_current_addr (from + Z.of_nat (length mid) - 1) st)).
Proof.
  induction mid as [|x mid IH]; intros pre post fuel bp from st HL Hfrom Hbp Hfuel.
  - simpl in Hbp. subst bp. rewrite Nat.add_0_r. simpl is_nil.
    destruct fuel; simpl;
      destruct (is_nil post); now rewrite Nat.eqb_refl.
  - simpl in Hbp. subst bp. simpl length in Hfuel.
    destruct fuel as [|fuel]; [lia|].
    cbn [print_lines_loop is_nil].
    assert (Hne : Nat.eqb (S (length pre))
                    (if is_nil post then 0%nat
                     else S (length pre + length (x :: mid))) = false).
    { apply Nat.eqb_neq. destruct (is_nil post); simpl length; lia. }
    rewrite Hne. cbn [get_sbuf_line].
    assert (Hx : node_at st (S (length pre)) = x)
      by (now apply node_at_middle with (post := mid ++ post)).
    change (node_at (set_current_addr from st) (S (length pre)))
      with (node_at st (S (length pre))).
    rewrite Hx. unfold len.
    rewrite print_line_fputs, Nat2Z.id, firstn_length_app.
    change (current_addr (set_current_addr from st)) with from.
    set (s1 := fputs (printed_line cfg pflags from (text x))
                     (set_current_addr from st)).
    assert (Hq : q_forw s1 (S (length pre))
                 = if is_nil mid
                   then (if is_nil post then 0%nat else S (length (pre ++ [x])))
                   else S (length (pre ++ [x]))).
    { unfold q_forw, ring. change (lines s1) with (lines st). rewrite HL.
      rewrite !length_app. simpl length. rewrite !length_app.
      destruct mid as [|y mid]; destruct post as [|z post]; simpl is_nil;
        simpl length;
        match goal with
        | |- context [(?a <? ?b)%nat] => destruct (Nat.ltb_spec a b); lia
        end. }
    replace (S (length pre + length (x :: mid)))
      with (S (length (pre ++ [x]) + length mid))
      by (rewrite length_app; simpl length; lia).
    rewrite (IH (pre ++ [x]) post fuel _ (from + 1) s1).
    + f_equal. f_equal. cbn [printed_nodes].
      destruct mid as [|y mid]; simpl is_nil.
      * cbn [printed_nodes]. rewrite app_nil_r. unfold s1. simpl length.
        replace (from + Z.of_nat 1 - 1) with from by lia. reflexivity.
      * unfold s1. rewrite <- fputs_fputs.
        replace (from + 1 + Z.of_nat (length (y :: mid)) - 1)
          with (from + Z.of_nat (length (x :: y :: mid)) - 1)
          by (simpl length; lia).
        reflexivity.
    + change (lines s1) with (lines st). now rewrite <- app_assoc.
    + rewrite length_app. simpl length. lia.
    + exact Hq.
    + lia.
Qed.

Lemma printed_nodes_addresses (cfg : config) (pflags : Z) (st : ed)
  (mid : list line_t) :
  forall pre post,
    lines st = pre ++ mid ++ post ->
    printed_nodes cfg pflags (Z.of_nat (length pre) + 1) mid
    = flat_map (fun a => printed_line cfg pflags a (text (node_at st (Z.to_nat a))))
               (addresses (Z.of_nat (length pre) + 1)
                          (Z.of_nat (length pre + length mid))).
Proof.
  induction mid as [|x mid IH]; intros pre post H.
  - rewrite addresses_nil by (simpl; lia). reflexivity.
  - rewrite addresses_cons by (simpl; lia).
    cbn [printed_nodes flat_map].
    replace (Z.to_nat (Z.of_nat (length pre) + 1)) with (S (length pre)) by lia.
    rewrite (node_at_middle st pre (mid ++ post) x H). f_equal.
    replace (Z.of_nat (length pre) + 1 + 1)
      with (Z.of_nat (length (pre ++ [x])) + 1)
      by (rewrite length_app; simpl; lia).
    rewrite (IH (pre ++ [x]) post) by (now rewrite <- app_assoc).
    f_equal. f_equal. rewrite length_app. simpl length. lia.
Qed.

(** X6.  For a range [from .. to] of addresses of the collection,
    [print_lines] succeeds; it prints the lines of the range in order,
    each one as [print_line] prints it with its own address as line
    number, and leaves [to] as the current address.  The collection, the
    marker, the binary flag and the error message stay as they were. *)
Theorem print_lines_range (cfg : config) (from to pflags : Z) (st : ed) :
  1 <= from ->
  from <= to ->
  to <= last_addr st ->
  print_lines cfg from to pflags st
  = Some (true,
          fputs (flat_map (fun a => printed_line cfg pflags a
                                      (text (node_at st (Z.to_nat a))))
                          (addresses from to))
                (set_current_addr to st)).
Proof.
  intros Hfrom Hle Hto. unfold last_addr in Hto. unfold print_lines.
  replace (from =? 0) with false by (symmetry; apply Z.eqb_neq; lia).
  set (pre := firstn (Z.to_nat (from - 1)) (lines st)).
  set (rest := skipn (Z.to_nat (from - 1)) (lines st)).
  set (mid := firstn (Z.to_nat (to - from + 1)) rest).
  set (post := skipn (Z.to_nat (to - from + 1)) rest).
  assert (Hpre : length pre = Z.to_nat (from - 1))
    by (apply firstn_length_le; lia).
  assert (Hrest : length rest = (length (lines st) - Z.to_nat (from - 1))%nat)
    by apply length_skipn.
  assert (Hmid : length mid = Z.to_nat (to - from + 1))
    by (apply firstn_length_le; lia).
  assert (Hpost : length post = (length rest - Z.to_nat (to - from + 1))%nat)
    by apply length_skipn.
  assert (HL : lines st = pre ++ mid ++ post)
    by (unfold pre, mid, post, rest; now rewrite !firstn_skipn).
  assert (Hmidne : is_nil mid = false)
    by (destruct mid; [simpl in Hmid; lia|reflexivity]).
  assert (Hep : search_line_node st (inc_addr st to)
                = if is_nil post then 0%nat else S (length pre + length mid)).
  { unfold inc_addr, last_addr.
    destruct post as [|z post]; simpl is_nil; simpl length in Hpost.
    - replace (to + 1 >? Z.of_nat (length (lines st))) with true
        by (symmetry; apply Z.gtb_lt; lia).
      now rewrite search_line_node_valid by (unfold last_addr; lia).
    - replace (to + 1 >? Z.of_nat (length (lines st))) with false
        by (symmetry; rewrite Z.gtb_ltb; apply Z.ltb_ge; lia).
      rewrite search_line_node_valid by (unfold last_addr; lia). lia. }
  rewrite Hep, search_line_node_valid by (unfold last_addr; lia).
  rewrite (print_lines_loop_nodes cfg pflags mid pre post _ _ from st HL).
  - rewrite Hmidne.
    replace from with (Z.of_nat (length pre) + 1) at 1 by lia.
    rewrite (printed_nodes_addresses cfg pflags st mid pre post HL).
    replace (Z.of_nat (length pre) + 1) with from by lia.
    replace (Z.of_nat (length pre + length mid)) with to by lia.
    replace (from + Z.of_nat (length mid) - 1) with to by lia.
    reflexivity.
  - lia.
  - rewrite Hmidne. lia.
  - unfold ring. simpl length. rewrite HL, !length_app. lia.
Qed.

Lemma print_lines_range_witness :
  print_lines sample_cfg 1 2 6 two_lines_ed
  = Some (true,
          fputs (flat_map (fun a => printed_line sample_cfg 6 a
                                      (text (node_at two_lines_ed (Z.to_nat a))))
                          (addresses 1 2))
                (set_current_addr 2 two_lines_ed)).
Proof.
  apply (print_lines_range sample_cfg 1 2 6 two_lines_ed).
  - lia.
  - lia.
  - vm_compute. discriminate.
Defined.

(** ** read_stream: what it inserts and what it keeps *)

Lemma fresh_nodes_map_text (n : nat) (ls : list (list byte)) :
  map text (fresh_nodes n ls) = ls.
Proof.
  revert n. induction ls as [|l ls IH]; intro n; simpl; [|rewrite IH]; reflexivity.
Qed.

(** X7.  A stream that delivers the complete lines [ls] and then the
    bytes [tail] without newline is read without error at a valid
    address.  [read_stream] inserts one line per line of the stream, in
    the order of the stream and without their newlines, after the line
    [addr]; the lines that were in the collection keep their nodes, text
    and order; the current address becomes that of the last line read;
    and the binary flag is set exactly when it was set before or the
    stream holds a NUL. *)
Theorem read_stream_inserts (cfg : config) (ls : list (list byte))
  (tail : list byte) (addr : Z) (st : ed) :
  Forall nl_free ls ->
  nl_free tail ->
  0 <= addr <= last_addr st ->
  Z.of_nat (length (unlines ls ++ tail)) + 2 <= mem_limit cfg ->
  exists total st' new,
    read_stream cfg (clean (unlines ls ++ tail)) addr st
    = Some (total, clean [], st')
    /\ lines st' = firstn (Z.to_nat addr) (lines st) ++ new
                   ++ skipn (Z.to_nat addr) (lines st)
    /\ map text new = ls ++ tail_lines tail
    /\ current_addr st' = addr + Z.of_nat (length new)
    /\ last_addr st' = last_addr st + Z.of_nat (length new)
    /\ isbinary st' = binary_ st || has_nul (unlines ls ++ tail).
Proof.
  intros Hls Htail Haddr Hmem.
  destruct (read_stream_clean cfg ls tail addr st Hls Htail Haddr Hmem)
    as (st' & R & L & C & N & B & O & U).
  exists (ingest_size st addr (unlines ls ++ tail) (negb (is_nil tail))), st',
         (fresh_nodes (next_node st) (ls ++ tail_lines tail)).
  split; [exact R|]. split; [exact L|].
  split; [apply fresh_nodes_map_text|].
  rewrite fresh_nodes_length.
  split; [exact C|]. split; [|exact B].
  unfold last_addr. rewrite L, !length_app, fresh_nodes_length.
  rewrite <- (firstn_skipn (Z.to_nat addr) (lines st)) at 3.
  rewrite !length_app. lia.
Qed.

Lemma read_stream_inserts_witness :
  exists total st' new,
    read_stream sample_cfg (clean (unlines [bytes "x"] ++ bytes "y")) 1 two_lines_ed
    = Some (total, clean [], st')
    /\ lines st' = firstn (Z.to_nat 1) (lines two_lines_ed) ++ new
                   ++ skipn (Z.to_nat 1) (lines two_lines_ed)
    /\ map text new = [bytes "x"] ++ tail_lines (bytes "y")
    /\ current_addr st' = 1 + Z.of_nat (length new)
    /\ last_addr st' = last_addr two_lines_ed + Z.of_nat (length new)
    /\ isbinary st' = binary_ two_lines_ed || has_nul (unlines [bytes "x"] ++ bytes "y").
Proof.
  apply (read_stream_inserts sample_cfg [bytes "x"] (bytes "y") 1 two_lines_ed).
  - constructor; [|constructor].
    unfold nl_free. simpl. intuition discriminate.
  - unfold nl_free. simpl. intuition discriminate.
  - vm_compute. split; discriminate.
  - vm_compute. discriminate.
Defined.

Lemma fresh_nodes_in (n : nat) (ls : list (list byte)) (x : line_t) :
  In x (fresh_nodes n ls) ->
  In (text x) ls /\ (n <= node x < n + length ls)%nat.
Proof.
  revert n. induction ls as [|l ls IH]; intros n H; simpl in H.
  - contradiction.
  - destruct H as [H|H].
    + subst x. simpl. split; [now left|lia].
    + apply IH in H. simpl. split; [tauto|lia].
Qed.

Lemma fresh_nodes_nodup (n : nat) (ls : list (list byte)) :
  NoDup (map node (fresh_nodes n ls)).
Proof.
  revert n. induction ls as [|l ls IH]; intro n; simpl.
  - constructor.
  - constructor; [|apply IH].
    intro H. apply in_map_iff in H. destruct H as (x & E & H).
    apply fresh_nodes_in in H. lia.
Qed.

Lemma nodup_insert (pre post new : list nat) :
  NoDup (pre ++ post) ->
  NoDup new ->
  (forall a, In a new -> ~ In a (pre ++ post)) ->
  NoDup (pre ++ new ++ post).
Proof.
  intros Hold Hnew Hdis. induction pre as [|a pre IH]; simpl in *.
  - now apply NoDup_app.
  - apply NoDup_cons_iff in Hold. destruct Hold as [Ha Hold].
    constructor.
    + intro H. apply in_app_or in H. destruct H as [H|H].
      * apply Ha. apply in_or_app. now left.
      * apply in_app_or in H. destruct H as [H|H].
        -- apply (Hdis a H). now left.
        -- apply Ha. apply in_or_app. now right.
    + apply IH; [assumption|].
      intros b Hb Hin. apply (Hdis b Hb). now right.
Qed.

(** X8.  [read_stream] keeps the collection well formed.  When no stored
    line holds a newline, the nodes are distinct and allocated and the
    marker points to an allocated node, the same holds after a stream has
    been read without error at a valid address. *)
Theorem read_stream_keeps_well_formed (cfg : config) (ls : list (list byte))
  (tail : list byte) (addr : Z) (st : ed) :
  Forall nl_free ls ->
  nl_free tail ->
  0 <= addr <= last_addr st ->
  Z.of_nat (length (unlines ls ++ tail)) + 2 <= mem_limit cfg ->
  wf_collection st ->
  exists total st',
    read_stream cfg (clean (unlines ls ++ tail)) addr st
    = Some (total, clean [], st')
    /\ wf_collection st'.
Proof.
  intros Hls Htail Haddr Hmem (Hall & Hnd & Hpos & Hmark).
  destruct (read_stream_clean cfg ls tail addr st Hls Htail Haddr Hmem)
    as (st' & R & L & C & N & B & O & U).
  exists (ingest_size st addr (unlines ls ++ tail) (negb (is_nil tail))), st'.
  split; [exact R|].
  set (new := fresh_nodes (next_node st) (ls ++ tail_lines tail)) in *.
  rewrite <- (firstn_skipn (Z.to_nat addr) (lines st)) in Hall, Hnd.
  set (pre := firstn (Z.to_nat addr) (lines st)) in *.
  set (post := skipn (Z.to_nat addr) (lines st)) in *.
  assert (Hlt : Forall nl_free (ls ++ tail_lines tail)).
  { apply Forall_app. split; [assumption|].
    destruct tail; simpl; [constructor|].
    constructor; [assumption|constructor]. }
  assert (Hall' : Forall (fun x => nl_free (text x)
                                   /\ (0 < node x < next_node st')%nat)
                         (lines st')).
  { rewrite L, N. apply Forall_app in Hall. destruct Hall as [Hpre Hpost].
    assert (Hold : forall l, Forall (fun x => nl_free (text x)
                         /\ (0 < node x < next_node st)%nat) l ->
                   Forall (fun x => nl_free (text x)
                         /\ (0 < node x
                             < next_node st + length (ls ++ tail_lines tail))%nat) l).
    { intros l H. eapply Forall_impl; [|exact H].
      simpl. intros x [H1 H2]. split; [assumption|lia]. }
    apply Forall_app. split; [now apply Hold|].
    apply Forall_app. split; [|now apply Hold].
    apply Forall_forall. intros x Hx. apply fresh_nodes_in in Hx.
    destruct Hx as [Hx Hid]. split; [|lia].
    rewrite Forall_forall in Hlt. now apply Hlt. }
  split; [exact Hall'|].
  split.
  { rewrite L, !map_app. apply nodup_insert.
    - now rewrite <- map_app.
    - apply fresh_nodes_nodup.
    - intros a Ha Hin. apply in_map_iff in Ha. destruct Ha as (x & E & Hx).
      apply fresh_nodes_in in Hx. rewrite <- map_app in Hin.
      apply in_map_iff in Hin. destruct Hin as (y & Ey & Hy).
      rewrite Forall_forall in Hall. apply Hall in Hy. lia. }
  split; [lia|].
  intros p Hp. rewrite U in Hp.
  destruct ((addr =? last_addr st)
            && (binary_ st || has_nul (unlines ls ++ tail))
            && (negb (is_nil tail) || is_nil (unlines ls ++ tail))).
  - injection Hp as <-.
    destruct (lines st') as [|y l'] eqn:El.
    + simpl. lia.
    + assert (Hin : In (last (y :: l') buffer_head) (y :: l')).
      { destruct (exists_last (l := y :: l')) as (q & z & Eq); [discriminate|].
        rewrite Eq, last_last. apply in_or_app. right. now left. }
      rewrite Forall_forall in Hall'. apply Hall' in Hin. lia.
  - apply Hmark in Hp. lia.
Qed.

Lemma read_stream_keeps_well_formed_witness :
  exists total st',
    read_stream sample_cfg (clean (unlines [bytes "x"] ++ bytes "y")) 1 two_lines_ed
    = Some (total, clean [], st')
    /\ wf_collection st'.
Proof.
  apply (read_stream_keeps_well_formed sample_cfg [bytes "x"] (bytes "y") 1
           two_lines_ed).
  - constructor; [|constructor].
    unfold nl_free. simpl. intuition discriminate.
  - unfold nl_free. simpl. intuition discriminate.
  - vm_compute. split; discriminate.
  - vm_compute. discriminate.
  - repeat split.
    + repeat constructor; simpl; unfold nl_free; simpl; intuition discriminate.
    + simpl. repeat constructor; simpl; intuition discriminate.
    + simpl. lia.
    + intros p H. discriminate H.
Defined.

(** ** read_stream: a read error in the middle of a stream *)

(** The loop of [read_stream] over complete lines [ls] that are followed
    by anything, on any stream. *)
Lemma read_stream_loop_prefix (cfg : config) (ls : list (list byte))
  (rest : list byte) (e : bool) :
  Forall nl_free ls ->
  Forall (fun l => Z.of_nat (length l) + 2 <= mem_limit cfg) ls ->
  forall (fuel : nat) (lp : nat) (up : option nat) (total : Z) (nla : bool)
         (st : ed) (pre post : list line_t),
    lines st = pre ++ post ->
    current_addr_ st = Z.of_nat (length pre) ->
    exists lp' up' st2,
      read_stream_loop cfg (length ls + fuel)
        {| pending := unlines ls ++ rest; ferror_ := e |} lp up total nla st
      = read_stream_loop cfg fuel {| pending := rest; ferror_ := e |} lp' up'
          (total + Z.of_nat (length (unlines ls))) nla st2
      /\ lines st2 = pre ++ fresh_nodes (next_node st) ls ++ post
      /\ current_addr_ st2 = current_addr_ st + Z.of_nat (length ls)
      /\ next_node st2 = (next_node st + length ls)%nat
      /\ binary_ st2 = binary_ st || has_nul (unlines ls)
      /\ unterminated_line st2 = unterminated_line st
      /\ stdout st2 = stdout st.
Proof.
  intros Hls Hmem. induction Hls as [|l ls Hl Hls IH];
    intros fuel lp up total nla st pre post HL HC.
  - exists lp, up, st. simpl. rewrite Z.add_0_r, orb_false_r.
    repeat split; try reflexivity; try assumption; lia.
  - inversion Hmem as [|? ? Hm Hmem']; subst.
    simpl unlines. rewrite <- !app_assoc. simpl app. simpl length.
    change (S (length ls) + fuel)%nat with (S (length ls + fuel)).
    destruct (read_stream_loop_turn cfg (length ls + fuel)
                {| pending := l ++ NL :: unlines ls ++ rest; ferror_ := e |}
                {| pending := unlines ls ++ rest; ferror_ := e |}
                lp up total nla nla st (mark_binary l st)
                (Z.of_nat (length l) + 1) l [NUL] pre post)
      as (lp1 & up1 & st1 & E & L1 & C1 & N1 & B1 & U1 & O1).
    + apply read_stream_line_newline; assumption.
    + lia.
    + assumption.
    + destruct nla; simpl; lia.
    + unfold mark_binary. destruct (has_nul l); assumption.
    + unfold mark_binary. destruct (has_nul l); assumption.
    + rewrite E.
      assert (Hb : binary_ (mark_binary l st) = binary_ st || has_nul l)
        by apply isbinary_mark_binary.
      assert (Hn : next_node (mark_binary l st) = next_node st)
        by (unfold mark_binary; now destruct (has_nul l)).
      assert (Hu : unterminated_line (mark_binary l st) = unterminated_line st)
        by (unfold mark_binary; now destruct (has_nul l)).
      assert (Ho : stdout (mark_binary l st) = stdout st)
        by (unfold mark_binary; now destruct (has_nul l)).
      rewrite Hn, Hb, Hu, Ho in *.
      destruct (IH Hmem' fuel lp1 up1 (total + (Z.of_nat (length l) + 1)) nla st1
                   (pre ++ [{| node := next_node st; text := l |}]) post L1 C1)
        as (lp' & up' & st2 & E' & L' & C' & N' & B' & U' & O').
      exists lp', up', st2. rewrite E'.
      split.
      { f_equal. rewrite length_app. simpl length. lia. }
      split; [rewrite L', N1, <- app_assoc; reflexivity|].
      split; [rewrite C', C1, length_app, HC; simpl length; lia|].
      split; [rewrite N', N1; lia|].
      split.
      { rewrite B', B1, has_nul_app.
        change (has_nul (NL :: unlines ls)) with (has_nul (unlines ls)).
        now rewrite orb_assoc. }
      split; congruence.
Qed.

Lemma unlines_length_in (ls : list (list byte)) (l : list byte) :
  In l ls -> (length l + 1 <= length (unlines ls))%nat.
Proof.
  induction ls as [|x ls IH]; intro H; simpl in *.
  - contradiction.
  - rewrite !length_app. simpl length. destruct H as [H|H].
    + subst x. lia.
    + apply IH in H. lia.
Qed.

Lemma unlines_length_count (ls : list (list byte)) :
  (length ls <= length (unlines ls))%nat.
Proof.
  induction ls as [|l ls IH]; simpl; [lia|].
  rewrite !length_app. simpl. lia.
Qed.

(** X9.  The stream delivers the complete lines [ls], then bytes without
    newline, and then fails with a read error.  [read_stream] returns -1
    and sets the message [Cannot read input file]; the lines read before
    the error stay inserted after [addr] and the current address is that
    of the last of them; the bytes after the last newline are dropped;
    no status message is printed and the marker is not moved. *)
Theorem read_stream_read_error (cfg : config) (ls : list (list byte))
  (tail : list byte) (addr : Z) (st : ed) :
  Forall nl_free ls ->
  nl_free tail ->
  0 <= addr <= last_addr st ->
  Z.of_nat (length (unlines ls ++ tail)) + 2 <= mem_limit cfg ->
  exists st',
    read_stream cfg {| pending := unlines ls ++ tail; ferror_ := true |} addr st
    = Some (-1, {| pending := []; ferror_ := true |}, st')
    /\ errmsg st' = "Cannot read input file"%string
    /\ lines st' = firstn (Z.to_nat addr) (lines st)
                   ++ fresh_nodes (next_node st) ls
                   ++ skipn (Z.to_nat addr) (lines st)
    /\ current_addr st' = addr + Z.of_nat (length ls)
    /\ stdout st' = stdout st
    /\ unterminated_line st' = unterminated_line st.
Proof.
  intros Hls Htail Haddr Hmem.
  assert (Hlen : length (firstn (Z.to_nat addr) (lines st)) = Z.to_nat addr).
  { apply firstn_length_le. unfold last_addr in Haddr. lia. }
  assert (Hmems : Forall (fun l => Z.of_nat (length l) + 2 <= mem_limit cfg) ls).
  { apply Forall_forall. intros l Hl. apply unlines_length_in in Hl.
    rewrite length_app in Hmem. lia. }
  pose proof (unlines_length_count ls) as Hcount.
  unfold read_stream. simpl pending.
  replace (S (length (unlines ls ++ tail)))
    with (length ls + S (length (unlines ls ++ tail) - length ls))%nat
    by (rewrite length_app; lia).
  destruct (read_stream_loop_prefix cfg ls tail true Hls Hmems
              (S (length (unlines ls ++ tail) - length ls))
              (search_line_node st addr) None 0 false (set_current_addr addr st)
              (firstn (Z.to_nat addr) (lines st))
              (skipn (Z.to_nat addr) (lines st)))
    as (lp' & up' & st2 & E & L & C & N & B & U & O).
  - simpl. now rewrite firstn_skipn.
  - simpl. lia.
  - rewrite E. cbn [read_stream_loop].
    unfold read_stream_line. simpl pending.
    rewrite read_stream_line_loop_eof
      by (try assumption; simpl; rewrite length_app in Hmem; lia).
    unfold ferror. simpl ferror_. cbv iota.
    eexists. split; [reflexivity|].
    simpl in L, C, U, O.
    unfold mark_binary. destruct (has_nul tail); simpl;
      repeat split; assumption.
Qed.

Lemma read_stream_read_error_witness :
  exists st',
    read_stream sample_cfg
      {| pending := unlines [bytes "x"] ++ bytes "y"; ferror_ := true |} 1 two_lines_ed
    = Some (-1, {| pending := []; ferror_ := true |}, st')
    /\ errmsg st' = "Cannot read input file"%string
    /\ lines st' = firstn (Z.to_nat 1) (lines two_lines_ed)
                   ++ fresh_nodes (next_node two_lines_ed) [bytes "x"]
                   ++ skipn (Z.to_nat 1) (lines two_lines_ed)
    /\ current_addr st' = 1 + Z.of_nat (length [bytes "x"])
    /\ stdout st' = stdout two_lines_ed
    /\ unterminated_line st' = unterminated_line two_lines_ed.
Proof.
  apply (read_stream_read_error sample_cfg [bytes "x"] (bytes "y") 1 two_lines_ed).
  - constructor; [|constructor].
    unfold nl_free. simpl. intuition discriminate.
  - unfold nl_free. simpl. intuition discriminate.
  - vm_compute. split; discriminate.
  - vm_compute. discriminate.
Defined.

(** ** Text mode: ingest, then emit *)

Lemma emit_nodes_text (st : ed) (mid post : list line_t) :
  isbinary st = false ->
  emit_nodes st mid post = flat_map (fun x => text x ++ [NL]) mid.
Proof.
  intro H. induction mid as [|x mid IH]; simpl.
  - reflexivity.
  - rewrite H, andb_false_r. simpl andb. cbv iota.
    now rewrite IH, <- app_assoc.
Qed.

Lemma unlines_app (a b : list (list byte)) :
  unlines (a ++ b) = unlines a ++ unlines b.
Proof. apply flat_map_app. Qed.

(** X10.  In a text-mode session a stream without NUL is read without
    error at a valid address and the lines read are emitted again.
    [write_stream] writes the bytes of the stream, completed by a newline
    when the stream did not end in one, and [read_stream] and
    [write_stream] return the same size, the number of bytes written. *)
Theorem read_stream_write_stream_text_mode (cfg : config) (st : ed)
  (ls : list (list byte)) (tail : list byte) (addr : Z) (out : ostream) :
  Forall nl_free ls ->
  nl_free tail ->
  binary_ st = false ->
  has_nul (unlines ls ++ tail) = false ->
  0 <= addr <= last_addr st ->
  Z.of_nat (length (unlines ls ++ tail)) + 2 <= mem_limit cfg ->
  (length (unlines ls ++ tail) + 1 <= room out)%nat ->
  let bs := unlines ls ++ tail ++ (if is_nil tail then [] else [NL]) in
  exists st',
    read_stream cfg (clean (unlines ls ++ tail)) addr st
    = Some (Z.of_nat (length bs), clean [], st')
    /\ write_stream out (addr + 1) (current_addr st') st'
       = Some (Z.of_nat (length bs),
               {| dest := dest out; written := written out ++ bs;
                  room := room out - length bs |},
               st').
Proof.
  intros Hls Htail Hbin Hnul Haddr Hmem Hroom bs.
  destruct (read_stream_clean cfg ls tail addr st Hls Htail Haddr Hmem)
    as (st' & R & L & C & N & B & O & U).
  rewrite Hbin, Hnul in B. simpl in B.
  assert (Hbs : bs = unlines (ls ++ tail_lines tail)).
  { unfold bs. rewrite unlines_app. f_equal.
    destruct tail; simpl; [reflexivity|now rewrite app_nil_r]. }
  assert (Hsize : ingest_size st addr (unlines ls ++ tail) (negb (is_nil tail))
                  = Z.of_nat (length bs)).
  { unfold ingest_size, bs. rewrite Hbin, Hnul. simpl orb. cbn [negb].
    rewrite andb_true_r. rewrite !andb_false_r.
    rewrite app_assoc, (length_app (unlines ls ++ tail)).
    destruct (is_nil tail); simpl; lia. }
  rewrite Hsize in R.
  exists st'. split; [exact R|].
  assert (Hpre : length (firstn (Z.to_nat addr) (lines st)) = Z.to_nat addr)
    by (apply firstn_length_le; unfold last_addr in Haddr; lia).
  assert (Hemit : flat_map (emitted_line st') (addresses (addr + 1) (current_addr st'))
                  = bs).
  { unfold current_addr. rewrite C.
    replace (addr + 1)
      with (Z.of_nat (length (firstn (Z.to_nat addr) (lines st))) + 1) by lia.
    replace (addr + Z.of_nat (length (ls ++ tail_lines tail)))
      with (Z.of_nat (length (firstn (Z.to_nat addr) (lines st))
                      + length (fresh_nodes (next_node st) (ls ++ tail_lines tail))))
      by (rewrite fresh_nodes_length; lia).
    rewrite (emitted_lines st' _ _ _ L).
    rewrite emit_nodes_text by exact B.
    now rewrite fresh_nodes_texts. }
  assert (Hlen : (length bs <= length (unlines ls ++ tail) + 1)%nat).
  { unfold bs. rewrite app_assoc, length_app.
    destruct (is_nil tail); simpl; lia. }
  rewrite write_stream_emits.
  - rewrite Hemit. reflexivity.
  - lia.
  - unfold current_addr, last_addr.
    rewrite C, L, !length_app, fresh_nodes_length, !length_app. lia.
  - rewrite Hemit. lia.
Qed.

Lemma read_stream_write_stream_text_mode_witness :
  let bs := unlines [bytes "x"] ++ bytes "y"
            ++ (if is_nil (bytes "y") then [] else [NL]) in
  exists st',
    read_stream sample_cfg (clean (unlines [bytes "x"] ++ bytes "y")) 1 two_lines_ed
    = Some (Z.of_nat (length bs), clean [], st')
    /\ write_stream sample_out (1 + 1) (current_addr st') st'
       = Some (Z.of_nat (length bs),
               {| dest := dest sample_out; written := written sample_out ++ bs;
                  room := room sample_out - length bs |},
               st').
Proof.
  apply (read_stream_write_stream_text_mode sample_cfg two_lines_ed
           [bytes "x"] (bytes "y") 1 sample_out).
  - constructor; [|constructor].
    unfold nl_free. simpl. intuition discriminate.
  - unfold nl_free. simpl. intuition discriminate.
  - reflexivity.
  - reflexivity.
  - vm_compute. split; discriminate.
  - vm_compute. discriminate.
  - simpl. lia.
Defined.

(** ** write_stream: an output stream that refuses a byte *)

Lemma fput_bytes_short (p junk : list byte) (fp : ostream) :
  (room fp < length p)%nat ->
  fput_bytes (p ++ junk) (length p) fp
  = (false, advance fp (firstn (room fp) p)).
Proof.
  revert fp. induction p as [|c p IH]; intros fp H; simpl in H.
  - lia.
  - simpl. unfold fputc. destruct (room fp) as [|n] eqn:R.
    + simpl. f_equal. destruct fp. unfold advance. simpl in *.
      now rewrite app_nil_r, R.
    + rewrite IH by (simpl; lia).
      unfold advance. simpl. rewrite R, <- app_assoc. simpl.
      reflexivity.
Qed.

Lemma write_stream_loop_short (st : ed) (mid : list line_t) :
  forall (pre post : list line_t) (fuel : nat) (fp : ostream) (from to : Z)
         (lp : nat) (size : Z),
    lines st = pre ++ mid ++ post ->
    from = Z.of_nat (length pre) + 1 ->
    to = Z.of_nat (length pre + length mid) ->
    mid = [] \/ lp = S (length pre) ->
    (length mid <= fuel)%nat ->
    (room fp < length (flat_map (emitted_line st) (addresses from to)))%nat ->
    write_stream_loop fuel fp from to lp size st
    = Some (-1,
            advance fp (firstn (room fp)
                               (flat_map (emitted_line st) (addresses from to))),
            set_error_msg "Cannot write file" (show_strerror None st)).
Proof.
  induction mid as [|x mid IH];
    intros pre post fuel fp from to lp size HL Hfrom Hto Hlp Hfuel Hroom.
  - simpl in Hto. rewrite addresses_nil in Hroom by lia. simpl in Hroom. lia.
  - destruct Hlp as [Hlp|Hlp]; [discriminate Hlp|]. subst lp.
    simpl length in Hto, Hfuel.
    destruct fuel as [|fuel]; [lia|].
    rewrite addresses_cons in * by lia.
    simpl flat_map in *. rewrite length_app in Hroom.
    assert (Hx : node_at st (S (length pre)) = x)
      by (now apply node_at_middle with (post := mid ++ post)).
    assert (Hnat : Z.to_nat from = S (length pre)) by lia.
    assert (Hemit : emitted_line st from
                    = text x ++ (if negb (from =? last_addr st) || negb (isbinary st)
                                    || negb (unterminated_last_line st)
                                 then [NL] else [])).
    { unfold emitted_line. rewrite Hnat, Hx. f_equal.
      destruct (from =? last_addr st) eqn:K; [|reflexivity].
      apply Z.eqb_eq in K. unfold unterminated_last_line.
      rewrite <- K, search_line_node_valid by (unfold last_addr in *; lia).
      rewrite Hnat, Hx.
      now destruct (isbinary st), (marks st (node x)). }
    cbn [write_stream_loop].
    replace (from =? 0) with false by (symmetry; apply Z.eqb_neq; lia).
    replace (from <=? to) with true by (symmetry; apply Z.leb_le; lia).
    cbn [negb andb get_sbuf_line]. rewrite Hx. unfold len.
    set (rest := flat_map (emitted_line st) (addresses (from + 1) to)) in *.
    assert (Hq : mid = [] \/ q_forw st (S (length pre)) = S (length (pre ++ [x]))).
    { destruct mid as [|y mid]; [now left|right].
      unfold q_forw, ring. rewrite HL. simpl length.
      rewrite !length_app. simpl length.
      match goal with
      | |- context [(?a <? ?b)%nat] => destruct (Nat.ltb_spec a b); lia
      end. }
    assert (Hbuf : forall line : list byte,
               emitted_line st from = line ->
               forall junk,
               (let '(ok, fp0) := fput_bytes (line ++ junk) (length line) fp in
                if ok
                then write_stream_loop fuel fp0 (from + 1) to
                       (q_forw st (S (length pre)))
                       (size + Z.of_nat (length line)) st
                else Some (-1, fp0,
                           set_error_msg "Cannot write file" (show_strerror None st)))
               = Some (-1, advance fp (firstn (room fp) (line ++ rest)),
                       set_error_msg "Cannot write file" (show_strerror None st))).
    { intros line El junk. rewrite El in Hroom.
      destruct (Nat.le_gt_cases (length line) (room fp)) as [Hfit|Hshort].
      - rewrite fput_bytes_ok by assumption.
        rewrite (IH (pre ++ [x]) post fuel _ (from + 1) to _ _).
        + rewrite firstn_app, (firstn_all2 (n := room fp) line) by lia.
          now rewrite <- advance_app.
        + now rewrite <- app_assoc.
        + rewrite length_app. simpl. lia.
        + rewrite length_app. simpl. lia.
        + exact Hq.
        + lia.
        + unfold advance. simpl room. fold rest. lia.
      - rewrite fput_bytes_short by assumption.
        rewrite firstn_app.
        replace (room fp - length line)%nat with 0%nat by lia.
        simpl firstn. now rewrite app_nil_r. }
    rewrite Hemit in *.
    destruct (negb (from =? last_addr st) || negb (isbinary st)
              || negb (unterminated_last_line st)).
    + rewrite Nat2Z.id, poke_end.
      replace (Z.to_nat (Z.of_nat (length (text x)) + 1))
        with (length (text x ++ [NL])) by (rewrite length_app; simpl; lia).
      replace (Z.of_nat (length (text x)) + 1)
        with (Z.of_nat (length (text x ++ [NL])))
        by (rewrite length_app; simpl; lia).
      rewrite <- (app_nil_r (text x ++ [NL])) at 1.
      apply (Hbuf (text x ++ [NL]) eq_refl []).
    + rewrite Nat2Z.id.
      assert (Hb := Hbuf (text x ++ []) eq_refl [NUL]).
      rewrite app_nil_r in Hb. rewrite app_nil_r. exact Hb.
Qed.

(** X11.  The range is a range of addresses of the collection, and the
    output stream accepts fewer bytes than the lines of the range need.
    [write_stream] returns -1 and sets the message [Cannot write file];
    the stream has received the first bytes of what was to be emitted,
    as many as it accepted, and the collection is untouched. *)
Theorem write_stream_output_refused (fp : ostream) (from to : Z) (st : ed) :
  1 <= from ->
  to <= last_addr st ->
  (room fp < length (flat_map (emitted_line st) (addresses from to)))%nat ->
  exists st',
    write_stream fp from to st
    = Some (-1,
            {| dest := dest fp;
               written := written fp
                          ++ firstn (room fp)
                               (flat_map (emitted_line st) (addresses from to));
               room := 0 |},
            st')
    /\ errmsg st' = "Cannot write file"%string
    /\ lines st' = lines st
    /\ unterminated_line st' = unterminated_line st.
Proof.
  intros Hfrom Hto Hroom.
  destruct (Z.lt_ge_cases to from) as [Hlt|Hle].
  - rewrite addresses_nil in Hroom by assumption. simpl in Hroom. lia.
  - unfold last_addr in Hto. unfold write_stream.
    set (pre := firstn (Z.to_nat (from - 1)) (lines st)).
    set (rest := skipn (Z.to_nat (from - 1)) (lines st)).
    set (mid := firstn (Z.to_nat (to - from + 1)) rest).
    set (post := skipn (Z.to_nat (to - from + 1)) rest).
    assert (Hpre : length pre = Z.to_nat (from - 1))
      by (apply firstn_length_le; lia).
    assert (Hrest : length rest = (length (lines st) - Z.to_nat (from - 1))%nat)
      by apply length_skipn.
    assert (Hmid : length mid = Z.to_nat (to - from + 1))
      by (apply firstn_length_le; lia).
    rewrite search_line_node_valid by (unfold last_addr; lia).
    rewrite (write_stream_loop_short st mid pre post).
    + exists (set_error_msg "Cannot write file" (show_strerror None st)).
      split; [|repeat split].
      unfold advance. rewrite firstn_length_le by lia.
      now replace (room fp - room fp)%nat with 0%nat by lia.
    + unfold pre, mid, post, rest. now rewrite !firstn_skipn.
    + lia.
    + lia.
    + right. lia.
    + lia.
    + assumption.
Qed.

Lemma write_stream_output_refused_witness :
  exists st',
    write_stream {| dest := File (bytes "f"); written := []; room := 4 |} 1 2
                 two_lines_ed
    = Some (-1,
            {| dest := File (bytes "f");
               written := [] ++ firstn 4 (flat_map (emitted_line two_lines_ed)
                                                   (addresses 1 2));
               room := 0 |},
            st')
    /\ errmsg st' = "Cannot write file"%string
    /\ lines st' = lines two_lines_ed
    /\ unterminated_line st' = unterminated_line two_lines_ed.
Proof.
  apply (write_stream_output_refused
           {| dest := File (bytes "f"); written := []; room := 4 |} 1 2 two_lines_ed).
  - lia.
  - vm_compute. discriminate.
  - vm_compute. lia.
Defined.

(** ** The marker is taken off the last line *)

Lemma emitted_line_unmarked (st : ed) (a : Z) :
  marks st (node (node_at st (Z.to_nat (last_addr st)))) = false ->
  emitted_line st a = text (node_at st (Z.to_nat a)) ++ [NL].
Proof.
  intro H. unfold emitted_line. f_equal.
  destruct (a =? last_addr st) eqn:E; [|reflexivity].
  apply Z.eqb_eq in E. subst a. rewrite H. now rewrite andb_false_r.
Qed.

(** X12.  Once [reset_unterminated_line] has been called, or
    [unmark_unterminated_line] for the node of the last line, the emit
    step ends every line of a range of the collection with a newline,
    the last line in binary mode included.  [unmark_unterminated_line]
    for a node that the marker does not point to changes nothing. *)
Theorem write_stream_after_unmark (fp : ostream) (from to : Z) (st : ed) (lp : nat) :
  1 <= from ->
  to <= last_addr st ->
  (length (flat_map (fun a => text (node_at st (Z.to_nat a)) ++ [NL])
                    (addresses from to)) <= room fp)%nat ->
  marks st lp = false ->
  let out := flat_map (fun a => text (node_at st (Z.to_nat a)) ++ [NL])
                      (addresses from to) in
  let last := node (node_at st (Z.to_nat (last_addr st))) in
  write_stream fp from to (reset_unterminated_line st)
  = Some (Z.of_nat (length out), advance fp out, reset_unterminated_line st)
  /\ write_stream fp from to (unmark_unterminated_line last st)
     = Some (Z.of_nat (length out), advance fp out,
             unmark_unterminated_line last st)
  /\ unmark_unterminated_line lp st = st.
Proof.
  intros Hfrom Hto Hroom Hlp out last.
  assert (G : forall st', lines st' = lines st -> isbinary st' = isbinary st ->
                marks st' last = false ->
                write_stream fp from to st'
                = Some (Z.of_nat (length out), advance fp out, st')).
  { intros st' HL HB HM.
    assert (E : flat_map (emitted_line st') (addresses from to) = out).
    { unfold out. apply flat_map_ext. intro a.
      rewrite emitted_line_unmarked.
      - unfold node_at, ring. now rewrite HL.
      - unfold last_addr, node_at, ring. rewrite HL. exact HM. }
    rewrite write_stream_emits.
    - now rewrite E.
    - assumption.
    - unfold last_addr. rewrite HL. exact Hto.
    - rewrite E. exact Hroom. }
  split; [|split].
  - apply G; reflexivity.
  - unfold unmark_unterminated_line.
    destruct (marks st last) eqn:M.
    + apply G; reflexivity.
    + apply G; [reflexivity|reflexivity|exact M].
  - unfold unmark_unterminated_line. now rewrite Hlp.
Qed.

Lemma write_stream_after_unmark_witness :
  let out := flat_map (fun a => text (node_at marked_ed (Z.to_nat a)) ++ [NL])
                      (addresses 1 1) in
  let last := node (node_at marked_ed (Z.to_nat (last_addr marked_ed))) in
  write_stream sample_out 1 1 (reset_unterminated_line marked_ed)
  = Some (Z.of_nat (length out), advance sample_out out,
          reset_unterminated_line marked_ed)
  /\ write_stream sample_out 1 1 (unmark_unterminated_line last marked_ed)
     = Some (Z.of_nat (length out), advance sample_out out,
             unmark_unterminated_line last marked_ed)
  /\ unmark_unterminated_line 2%nat marked_ed = marked_ed.
Proof.
  apply (write_stream_after_unmark sample_out 1 1 marked_ed 2%nat).
  - lia.
  - vm_compute. discriminate.
  - vm_compute. lia.
  - reflexivity.
Defined.

(** ** write_file and read_file on a regular file *)

Lemma bytes_eqb_neq (a b : list byte) : a <> b -> bytes_eqb a b = false.
Proof.
  intro H. unfold bytes_eqb. destruct (list_eq_dec byte_eq_dec a b); congruence.
Qed.

Lemma binary_mode_read (cfg : config) (st : ed) :
  binary_mode (if os2 cfg then (if textmode st then bytes "r" else bytes "rb")
               else bytes "r")
  = os2 cfg && negb (textmode st).
Proof. now destruct (os2 cfg), (textmode st). Qed.

(** [write_file] on a regular file that is opened and closed without
    error, given what [write_stream] does on the stream opened. *)
Lemma write_file_regular (cfg : config) (filename mode : list byte)
  (from to : Z) (w : world) (st : ed) (out : list byte) (r : nat) :
  let path := strip_escapes filename in
  let binmode := if os2 cfg then mode ++ bytes "b" else mode in
  mode_buffer_ok cfg w st = true ->
  Byte.eqb (hd NUL filename) BANG = false ->
  open_ok w = true ->
  close_status w = 0 ->
  write_stream {| dest := File path; written := []; room := dev_room w |} from to st
  = Some (Z.of_nat (length out),
          {| dest := File path; written := out; room := r |}, st) ->
  exists w',
    write_file cfg filename mode from to w st
    = Returns (if negb (from =? 0) && (from <=? to) then to - from + 1 else 0, w',
               if scripted cfg then st
               else fputs (decimal (Z.of_nat (length out)) ++ [NL]) st)
    /\ disk w' path
       = Some ((if Byte.eqb (hd NUL binmode) x77 then [] else contents w path) ++ out)
    /\ (forall q, q <> path -> disk w' q = disk w q)
    /\ calls w' = calls w ++ [Fopen path binmode; Fclose path]
    /\ open_ok w' = true /\ close_status w' = 0.
Proof.
  intros path binmode Hmode Hpipe Hopen Hclose Hws.
  unfold write_file. rewrite binmode_ok by assumption.
  rewrite Hpipe. fold path.
  fold binmode. unfold fopen. simpl open_ok. rewrite Hopen.
  destruct (Byte.eqb (hd NUL binmode) x77) eqn:Em.
  - simpl dev_room. rewrite Hws. unfold fclose. cbn [dest written close_status store log].
    rewrite Hclose.
    replace (Z.of_nat (length out) <? 0) with false by (symmetry; apply Z.ltb_ge; lia).
    simpl negb. cbv iota.
    eexists. split; [destruct (scripted cfg); reflexivity|].
    repeat split.
    + simpl. unfold contents. simpl. now rewrite !bytes_eqb_refl.
    + intros q Hq. simpl. now rewrite !bytes_eqb_neq by assumption.
    + simpl. now rewrite <- app_assoc.
    + simpl. exact Hopen.
    + simpl. exact Hclose.
  - simpl dev_room. rewrite Hws. unfold fclose. cbn [dest written close_status store log].
    rewrite Hclose.
    replace (Z.of_nat (length out) <? 0) with false by (symmetry; apply Z.ltb_ge; lia).
    simpl negb. cbv iota.
    eexists. split; [destruct (scripted cfg); reflexivity|].
    repeat split.
    + simpl. unfold contents. simpl. now rewrite !bytes_eqb_refl.
    + intros q Hq. simpl. now rewrite !bytes_eqb_neq by assumption.
    + simpl. now rewrite <- app_assoc.
    + simpl. exact Hopen.
    + simpl. exact Hclose.
Qed.

(** [read_file] on a regular file that is opened and closed without
    error, given what [read_stream] does on the stream opened. *)
Lemma read_file_regular (cfg : config) (src : source) (filename : list byte)
  (addr : Z) (w : world) (st : ed) (c : list byte) (size : Z) (fp' : istream)
  (st1 : ed) :
  let path := strip_escapes filename in
  let mode := if os2 cfg then (if textmode st then bytes "r" else bytes "rb")
              else bytes "r" in
  Byte.eqb (hd NUL filename) BANG = false ->
  open_ok w = true ->
  close_status w = 0 ->
  disk w path = Some c ->
  read_stream cfg
    {| pending := if os2 cfg && negb (textmode st) then c else text_filter src c;
       ferror_ := false |} addr st
  = Some (size, fp', st1) ->
  0 <= size ->
  read_file cfg src filename addr w st
  = Some (current_addr st1 - addr,
          log (Fclose path) (log (Fopen path mode) w),
          if scripted cfg then st1 else fputs (decimal size ++ [NL]) st1).
Proof.
  intros path mode Hpipe Hopen Hclose Hdisk Hrs Hsize.
  unfold read_file. rewrite Hpipe. fold path. fold mode.
  unfold fopen_r. simpl open_ok. simpl disk. rewrite Hopen, Hdisk.
  unfold mode at 1. rewrite binary_mode_read, Hrs.
  unfold fclose_r. simpl close_status. rewrite Hclose.
  replace (size <? 0) with false by (symmetry; apply Z.ltb_ge; lia).
  simpl negb. cbv iota.
  now destruct (scripted cfg).
Qed.

Lemma flat_map_text_unlines (mid : list line_t) :
  flat_map (fun x => text x ++ [NL]) mid = unlines (map text mid).
Proof.
  induction mid as [|x mid IH]; [reflexivity|].
  simpl. unfold unlines in *. simpl. now rewrite IH.
Qed.

(** X13.  A valid range of lines is written to a regular file that is
    opened and closed without error and accepts the bytes, in a call
    that stays clear of the OS/2 build's copy into the caller's mode
    (the build is another one, or the session is not in text mode and
    [malloc] finds memory).  [write_file]
    returns the number of lines of the range; the file then holds the
    emitted bytes, after its former contents when the mode does not
    start with [w]; other files are untouched; the file is opened once,
    with the mode requested (followed by [b] in the OS/2 build) and
    closed once; the number of bytes written is printed, followed by a
    newline, unless the session is scripted. *)
Theorem write_file_saves_range (cfg : config) (filename mode : list byte)
  (from to : Z) (w : world) (st : ed) :
  let path := strip_escapes filename in
  let binmode := if os2 cfg then mode ++ bytes "b" else mode in
  let out := flat_map (emitted_line st) (addresses from to) in
  mode_buffer_ok cfg w st = true ->
  Byte.eqb (hd NUL filename) BANG = false ->
  open_ok w = true ->
  close_status w = 0 ->
  1 <= from <= to ->
  to <= last_addr st ->
  (length out <= dev_room w)%nat ->
  exists w',
    write_file cfg filename mode from to w st
    = Returns (to - from + 1, w',
               if scripted cfg then st
               else fputs (decimal (Z.of_nat (length out)) ++ [NL]) st)
    /\ disk w' path
       = Some ((if Byte.eqb (hd NUL binmode) x77 then [] else contents w path) ++ out)
    /\ (forall q, q <> path -> disk w' q = disk w q)
    /\ calls w' = calls w ++ [Fopen path binmode; Fclose path].
Proof.
  intros path binmode out Hmode Hpipe Hopen Hclose Hrange Hto Hroom.
  destruct (write_file_regular cfg filename mode from to w st out
              (dev_room w - length out) Hmode Hpipe Hopen Hclose)
    as (w' & E & D & Q & K & _).
  - rewrite write_stream_emits; [reflexivity|lia|assumption|exact Hroom].
  - exists w'. split; [|now repeat split].
    rewrite E. f_equal. f_equal. f_equal.
    replace (from =? 0) with false by (symmetry; apply Z.eqb_neq; lia).
    replace (from <=? to) with true by (symmetry; apply Z.leb_le; lia).
    reflexivity.
Qed.

Lemma write_file_saves_range_witness :
  exists w',
    write_file sample_cfg (bytes "f") (bytes "w") 1 2 sample_world two_lines_ed
    = Returns (2 - 1 + 1, w',
               if scripted sample_cfg then two_lines_ed
               else fputs (decimal (Z.of_nat (length (flat_map (emitted_line two_lines_ed)
                                                               (addresses 1 2)))) ++ [NL])
                          two_lines_ed)
    /\ disk w' (strip_escapes (bytes "f"))
       = Some ((if Byte.eqb (hd NUL (if os2 sample_cfg then bytes "w" ++ bytes "b"
                                     else bytes "w")) x77
                then [] else contents sample_world (strip_escapes (bytes "f")))
               ++ flat_map (emitted_line two_lines_ed) (addresses 1 2))
    /\ (forall q, q <> strip_escapes (bytes "f") -> disk w' q = disk sample_world q)
    /\ calls w' = calls sample_world
                  ++ [Fopen (strip_escapes (bytes "f"))
                            (if os2 sample_cfg then bytes "w" ++ bytes "b" else bytes "w");
                      Fclose (strip_escapes (bytes "f"))].
Proof.
  apply (write_file_saves_range sample_cfg (bytes "f") (bytes "w") 1 2
           sample_world two_lines_ed).
  - reflexivity.
  - reflexivity.
  - reflexivity.
  - reflexivity.
  - lia.
  - vm_compute. discriminate.
  - vm_compute. lia.
Defined.

(** X14.  A regular file exists, is opened and closed without error, and
    the stream it delivers (its contents when the OS/2 build reads it
    with the mode [rb], the contents translated by the C library
    otherwise) is read without error at a valid address.  [read_file]
    returns the number of lines read, the unterminated last line
    counted; the lines are inserted after address [addr], which they
    follow in the collection; the size that [read_stream] returned is
    printed, after its message, unless the session is scripted; no file
    is changed. *)
Theorem read_file_inserts (cfg : config) (src : source) (filename : list byte)
  (addr : Z) (w : world) (st : ed) (c : list byte)
  (ls : list (list byte)) (tail : list byte) :
  let path := strip_escapes filename in
  let mode := if os2 cfg then (if textmode st then bytes "r" else bytes "rb")
              else bytes "r" in
  let bs := unlines ls ++ tail in
  Byte.eqb (hd NUL filename) BANG = false ->
  open_ok w = true ->
  close_status w = 0 ->
  disk w path = Some c ->
  (if os2 cfg && negb (textmode st) then c else text_filter src c) = bs ->
  Forall nl_free ls ->
  nl_free tail ->
  0 <= addr <= last_addr st ->
  Z.of_nat (length bs) + 2 <= mem_limit cfg ->
  exists w' st',
    read_file cfg src filename addr w st
    = Some (Z.of_nat (length (ls ++ tail_lines tail)), w', st')
    /\ lines st' = firstn (Z.to_nat addr) (lines st)
                   ++ fresh_nodes (next_node st) (ls ++ tail_lines tail)
                   ++ skipn (Z.to_nat addr) (lines st)
    /\ current_addr st' = addr + Z.of_nat (length (ls ++ tail_lines tail))
    /\ stdout st'
       = stdout st ++ ingest_message st addr bs (negb (is_nil tail))
         ++ (if scripted cfg then []
             else decimal (ingest_size st addr bs (negb (is_nil tail))) ++ [NL])
    /\ disk w' = disk w
    /\ calls w' = calls w ++ [Fopen path mode; Fclose path].
Proof.
  intros path mode bs Hpipe Hopen Hclose Hdisk Hbs Hls Htail Haddr Hmem.
  destruct (read_stream_clean cfg ls tail addr st Hls Htail Haddr Hmem)
    as (st' & R & L & C & N & B & O & U).
  fold bs in R, O.
  assert (Hsize : 0 <= ingest_size st addr bs (negb (is_nil tail))).
  { unfold ingest_size.
    destruct (negb (is_nil tail) && negb (binary_ st || has_nul bs));
      destruct (negb (addr =? last_addr st) && has_nul bs && negb (binary_ st)
                && negb (is_nil tail)); lia. }
  exists (log (Fclose path) (log (Fopen path mode) w)).
  exists (if scripted cfg then st'
          else fputs (decimal (ingest_size st addr bs (negb (is_nil tail))) ++ [NL]) st').
  split; [|repeat split].
  - rewrite (read_file_regular cfg src filename addr w st c
               (ingest_size st addr bs (negb (is_nil tail))) (clean []) st'
               Hpipe Hopen Hclose Hdisk).
    + f_equal. f_equal. f_equal. unfold current_addr. lia.
    + rewrite Hbs. exact R.
    + exact Hsize.
  - destruct (scripted cfg); exact L.
  - destruct (scripted cfg); exact C.
  - destruct (scripted cfg).
    + rewrite O, app_nil_r. reflexivity.
    + rewrite stdout_fputs, O, <- app_assoc. reflexivity.
  - simpl. now rewrite <- app_assoc.
Qed.

Lemma read_file_inserts_witness :
  let w := store (bytes "f") (bytes "xy") sample_world in
  exists w' st',
    read_file sample_cfg {| command_output := fun _ => []; text_filter := fun c => c |}
              (bytes "f") 1 w two_lines_ed
    = Some (Z.of_nat (length ([] ++ tail_lines (bytes "xy"))), w', st')
    /\ lines st' = firstn (Z.to_nat 1) (lines two_lines_ed)
                   ++ fresh_nodes (next_node two_lines_ed) ([] ++ tail_lines (bytes "xy"))
                   ++ skipn (Z.to_nat 1) (lines two_lines_ed)
    /\ current_addr st' = 1 + Z.of_nat (length ([] ++ tail_lines (bytes "xy")))
    /\ stdout st'
       = stdout two_lines_ed
         ++ ingest_message two_lines_ed 1 (unlines [] ++ bytes "xy")
                           (negb (is_nil (bytes "xy")))
         ++ (if scripted sample_cfg then []
             else decimal (ingest_size two_lines_ed 1 (unlines [] ++ bytes "xy")
                                       (negb (is_nil (bytes "xy")))) ++ [NL])
    /\ disk w' = disk w
    /\ calls w' = calls w
                  ++ [Fopen (strip_escapes (bytes "f"))
                            (if os2 sample_cfg
                             then (if textmode two_lines_ed then bytes "r" else bytes "rb")
                             else bytes "r");
                      Fclose (strip_escapes (bytes "f"))].
Proof.
  intro w.
  apply (read_file_inserts sample_cfg
           {| command_output := fun _ => []; text_filter := fun c => c |}
           (bytes "f") 1 w two_lines_ed (bytes "xy") [] (bytes "xy")).
  - reflexivity.
  - reflexivity.
  - reflexivity.
  - reflexivity.
  - reflexivity.
  - constructor.
  - intro H. vm_compute in H. intuition discriminate.
  - vm_compute. split; discriminate.
  - vm_compute. discriminate.
Defined.

(** X15.  In a text-mode session a valid range of lines without NUL is
    written with the mode [w] to a regular file, which is then read back
    at the last address (both times the file is opened and closed
    without error, and the bytes come back as they were written: the
    OS/2 build reads with [rb], or the C library's translation leaves
    them alone).  The call of [write_file] stays clear of the OS/2
    build's copy into the caller's mode: the build is another one, or
    the session's [textmode] is off and [malloc] finds memory.  Both calls return the number of lines of the range,
    the file holds the lines, each followed by a newline, and the
    collection ends with copies of the lines of the range in new nodes;
    the session is still in text mode. *)
Theorem write_file_read_file_round_trip (cfg : config) (src : source)
  (filename : list byte) (from to : Z) (w : world) (st : ed) :
  let path := strip_escapes filename in
  let mid := firstn (Z.to_nat (to - from + 1))
                    (skipn (Z.to_nat (from - 1)) (lines st)) in
  let out := unlines (map text mid) in
  mode_buffer_ok cfg w st = true ->
  Byte.eqb (hd NUL filename) BANG = false ->
  open_ok w = true ->
  close_status w = 0 ->
  1 <= from <= to ->
  to <= last_addr st ->
  binary_ st = false ->
  has_nul out = false ->
  Forall (fun x => nl_free (text x)) (lines st) ->
  (length out <= dev_room w)%nat ->
  Z.of_nat (length out) + 2 <= mem_limit cfg ->
  (if os2 cfg && negb (textmode st) then out else text_filter src out) = out ->
  exists w1 st1 w2 st2,
    write_file cfg filename (bytes "w") from to w st
    = Returns (to - from + 1, w1, st1)
    /\ read_file cfg src filename (last_addr st1) w1 st1
       = Some (to - from + 1, w2, st2)
    /\ disk w2 path = Some out
    /\ lines st2 = lines st ++ fresh_nodes (next_node st) (map text mid)
    /\ binary_ st2 = false.
Proof.
  intros path mid out Hmode Hpipe Hopen Hclose Hrange Hto Hbin Hnul Hnl Hroom Hmem
         Hfilter.
  unfold last_addr in Hto.
  set (pre := firstn (Z.to_nat (from - 1)) (lines st)).
  set (rest := skipn (Z.to_nat (from - 1)) (lines st)) in *.
  set (post := skipn (Z.to_nat (to - from + 1)) rest).
  assert (HL : lines st = pre ++ mid ++ post)
    by (unfold pre, mid, post, rest; now rewrite !firstn_skipn).
  assert (Hpre : length pre = Z.to_nat (from - 1))
    by (apply firstn_length_le; lia).
  assert (Hrest : length rest = (length (lines st) - Z.to_nat (from - 1))%nat)
    by apply length_skipn.
  assert (Hmid : length mid = Z.to_nat (to - from + 1))
    by (apply firstn_length_le; lia).
  assert (Hout : flat_map (emitted_line st) (addresses from to) = out).
  { replace from with (Z.of_nat (length pre) + 1) by lia.
    replace to with (Z.of_nat (length pre + length mid)) by lia.
    rewrite (emitted_lines st mid pre post HL), emit_nodes_text by exact Hbin.
    apply flat_map_text_unlines. }
  destruct (write_file_regular cfg filename (bytes "w") from to w st out
              (dev_room w - length out) Hmode Hpipe Hopen Hclose)
    as (w1 & E1 & D1 & _ & _ & O1 & C1).
  { rewrite write_stream_emits; rewrite ?Hout;
      [reflexivity|lia|unfold last_addr; lia|exact Hroom]. }
  fold path in D1.
  replace (Byte.eqb (hd NUL (if os2 cfg then bytes "w" ++ bytes "b" else bytes "w")) x77)
    with true in D1 by (now destruct (os2 cfg)).
  simpl app in D1.
  replace (from =? 0) with false in E1 by (symmetry; apply Z.eqb_neq; lia).
  replace (from <=? to) with true in E1 by (symmetry; apply Z.leb_le; lia).
  simpl negb in E1. cbv iota in E1. simpl andb in E1. cbv iota in E1.
  set (st1 := if scripted cfg then st
              else fputs (decimal (Z.of_nat (length out)) ++ [NL]) st) in *.
  assert (S1 : lines st1 = lines st /\ next_node st1 = next_node st
               /\ binary_ st1 = binary_ st /\ textmode st1 = textmode st)
    by (unfold st1; now destruct (scripted cfg)).
  destruct S1 as (L1 & N1 & B1 & T1).
  assert (Hls : Forall nl_free (map text mid)).
  { rewrite HL in Hnl. apply Forall_app in Hnl. destruct Hnl as [_ Hnl].
    apply Forall_app in Hnl. destruct Hnl as [Hnl _].
    clear - Hnl. induction Hnl; simpl; constructor; assumption. }
  assert (Hnil : nl_free []) by (intros []).
  destruct (read_stream_clean cfg (map text mid) [] (last_addr st1) st1 Hls Hnil)
    as (st2 & R & L2 & C2 & _ & B2 & _ & _).
  { unfold last_addr. lia. }
  { fold out. rewrite app_nil_r. exact Hmem. }
  fold out in R, B2. rewrite app_nil_r in R, B2.
  assert (Hsize : ingest_size st1 (last_addr st1) out (negb (is_nil (@nil byte)))
                  = Z.of_nat (length out)).
  { unfold ingest_size. simpl negb. simpl andb. rewrite !andb_false_r. lia. }
  rewrite Hsize in R.
  exists w1, st1, (log (Fclose path)
                       (log (Fopen path (if os2 cfg
                                         then (if textmode st1 then bytes "r" else bytes "rb")
                                         else bytes "r")) w1)).
  exists (if scripted cfg then st2
          else fputs (decimal (Z.of_nat (length out)) ++ [NL]) st2).
  split; [exact E1|]. split; [|split; [|split]].
  - rewrite (read_file_regular cfg src filename (last_addr st1) w1 st1 out
               (Z.of_nat (length out)) (clean []) st2 Hpipe O1 C1 D1).
    + f_equal. f_equal. f_equal. unfold current_addr. rewrite C2.
      simpl tail_lines. rewrite app_nil_r, length_map. lia.
    + rewrite T1, Hfilter. exact R.
    + lia.
  - simpl. exact D1.
  - assert (L : lines st2 = lines st ++ fresh_nodes (next_node st) (map text mid)).
    { rewrite L2. unfold last_addr. rewrite Nat2Z.id, L1, N1.
      rewrite firstn_all, skipn_all. simpl tail_lines.
      now rewrite !app_nil_r. }
    destruct (scripted cfg); exact L.
  - assert (B : binary_ st2 = false)
      by (rewrite B2, B1, Hbin, Hnul; reflexivity).
    destruct (scripted cfg); exact B.
Qed.

Lemma write_file_read_file_round_trip_witness :
  let src := {| command_output := fun _ => []; text_filter := fun c => c |} in
  let mid := firstn (Z.to_nat (2 - 1 + 1))
                    (skipn (Z.to_nat (1 - 1)) (lines two_lines_ed)) in
  exists w1 st1 w2 st2,
    write_file sample_cfg (bytes "f") (bytes "w") 1 2 sample_world two_lines_ed
    = Returns (2 - 1 + 1, w1, st1)
    /\ read_file sample_cfg src (bytes "f") (last_addr st1) w1 st1
       = Some (2 - 1 + 1, w2, st2)
    /\ disk w2 (strip_escapes (bytes "f")) = Some (unlines (map text mid))
    /\ lines st2 = lines two_lines_ed
                   ++ fresh_nodes (next_node two_lines_ed) (map text mid)
    /\ binary_ st2 = false.
Proof.
  intros src mid.
  apply (write_file_read_file_round_trip sample_cfg src (bytes "f") 1 2
           sample_world two_lines_ed).
  - reflexivity.
  - reflexivity.
  - reflexivity.
  - reflexivity.
  - lia.
  - vm_compute. discriminate.
  - reflexivity.
  - reflexivity.
  - repeat constructor; intro H; vm_compute in H; intuition discriminate.
  - vm_compute. lia.
  - vm_compute. discriminate.
  - reflexivity.
Defined.

(** X16.  The file or the pipe cannot be opened.  [read_file] returns
    -1, and so does [write_file] in a call that stays clear of the OS/2
    build's copy into the caller's mode (the build is another one, or the
    session is not in text mode and [malloc] finds memory); the error
    messages are [Cannot open input file] and [Cannot open output file];
    the system error is reported with the name given; the single stream
    call made is the open (a pipe is opened with the text after the [!],
    a file with the name after [strip_escapes]), nothing is closed; the
    collection, the current address and the files are untouched. *)
Theorem open_failure (cfg : config) (src : source) (filename mode : list byte)
  (addr from to : Z) (w : world) (st : ed) :
  open_ok w = false ->
  let is_pipe := Byte.eqb (hd NUL filename) BANG in
  let path := strip_escapes filename in
  let untouched (m : string) (st' : ed) :=
    errmsg st' = m /\ stderr st' = stderr st ++ [Some filename]
    /\ lines st' = lines st /\ current_addr st' = current_addr st
    /\ stdout st' = stdout st in
  (exists w' st',
      read_file cfg src filename addr w st = Some (-1, w', st')
      /\ untouched "Cannot open input file"%string st'
      /\ disk w' = disk w
      /\ calls w'
         = calls w ++ [if is_pipe then Popen (tl filename) (bytes "r")
                       else Fopen path
                              (if os2 cfg && negb (textmode st)
                               then bytes "rb" else bytes "r")])
  /\ (mode_buffer_ok cfg w st = true ->
      exists w' st',
        write_file cfg filename mode from to w st = Returns (-1, w', st')
        /\ untouched "Cannot open output file"%string st'
        /\ disk w' = disk w
        /\ calls w'
           = calls w ++ [if is_pipe then Popen (tl filename) (bytes "w")
                         else Fopen path
                                (if os2 cfg then mode ++ bytes "b" else mode)]).
Proof.
  intros Hopen is_pipe path untouched. split.
  - unfold read_file. fold is_pipe. fold path.
    unfold popen_r, fopen_r. simpl open_ok. rewrite Hopen.
    destruct is_pipe.
    + eexists. eexists. split; [reflexivity|]. now repeat split.
    + eexists. eexists. split; [reflexivity|]. repeat split.
      simpl. now destruct (os2 cfg), (textmode st).
  - intro Hmode. unfold write_file. rewrite binmode_ok by assumption.
    fold is_pipe. fold path.
    unfold popen, fopen. simpl open_ok. rewrite Hopen.
    destruct is_pipe.
    + eexists. eexists. split; [reflexivity|]. now repeat split.
    + eexists. eexists. split; [reflexivity|]. now repeat split.
Qed.

Lemma open_failure_witness :
  let w := {| disk := fun _ => None; open_ok := false; malloc_ok := true;
              dev_room := 100; close_status := 0; calls := [] |} in
  let src := {| command_output := fun _ => []; text_filter := fun c => c |} in
  let untouched (m : string) (st' : ed) :=
    errmsg st' = m /\ stderr st' = stderr two_lines_ed ++ [Some (bytes "f")]
    /\ lines st' = lines two_lines_ed /\ current_addr st' = current_addr two_lines_ed
    /\ stdout st' = stdout two_lines_ed in
  (exists w' st',
      read_file sample_cfg src (bytes "f") 2 w two_lines_ed = Some (-1, w', st')
      /\ untouched "Cannot open input file"%string st'
      /\ disk w' = disk w
      /\ calls w'
         = calls w ++ [if Byte.eqb (hd NUL (bytes "f")) BANG
                       then Popen (tl (bytes "f")) (bytes "r")
                       else Fopen (strip_escapes (bytes "f"))
                              (if os2 sample_cfg && negb (textmode two_lines_ed)
                               then bytes "rb" else bytes "r")])
  /\ (exists w' st',
         write_file sample_cfg (bytes "f") (bytes "w") 1 2 w two_lines_ed
         = Returns (-1, w', st')
         /\ untouched "Cannot open output file"%string st'
         /\ disk w' = disk w
         /\ calls w'
            = calls w ++ [if Byte.eqb (hd NUL (bytes "f")) BANG
                          then Popen (tl (bytes "f")) (bytes "w")
                          else Fopen (strip_escapes (bytes "f"))
                                 (if os2 sample_cfg then bytes "w" ++ bytes "b"
                                  else bytes "w")]).
Proof.
  intros w src.
  destruct (open_failure sample_cfg src (bytes "f") (bytes "w") 2 1 2 w two_lines_ed
              eq_refl) as [R W].
  split; [exact R|]. apply W. reflexivity.
Defined.


(** ** get_extended_line *)

Lemma leading_backslashes_parity (r q : list byte) :
  Nat.odd (leading_backslashes q) = false ->
  Nat.odd (leading_backslashes (r ++ q)) = Nat.odd (leading_backslashes r).
Proof.
  intro H. induction r as [|c r IH]; simpl; [exact H|].
  destruct (Byte.eqb c BSLASH); [|reflexivity].
  now rewrite !Nat.odd_succ, <- !Nat.negb_odd, IH.
Qed.

Lemma trailing_backslashes_parity (x y : list byte) :
  Nat.odd (trailing_backslashes x) = false ->
  Nat.odd (trailing_backslashes (x ++ y)) = Nat.odd (trailing_backslashes y).
Proof.
  intro H. unfold trailing_backslashes in *. rewrite rev_app_distr.
  now apply leading_backslashes_parity.
Qed.

Lemma trailing_backslashes_escape (x : list byte) :
  trailing_backslashes (x ++ [BSLASH]) = S (trailing_backslashes x).
Proof. unfold trailing_backslashes. rewrite rev_app_distr. reflexivity. Qed.

(** The test [trailing_escape( buf, len - 1 )] on a buffer whose first
    [len] bytes are a line and its newline. *)
Lemma trailing_escape_line (x junk : list byte) :
  trailing_escape (x ++ NL :: junk) (Z.of_nat (length x + 1) - 1)
  = Nat.odd (trailing_backslashes x).
Proof.
  unfold trailing_escape.
  replace (Z.to_nat (Z.of_nat (length x + 1) - 1)) with (length x) by lia.
  rewrite trailing_escape_loop_parity by (rewrite length_app; lia).
  now rewrite firstn_length_app, xorb_false_l.
Qed.

Lemma strip_trailing_esc_line (x : list byte) (strip : bool) :
  strip_trailing_esc (x ++ [BSLASH; NL]) strip
  = x ++ (if strip then [] else [NL]).
Proof.
  unfold strip_trailing_esc.
  replace (x ++ [BSLASH; NL]) with ((x ++ [BSLASH]) ++ [NL])
    by (now rewrite <- app_assoc).
  rewrite removelast_last.
  replace (length (x ++ [BSLASH]) - 1)%nat with (length x)
    by (rewrite length_app; simpl; lia).
  unfold poke. rewrite firstn_length_app.
  replace (S (length x)) with (length (x ++ [BSLASH]))
    by (rewrite length_app; simpl; lia).
  rewrite skipn_all.
  destruct strip; [rewrite app_nil_r; apply removelast_last|reflexivity].
Qed.

Lemma nl_free_escape (c : list byte) : nl_free c -> nl_free (c ++ [BSLASH]).
Proof.
  unfold nl_free. intros H K. apply in_app_iff in K.
  destruct K as [K|[K|[]]]; [now apply H|discriminate K].
Qed.

Lemma linenum_mark_binary (l : list byte) (st : ed) :
  linenum_ (mark_binary l st) = linenum_ st.
Proof. unfold mark_binary. now destruct (has_nul l). Qed.

(** A turn of the loop of [get_extended_line] that takes a line ending in
    an escaped newline. *)
Lemma get_extended_loop_turn (cfg : config) (strip : bool) (c rest : list byte)
  (e : bool) (b : list byte) (fuel : nat) (st : ed) :
  nl_free c ->
  Nat.odd (trailing_backslashes c) = false ->
  Nat.odd (trailing_backslashes b) = false ->
  Z.of_nat (length b + length c) + 3 <= mem_limit cfg ->
  get_extended_loop cfg (S fuel)
    {| pending := (c ++ [BSLASH; NL]) ++ rest; ferror_ := e |} b strip st
  = get_extended_loop cfg fuel {| pending := rest; ferror_ := e |}
      (b ++ c ++ (if strip then [] else [NL])) strip
      (set_linenum_ (linenum_ st + 1) (mark_binary (c ++ [BSLASH]) st)).
Proof.
  intros Hnl Hc Hb Hmem.
  cbn [get_extended_loop]. unfold get_stdin_line. simpl pending. simpl ferror_.
  replace ((c ++ [BSLASH; NL]) ++ rest) with ((c ++ [BSLASH]) ++ NL :: rest)
    by (rewrite <- !app_assoc; reflexivity).
  rewrite get_stdin_loop_newline;
    [|now apply nl_free_escape|simpl; rewrite length_app; simpl; lia].
  simpl app. rewrite linenum_mark_binary.
  replace (Z.of_nat (length (c ++ [BSLASH])) + 1 <=? 0) with false
    by (symmetry; apply Z.leb_gt; lia).
  rewrite resize_buffer_ok by (rewrite length_app; simpl; lia).
  replace (Z.to_nat (Z.of_nat (length (c ++ [BSLASH])) + 1))
    with (length ((c ++ [BSLASH]) ++ [NL]))
    by (rewrite !length_app; simpl; lia).
  replace ((c ++ [BSLASH]) ++ [NL; NUL]) with (((c ++ [BSLASH]) ++ [NL]) ++ [NUL])
    by (rewrite <- !app_assoc; reflexivity).
  rewrite firstn_length_app.
  replace (Z.of_nat (length (c ++ [BSLASH])) + 1 <? 2) with false
    by (symmetry; apply Z.ltb_ge; rewrite length_app; simpl; lia).
  replace (b ++ (c ++ [BSLASH]) ++ [NL]) with ((b ++ c ++ [BSLASH]) ++ NL :: [])
    by (rewrite <- !app_assoc; reflexivity).
  replace (Z.of_nat (length ((b ++ c ++ [BSLASH]) ++ [NL])))
    with (Z.of_nat (length (b ++ c ++ [BSLASH]) + 1))
    by (rewrite (length_app _ [NL]); reflexivity).
  rewrite trailing_escape_line.
  rewrite trailing_backslashes_parity, trailing_backslashes_escape by exact Hb.
  rewrite Nat.odd_succ, <- Nat.negb_odd, Hc. simpl negb. simpl orb. cbv iota.
  replace ((b ++ c ++ [BSLASH]) ++ [NL]) with ((b ++ c) ++ [BSLASH; NL])
    by (rewrite <- !app_assoc; reflexivity).
  now rewrite strip_trailing_esc_line, <- app_assoc.
Qed.

(** The turn that takes a line whose newline is not escaped. *)
Lemma get_extended_loop_last (cfg : config) (strip : bool) (fin rest : list byte)
  (e : bool) (b : list byte) (fuel : nat) (st : ed) :
  nl_free fin ->
  Nat.odd (trailing_backslashes fin) = false ->
  Nat.odd (trailing_backslashes b) = false ->
  Z.of_nat (length b + length fin) + 2 <= mem_limit cfg ->
  get_extended_loop cfg (S fuel)
    {| pending := fin ++ NL :: rest; ferror_ := e |} b strip st
  = Some (Some (b ++ fin ++ [NL]), {| pending := rest; ferror_ := e |},
          set_linenum_ (linenum_ st + 1) (mark_binary fin st)).
Proof.
  intros Hnl Hc Hb Hmem.
  cbn [get_extended_loop]. unfold get_stdin_line. simpl pending. simpl ferror_.
  rewrite get_stdin_loop_newline; [|assumption|simpl; lia].
  simpl app. rewrite linenum_mark_binary.
  replace (Z.of_nat (length fin) + 1 <=? 0) with false
    by (symmetry; apply Z.leb_gt; lia).
  rewrite resize_buffer_ok by lia.
  replace (Z.to_nat (Z.of_nat (length fin) + 1)) with (length (fin ++ [NL]))
    by (rewrite !length_app; simpl; lia).
  replace (fin ++ [NL; NUL]) with ((fin ++ [NL]) ++ [NUL])
    by (rewrite <- !app_assoc; reflexivity).
  rewrite firstn_length_app.
  replace (b ++ fin ++ [NL]) with ((b ++ fin) ++ NL :: [])
    by (rewrite <- !app_assoc; reflexivity).
  replace (Z.of_nat (length ((b ++ fin) ++ [NL])))
    with (Z.of_nat (length (b ++ fin) + 1))
    by (rewrite (length_app _ [NL]); reflexivity).
  rewrite trailing_escape_line.
  rewrite trailing_backslashes_parity, Hc by exact Hb.
  simpl negb. rewrite orb_true_r. reflexivity.
Qed.

(** The turn that finds no complete line on standard input. *)
Lemma get_extended_loop_end (cfg : config) (strip : bool) (l : list byte)
  (e : bool) (b : list byte) (fuel : nat) (st : ed) :
  nl_free l ->
  Z.of_nat (length l) + 2 <= mem_limit cfg ->
  exists st',
    get_extended_loop cfg (S fuel) {| pending := l; ferror_ := e |} b strip st
    = Some (None, clean [], st')
    /\ errmsg st' = (if e then "Cannot read stdin" else "Unexpected end-of-file")%string
    /\ lines st' = lines st.
Proof.
  intros Hnl Hmem.
  cbn [get_extended_loop]. unfold get_stdin_line. simpl pending. simpl ferror_.
  destruct e.
  - rewrite get_stdin_loop_error; [|assumption|simpl; lia].
    eexists. split; [reflexivity|]. split; [reflexivity|].
    unfold mark_binary. now destruct (has_nul l).
  - rewrite get_stdin_loop_eof; [|assumption|simpl; lia].
    simpl Z.leb. cbv iota.
    eexists. split; [reflexivity|].
    unfold mark_binary.
    destruct (has_nul l), (Z.of_nat (length ([] ++ l)) >? 0); now split.
Qed.

Lemma has_nul_escaped (c : list byte) : has_nul (c ++ [BSLASH; NL]) = has_nul c.
Proof. rewrite has_nul_app. simpl. apply orb_false_r. Qed.

Lemma binary_mark_binary (l : list byte) (st : ed) :
  binary_ (mark_binary l st) = binary_ st || has_nul l.
Proof.
  unfold mark_binary. destruct (has_nul l); simpl.
  - now rewrite orb_true_r.
  - now rewrite orb_false_r.
Qed.

Lemma get_extended_loop_joins (cfg : config) (strip : bool)
  (fin rest : list byte) (e : bool) (conts : list (list byte)) :
  forall (b : list byte) (fuel : nat) (st : ed),
    Forall (fun c => nl_free c /\ Nat.odd (trailing_backslashes c) = false) conts ->
    nl_free fin ->
    Nat.odd (trailing_backslashes fin) = false ->
    Nat.odd (trailing_backslashes b) = false ->
    Z.of_nat (length b
              + length (flat_map (fun c => c ++ [BSLASH; NL]) conts ++ fin ++ [NL]))
    + 2 <= mem_limit cfg ->
    (length conts < fuel)%nat ->
    exists st',
      get_extended_loop cfg fuel
        {| pending := (flat_map (fun c => c ++ [BSLASH; NL]) conts ++ fin ++ [NL])
                      ++ rest;
           ferror_ := e |} b strip st
      = Some (Some (b ++ flat_map (fun c => c ++ (if strip then [] else [NL])) conts
                      ++ fin ++ [NL]),
              {| pending := rest; ferror_ := e |}, st')
      /\ linenum_ st' = linenum_ st + Z.of_nat (S (length conts))
      /\ binary_ st'
         = binary_ st
           || has_nul (flat_map (fun c => c ++ [BSLASH; NL]) conts ++ fin ++ [NL])
      /\ lines st' = lines st
      /\ errmsg st' = errmsg st.
Proof.
  induction conts as [|c conts IH]; intros b fuel st Hcs Hnl Hfin Hb Hmem Hfuel;
    (destruct fuel as [|fuel]; [lia|]).
  - simpl flat_map in *. simpl app in *. rewrite length_app in Hmem. simpl in Hmem.
    rewrite <- app_assoc. simpl app.
    rewrite get_extended_loop_last by (assumption || lia).
    eexists. split; [reflexivity|].
    split; [|split; [|split]].
    + reflexivity.
    + simpl binary_. now rewrite binary_mark_binary, has_nul_line.
    + unfold mark_binary. now destruct (has_nul fin).
    + unfold mark_binary. now destruct (has_nul fin).
  - inversion Hcs as [|? ? [Hc1 Hc2] Hcs']; subst.
    simpl flat_map in *. rewrite <- !app_assoc in *.
    rewrite !length_app in Hmem. simpl length in Hmem.
    rewrite (app_assoc c [BSLASH; NL]).
    rewrite get_extended_loop_turn by (assumption || lia).
    destruct (IH (b ++ c ++ (if strip then [] else [NL])) fuel
                 (set_linenum_ (linenum_ st + 1) (mark_binary (c ++ [BSLASH]) st)))
      as (st' & E & Ln & Bn & L & M).
    + exact Hcs'.
    + exact Hnl.
    + exact Hfin.
    + destruct strip.
      * rewrite app_nil_r, trailing_backslashes_parity by exact Hb. exact Hc2.
      * replace (b ++ c ++ [NL]) with ((b ++ c) ++ [NL])
          by (now rewrite <- app_assoc).
        unfold trailing_backslashes. rewrite rev_app_distr. reflexivity.
    + rewrite !length_app. destruct strip; simpl length; lia.
    + simpl in Hfuel. lia.
    + exists st'. split; [|split; [|split; [|split]]].
      * rewrite <- app_assoc in E. rewrite E. rewrite <- !app_assoc. reflexivity.
      * rewrite Ln. simpl linenum_. simpl length. lia.
      * rewrite Bn. simpl binary_. rewrite binary_mark_binary.
        rewrite !has_nul_app.
        simpl (has_nul [BSLASH; NL]). simpl (has_nul [BSLASH]).
        rewrite orb_false_r. simpl orb. now rewrite !orb_assoc.
      * rewrite L. unfold mark_binary. now destruct (has_nul (c ++ [BSLASH])).
      * rewrite M. unfold mark_binary. now destruct (has_nul (c ++ [BSLASH])).
Qed.

Lemma get_extended_loop_fails (cfg : config) (strip : bool) (l : list byte)
  (e : bool) (conts : list (list byte)) :
  forall (b : list byte) (fuel : nat) (st : ed),
    Forall (fun c => nl_free c /\ Nat.odd (trailing_backslashes c) = false) conts ->
    nl_free l ->
    Nat.odd (trailing_backslashes b) = false ->
    Z.of_nat (length b + length (flat_map (fun c => c ++ [BSLASH; NL]) conts ++ l))
    + 2 <= mem_limit cfg ->
    (length conts < fuel)%nat ->
    exists st',
      get_extended_loop cfg fuel
        {| pending := flat_map (fun c => c ++ [BSLASH; NL]) conts ++ l;
           ferror_ := e |} b strip st
      = Some (None, clean [], st')
      /\ errmsg st'
         = (if e then "Cannot read stdin" else "Unexpected end-of-file")%string
      /\ lines st' = lines st.
Proof.
  induction conts as [|c conts IH]; intros b fuel st Hcs Hnl Hb Hmem Hfuel;
    (destruct fuel as [|fuel]; [lia|]).
  - simpl flat_map in *. simpl app in *.
    apply get_extended_loop_end; [assumption|lia].
  - inversion Hcs as [|? ? [Hc1 Hc2] Hcs']; subst.
    simpl flat_map in *. rewrite <- !app_assoc in *.
    rewrite !length_app in Hmem. simpl length in Hmem.
    rewrite (app_assoc c [BSLASH; NL]).
    rewrite get_extended_loop_turn by (assumption || lia).
    destruct (IH (b ++ c ++ (if strip then [] else [NL])) fuel
                 (set_linenum_ (linenum_ st + 1) (mark_binary (c ++ [BSLASH]) st)))
      as (st' & E & M & L).
    + exact Hcs'.
    + exact Hnl.
    + destruct strip.
      * rewrite app_nil_r, trailing_backslashes_parity by exact Hb. exact Hc2.
      * replace (b ++ c ++ [NL]) with ((b ++ c) ++ [NL])
          by (now rewrite <- app_assoc).
        unfold trailing_backslashes. rewrite rev_app_distr. reflexivity.
    + rewrite !length_app. destruct strip; simpl length; lia.
    + simpl in Hfuel. lia.
    + exists st'. split; [exact E|]. split; [exact M|].
      rewrite L. unfold mark_binary. now destruct (has_nul (c ++ [BSLASH])).
Qed.

Lemma escaped_lines_length (conts : list (list byte)) :
  (length conts <= length (flat_map (fun c => c ++ [BSLASH; NL]) conts))%nat.
Proof.
  induction conts as [|c conts IH]; simpl; [lia|].
  rewrite !length_app. simpl. lia.
Qed.

(** [get_extended_line] on a line whose newline is escaped, up to its
    loop. *)
Lemma get_extended_line_escaped (cfg : config) (a junk : list byte)
  (strip : bool) (stdin : istream) (st : ed) :
  nl_free a ->
  Nat.odd (trailing_backslashes a) = false ->
  Z.of_nat (length a) + 3 <= mem_limit cfg ->
  get_extended_line cfg (a ++ [BSLASH; NL] ++ junk) strip stdin st
  = match get_extended_loop cfg (S (length (pending stdin))) stdin
            (a ++ (if strip then [] else [NL])) strip st with
    | None => None
    | Some (None, stdin, st) =>
        Some (false, a ++ [BSLASH; NL] ++ junk, 0, stdin, st)
    | Some (Some b, stdin, st) =>
        Some (true, b ++ [NUL], Z.of_nat (length b), stdin, st)
    end.
Proof.
  intros Hnl Ha Hmem. unfold get_extended_line.
  replace (a ++ [BSLASH; NL] ++ junk) with ((a ++ [BSLASH]) ++ NL :: junk)
    by (rewrite <- !app_assoc; reflexivity).
  rewrite index_of_newline by (now apply nl_free_escape).
  replace (Z.of_nat (S (length (a ++ [BSLASH]))))
    with (Z.of_nat (length (a ++ [BSLASH]) + 1)) by lia.
  rewrite trailing_escape_line, trailing_backslashes_escape.
  rewrite Nat.odd_succ, <- Nat.negb_odd, Ha.
  replace (Z.of_nat (length (a ++ [BSLASH]) + 1) <? 2) with false
    by (symmetry; apply Z.ltb_ge; rewrite length_app; simpl; lia).
  simpl negb. simpl orb. cbv iota.
  rewrite resize_buffer_ok by (rewrite length_app; simpl; lia).
  replace (Z.to_nat (Z.of_nat (length (a ++ [BSLASH]) + 1)))
    with (length ((a ++ [BSLASH]) ++ [NL]))
    by (rewrite (length_app _ [NL]); simpl; lia).
  replace ((a ++ [BSLASH]) ++ NL :: junk) with (((a ++ [BSLASH]) ++ [NL]) ++ junk)
    by (rewrite <- !app_assoc; reflexivity).
  rewrite firstn_length_app.
  replace ((a ++ [BSLASH]) ++ [NL]) with (a ++ [BSLASH; NL])
    by (rewrite <- !app_assoc; reflexivity).
  now rewrite strip_trailing_esc_line.
Qed.

(** X17.  The first newline of the buffer is not escaped: the text
    before it ends in an even number of backslashes (none, or an empty
    text, included).  [get_extended_line] returns true at once: the
    buffer pointer is unchanged, the length stored is that of the line
    with its newline, nothing is taken from standard input and the state
    is untouched, whatever the memory limit. *)
Theorem get_extended_line_unescaped (cfg : config) (a junk : list byte)
  (strip : bool) (stdin : istream) (st : ed) :
  nl_free a ->
  Nat.odd (trailing_backslashes a) = false ->
  get_extended_line cfg (a ++ NL :: junk) strip stdin st
  = Some (true, a ++ NL :: junk, Z.of_nat (length a) + 1, stdin, st).
Proof.
  intros Hnl Ha. unfold get_extended_line.
  rewrite index_of_newline by assumption.
  replace (Z.of_nat (S (length a))) with (Z.of_nat (length a + 1)) by lia.
  rewrite trailing_escape_line, Ha. simpl negb. rewrite orb_true_r.
  do 4 f_equal. lia.
Qed.

Lemma get_extended_line_unescaped_witness :
  get_extended_line sample_cfg (bytes "s/a/b/" ++ NL :: [NUL]) true
    {| pending := bytes "q"; ferror_ := false |} empty_ed
  = Some (true, bytes "s/a/b/" ++ NL :: [NUL], Z.of_nat (length (bytes "s/a/b/")) + 1,
          {| pending := bytes "q"; ferror_ := false |}, empty_ed).
Proof.
  apply (get_extended_line_unescaped sample_cfg (bytes "s/a/b/") [NUL] true
           {| pending := bytes "q"; ferror_ := false |} empty_ed).
  - intro H. vm_compute in H. intuition discriminate.
  - reflexivity.
Defined.

(** X18.  The newline of the buffer is escaped (the text [a] before the
    escaping backslash ends in an even number of backslashes), and
    standard input holds the lines [conts], each ending in an escaped
    newline, then a line [fin] whose newline is not escaped.
    [get_extended_line] returns true and a new NUL-terminated buffer:
    the texts joined, every escaping backslash removed, and every escaped
    newline removed too when [strip_escaped_newlines] is set, kept
    otherwise.  The length stored is that of the joined line with its
    final newline; exactly these lines are taken from standard input,
    the line counter advances by their number, and the binary flag is
    set when one of them holds a NUL. *)
Theorem get_extended_line_joins (cfg : config) (a junk : list byte)
  (conts : list (list byte)) (fin rest : list byte) (e : bool)
  (strip : bool) (st : ed) :
  let sep := if strip then [] else [NL] in
  let taken := flat_map (fun c => c ++ [BSLASH; NL]) conts ++ fin ++ [NL] in
  let joined := flat_map (fun c => c ++ sep) (a :: conts) ++ fin ++ [NL] in
  Forall (fun c => nl_free c /\ Nat.odd (trailing_backslashes c) = false)
         (a :: conts) ->
  nl_free fin ->
  Nat.odd (trailing_backslashes fin) = false ->
  Z.of_nat (length a + 1 + length taken) + 2 <= mem_limit cfg ->
  exists st',
    get_extended_line cfg (a ++ [BSLASH; NL] ++ junk) strip
      {| pending := taken ++ rest; ferror_ := e |} st
    = Some (true, joined ++ [NUL], Z.of_nat (length joined),
            {| pending := rest; ferror_ := e |}, st')
    /\ linenum_ st' = linenum_ st + Z.of_nat (S (length conts))
    /\ binary_ st' = binary_ st || has_nul taken
    /\ lines st' = lines st
    /\ errmsg st' = errmsg st.
Proof.
  intros sep taken joined Hcs Hnl Hfin Hmem.
  inversion Hcs as [|? ? [Ha1 Ha2] Hcs']; subst.
  assert (Hlen : (1 <= length taken)%nat).
  { unfold taken. rewrite !length_app. simpl. lia. }
  rewrite get_extended_line_escaped by (assumption || lia).
  destruct (get_extended_loop_joins cfg strip fin rest e conts (a ++ sep)
              (S (length (pending {| pending := taken ++ rest; ferror_ := e |}))) st)
    as (st' & E & Ln & Bn & L & M); try assumption.
  - unfold sep. destruct strip.
    + now rewrite app_nil_r.
    + unfold trailing_backslashes. rewrite rev_app_distr. reflexivity.
  - fold taken. rewrite length_app. unfold sep. destruct strip; simpl length; lia.
  - simpl pending. rewrite length_app. unfold taken. rewrite length_app.
    pose proof (escaped_lines_length conts). lia.
  - fold taken in E, Bn. unfold sep in E. rewrite E.
    exists st'. split; [|now repeat split].
    unfold joined, sep. simpl flat_map. rewrite <- !app_assoc. reflexivity.
Qed.

Lemma get_extended_line_joins_witness :
  let sep := if false then [] else [NL] in
  let taken := flat_map (fun c => c ++ [BSLASH; NL]) [bytes "b"] ++ bytes "c" ++ [NL] in
  let joined := flat_map (fun c => c ++ sep) (bytes "a" :: [bytes "b"])
                ++ bytes "c" ++ [NL] in
  exists st',
    get_extended_line sample_cfg (bytes "a" ++ [BSLASH; NL] ++ [NUL]) false
      {| pending := taken ++ bytes "q"; ferror_ := false |} empty_ed
    = Some (true, joined ++ [NUL], Z.of_nat (length joined),
            {| pending := bytes "q"; ferror_ := false |}, st')
    /\ linenum_ st' = linenum_ empty_ed + Z.of_nat (S (length [bytes "b"]))
    /\ binary_ st' = binary_ empty_ed || has_nul taken
    /\ lines st' = lines empty_ed
    /\ errmsg st' = errmsg empty_ed.
Proof.
  apply (get_extended_line_joins sample_cfg (bytes "a") [NUL] [bytes "b"]
           (bytes "c") (bytes "q") false false empty_ed).
  - repeat constructor; intro H; vm_compute in H; intuition discriminate.
  - intro H. vm_compute in H. intuition discriminate.
  - reflexivity.
  - vm_compute. discriminate.
Defined.

(** X19.  The newline of the buffer is escaped, and standard input ends,
    after lines [conts] that each end in an escaped newline, without a
    further complete line.  [get_extended_line] returns false: the
    buffer pointer is unchanged and no length is stored; standard input
    is drained; the error message is [Unexpected end-of-file], or
    [Cannot read stdin] when the input ended on a read error; the
    collection is untouched. *)
Theorem get_extended_line_end_of_input (cfg : config) (a junk : list byte)
  (conts : list (list byte)) (l : list byte) (e : bool) (strip : bool) (st : ed) :
  let taken := flat_map (fun c => c ++ [BSLASH; NL]) conts ++ l in
  Forall (fun c => nl_free c /\ Nat.odd (trailing_backslashes c) = false)
         (a :: conts) ->
  nl_free l ->
  Z.of_nat (length a + 1 + length taken) + 2 <= mem_limit cfg ->
  exists st',
    get_extended_line cfg (a ++ [BSLASH; NL] ++ junk) strip
      {| pending := taken; ferror_ := e |} st
    = Some (false, a ++ [BSLASH; NL] ++ junk, 0, clean [], st')
    /\ errmsg st'
       = (if e then "Cannot read stdin" else "Unexpected end-of-file")%string
    /\ lines st' = lines st.
Proof.
  intros taken Hcs Hnl Hmem.
  inversion Hcs as [|? ? [Ha1 Ha2] Hcs']; subst.
  rewrite get_extended_line_escaped by (assumption || lia).
  destruct (get_extended_loop_fails cfg strip l e conts
              (a ++ (if strip then [] else [NL]))
              (S (length (pending {| pending := taken; ferror_ := e |}))) st)
    as (st' & E & M & L); try assumption.
  - destruct strip.
    + now rewrite app_nil_r.
    + unfold trailing_backslashes. rewrite rev_app_distr. reflexivity.
  - fold taken. rewrite length_app. destruct strip; simpl length; lia.
  - simpl pending. unfold taken. rewrite length_app.
    pose proof (escaped_lines_length conts). lia.
  - fold taken in E. rewrite E. exists st'. now repeat split.
Qed.

Lemma get_extended_line_end_of_input_witness :
  let taken := flat_map (fun c => c ++ [BSLASH; NL]) [bytes "b"] ++ bytes "c" in
  exists st',
    get_extended_line sample_cfg (bytes "a" ++ [BSLASH; NL] ++ [NUL]) true
      {| pending := taken; ferror_ := false |} empty_ed
    = Some (false, bytes "a" ++ [BSLASH; NL] ++ [NUL], 0, clean [], st')
    /\ errmsg st'
       = (if false then "Cannot read stdin" else "Unexpected end-of-file")%string
    /\ lines st' = lines empty_ed.
Proof.
  apply (get_extended_line_end_of_input sample_cfg (bytes "a") [NUL] [bytes "b"]
           (bytes "c") false true empty_ed).
  - repeat constructor; intro H; vm_compute in H; intuition discriminate.
  - intro H. vm_compute in H. intuition discriminate.
  - vm_compute. discriminate.
Defined.

(** ** read_stream: the interrupt bracket *)

Lemma read_stream_line_loop_mutex (cfg : config) (l : list byte) :
  forall (buf : list byte) (st : ed),
    mutex (snd (read_stream_line_loop cfg l buf st)) = mutex st.
Proof.
  induction l as [|c l IH]; intros buf st; simpl;
    unfold resize_buffer;
    destruct (Z.of_nat (length buf) + 2 <=? mem_limit cfg); try reflexivity.
  destruct (Byte.eqb c NUL); [now rewrite IH|].
  destruct (Byte.eqb c NL); [reflexivity|apply IH].
Qed.

Lemma read_stream_line_mutex (cfg : config) (fp : istream) (size : Z)
  (nla : bool) (st : ed) :
  mutex (snd (read_stream_line cfg fp size nla st)) = mutex st.
Proof.
  unfold read_stream_line.
  pose proof (read_stream_line_loop_mutex cfg (pending fp) [] st) as H.
  destruct (read_stream_line_loop cfg (pending fp) [] st) as [[[x buf] l] st1].
  simpl in H. destruct x; simpl.
  - exact H.
  - destruct (ferror_ fp); simpl; [exact H|].
    destruct (negb (Z.of_nat (length buf) =? 0)); exact H.
  - exact H.
Qed.

Lemma put_sbuf_line_mutex (buf : list byte) (size : Z) (st : ed) :
  mutex (snd (put_sbuf_line buf size st)) = mutex st.
Proof.
  unfold put_sbuf_line.
  now destruct (index_of NL (firstn (Z.to_nat size) buf)).
Qed.

Lemma set_tail_mutex (up lp : nat) (st : ed) : mutex (set_tail up lp st) = mutex st.
Proof. unfold set_tail. now destruct (nth_error (ustack st) up). Qed.

(** The model's loop is the loop above at the model's collaborators. *)
Lemma read_stream_loop_with_model (cfg : config) (fuel : nat) :
  forall fp lp up total nla st,
    read_stream_loop_with put_sbuf_line push_undo_atom cfg fuel fp lp up total nla st
    = read_stream_loop cfg fuel fp lp up total nla st.
Proof.
  induction fuel as [|fuel IH]; intros fp lp up total nla st; [reflexivity|].
  cbn [read_stream_loop_with read_stream_loop].
  destruct (read_stream_line cfg fp 0 nla st) as [[[[s size] nla1] fp1] st1].
  destruct s as [s|]; [|reflexivity].
  destruct (size <=? 0); [reflexivity|].
  destruct (put_sbuf_line s (size + b2z nla1) (disable_interrupts st1)) as [[|] st2];
    [|reflexivity].
  destruct up as [u|]; [apply IH|].
  cbn [push_undo_atom]. apply IH.
Qed.

Lemma read_stream_with_model (cfg : config) (fp : istream) (addr : Z) (st : ed) :
  read_stream_with put_sbuf_line push_undo_atom cfg fp addr st
  = read_stream cfg fp addr st.
Proof.
  unfold read_stream_with, read_stream.
  now rewrite read_stream_loop_with_model.
Qed.

Lemma read_stream_loop_with_total
  (put : list byte -> Z -> ed -> bool * ed)
  (push : undo_type -> Z -> Z -> ed -> option nat * ed)
  (cfg : config) (fuel : nat) :
  forall fp lp up total nla st,
    (length (pending fp) < fuel)%nat ->
    exists r, read_stream_loop_with put push cfg fuel fp lp up total nla st = Some r.
Proof.
  induction fuel as [|fuel IH]; intros fp lp up total nla st Hfuel; [lia|].
  cbn [read_stream_loop_with].
  destruct (read_stream_line cfg fp 0 nla st) as [[[[s size] nla'] fp'] st'] eqn:E.
  destruct s as [s|]; [|eexists; reflexivity].
  destruct (size <=? 0) eqn:Es; [eexists; reflexivity|].
  apply Z.leb_gt in Es.
  pose proof (read_stream_line_takes cfg fp fp' 0 size nla nla' st st' s E Es) as Ht.
  destruct (put s (size + b2z nla') (disable_interrupts st')) as [[|] s2];
    [|eexists; reflexivity].
  destruct up as [u|].
  - apply IH. lia.
  - destruct (push UADD (current_addr s2) (current_addr s2) s2) as [[u|] s3];
      [|eexists; reflexivity].
    apply IH. lia.
Qed.

Lemma read_stream_loop_with_mutex
  (put : list byte -> Z -> ed -> bool * ed)
  (push : undo_type -> Z -> Z -> ed -> option nat * ed)
  (cfg : config) (fuel : nat) :
  (forall s n st, mutex (snd (put s n st)) = mutex st) ->
  (forall t a b st, mutex (snd (push t a b st)) = mutex st) ->
  forall fp lp up total nla st ok total' nla' fp' st',
    read_stream_loop_with put push cfg fuel fp lp up total nla st
    = Some (ok, total', nla', fp', st') ->
    mutex st' = mutex st.
Proof.
  intros Hput Hpush.
  induction fuel as [|fuel IH];
    intros fp lp up total nla st ok total' nla' fp' st' E; [discriminate E|].
  cbn [read_stream_loop_with] in E.
  pose proof (read_stream_line_mutex cfg fp 0 nla st) as H1.
  destruct (read_stream_line cfg fp 0 nla st) as [[[[s size] nla1] fp1] st1].
  simpl in H1.
  destruct s as [s|]; [|injection E as <- <- <- <- <-; exact H1].
  destruct (size <=? 0); [injection E as <- <- <- <- <-; exact H1|].
  pose proof (Hput s (size + b2z nla1) (disable_interrupts st1)) as H2.
  destruct (put s (size + b2z nla1) (disable_interrupts st1)) as [[|] st2];
    simpl in H2.
  - destruct up as [u|].
    + apply IH in E. rewrite E. simpl. rewrite set_tail_mutex, H2. simpl. lia.
    + pose proof (Hpush UADD (current_addr st2) (current_addr st2) st2) as H3.
      destruct (push UADD (current_addr st2) (current_addr st2) st2)
        as [[u|] st3]; simpl in H3.
      * apply IH in E. rewrite E. simpl. rewrite H3, H2. simpl. lia.
      * injection E as <- <- <- <- <-. simpl. rewrite H3, H2. simpl. lia.
  - injection E as <- <- <- <- <-. simpl. rewrite H2. simpl. lia.
Qed.

(** X20.  Whatever [put_sbuf_line] and [push_undo_atom] do, success or
    failure, as long as they themselves leave the interrupt nesting count
    alone: on every stream, address and state [read_stream] returns, and
    the nesting count is the same afterwards.  Each
    [disable_interrupts] is followed by an [enable_interrupts] on every
    way out of the bracket: the two error returns, when [put_sbuf_line]
    or [push_undo_atom] fails, and the end of the turn. *)
Theorem read_stream_interrupts_balanced
  (put : list byte -> Z -> ed -> bool * ed)
  (push : undo_type -> Z -> Z -> ed -> option nat * ed)
  (cfg : config) (fp : istream) (addr : Z) (st : ed) :
  (forall s n st, mutex (snd (put s n st)) = mutex st) ->
  (forall t a b st, mutex (snd (push t a b st)) = mutex st) ->
  exists r fp' st',
    read_stream_with put push cfg fp addr st = Some (r, fp', st')
    /\ mutex st' = mutex st.
Proof.
  intros Hput Hpush. unfold read_stream_with.
  destruct (read_stream_loop_with_total put push cfg (S (length (pending fp))) fp
              (search_line_node st addr) None 0 false (set_current_addr addr st))
    as [[[[[ok total] nla] fp'] st'] E]; [lia|].
  rewrite E. apply (read_stream_loop_with_mutex put push cfg _ Hput Hpush) in E.
  simpl in E.
  destruct ok.
  - eexists. eexists. eexists. split; [reflexivity|].
    match goal with
    | |- mutex (if ?c then _ else _) = _ => destruct c
    end;
      repeat match goal with
             | |- context [if ?c then _ else _] => destruct c
             end; exact E.
  - eexists. eexists. eexists. split; [reflexivity|exact E].
Qed.

(** The witness takes the model's [put_sbuf_line] and a
    [push_undo_atom] that finds no memory: the first line read leaves
    through the error return inside the bracket. *)
Lemma read_stream_interrupts_balanced_witness :
  exists r fp' st',
    read_stream_with put_sbuf_line (fun _ _ _ st => (None, st)) sample_cfg
                     (clean (bytes "a" ++ [NL])) 0 empty_ed
    = Some (r, fp', st')
    /\ mutex st' = mutex empty_ed.
Proof.
  apply (read_stream_interrupts_balanced put_sbuf_line (fun _ _ _ st => (None, st))
           sample_cfg (clean (bytes "a" ++ [NL])) 0 empty_ed).
  - intros s n st. apply put_sbuf_line_mutex.
  - intros t a b st. reflexivity.
Defined.
